(** * Reddit post generator: the pipeline of [app.py]

    [app.py] chains five calls: a web search ([search_for_articles]), the
    choice of an article by a language model ([find_the_best_article_urls]),
    the download of the article ([get_content_from_urls]), one summary per
    chunk of text ([summarise_content]) and the final post
    ([generate_reddit_post]); [main] runs them in this order.

    The program is embedded as functions of a small state-and-exception
    monad.  The state is the trace of the effects performed so far; a
    [World] gives the answers of everything outside the program (the
    process environment, the search provider, the model provider, the
    document loader).  Python exceptions are values of [PyError].

    Strings.  A Python [str] is represented by the bytes of its UTF-8
    encoding, so [len] is [String.length] on ASCII text.

    Libraries.  The pure library functions the program calls are written
    out as the libraries define them: [json.dumps] and [json.loads] as
    CPython's encoder and scanner (the limits on nesting depth and on the
    digits of an [int] are left out), [str] and [repr] of the values that
    occur, [str.format] for templates with plain field names, and
    langchain's [CharacterTextSplitter] ([split_text] cuts the text at the
    separator, drops the empty pieces and merges the others with
    [_merge_splits]).  [requests], the model client and the URL loader are
    calls to the world; the model client looks for its key when it is
    built. *)

From Stdlib Require Import List String Ascii ZArith NArith Bool Lia DecimalString.
Import ListNotations.
Local Open Scope string_scope.
Set Warnings "-register-all".

(* ================================================================== *)
(** ** Python strings *)
(* ================================================================== *)

Module PyStr.

Definition dquote : ascii := "034"%char.
Definition squote : ascii := "039"%char.
Definition backslash : ascii := "092"%char.
Definition TAB : ascii := "009"%char.
Definition LF : ascii := "010"%char.
Definition CR : ascii := "013"%char.
Definition BS : ascii := "008"%char.
Definition FF : ascii := "012"%char.

Definition code (c : ascii) : N := N_of_ascii c.
Definition byte (n : N) : ascii := ascii_of_N n.
Definition str1 (c : ascii) : string := String c "".

(** [len(s)], counted on the bytes: the number of characters of an ASCII
    text. *)
Definition len (s : string) : Z := Z.of_nat (String.length s).

(** [sep.join(l)] *)
Definition join (sep : string) (l : list string) : string := String.concat sep l.

(** [c in s] *)
Fixpoint contains (c : ascii) (s : string) : bool :=
  match s with
  | "" => false
  | String d r => Ascii.eqb c d || contains c r
  end.

(** [str(n)] for an [int]. *)
Definition str_int (z : Z) : string := NilEmpty.string_of_int (Z.to_int z).

Definition hexdigit (n : N) : ascii :=
  if (n <? 10)%N then byte (48 + n) else byte (87 + n).

(** ['{:02x}'.format(n)] and ['{:04x}'.format(n)] *)
Definition hex2 (n : N) : string :=
  String (hexdigit (N.land (N.shiftr n 4) 15)) (String (hexdigit (N.land n 15)) "").

Definition hex4 (n : N) : string :=
  hex2 (N.land (N.shiftr n 8) 255) ++ hex2 (N.land n 255).

(** [repr(s)] for a [str]: the quote is ['] unless the text has a ['] and
    no double quote; the quote, the backslash, tab, line feed and carriage
    return are escaped, the other control characters are written [\xhh].
    Characters outside ASCII are copied (CPython copies the printable
    ones). *)
Definition repr_char (q c : ascii) : string :=
  if Ascii.eqb c q || Ascii.eqb c backslash then String backslash (str1 c)
  else if Ascii.eqb c TAB then String backslash "t"
  else if Ascii.eqb c LF then String backslash "n"
  else if Ascii.eqb c CR then String backslash "r"
  else if (code c <? 32)%N || (code c =? 127)%N
       then String backslash (String "x" (hex2 (code c)))
  else str1 c.

Fixpoint repr_body (q : ascii) (s : string) : string :=
  match s with
  | "" => ""
  | String c r => repr_char q c ++ repr_body q r
  end.

Definition repr_quote (s : string) : ascii :=
  if contains squote s && negb (contains dquote s) then dquote else squote.

Definition repr_str (s : string) : string :=
  let q := repr_quote s in String q (repr_body q s ++ str1 q).

(** [str(l)] for a list of [str]: [repr] of the items between brackets. *)
Definition str_list (l : list string) : string :=
  "[" ++ join ", " (map repr_str l) ++ "]".

(** [c.isspace()] on ASCII. *)
Definition isspace (c : ascii) : bool :=
  let n := code c in
  ((9 <=? n) && (n <=? 13) || (28 <=? n) && (n <=? 32))%N.

(** [s.strip()] *)
Fixpoint lstrip (s : string) : string :=
  match s with
  | "" => ""
  | String c r => if isspace c then lstrip r else s
  end.

Fixpoint rstrip (s : string) : string :=
  match s with
  | "" => ""
  | String c r =>
      match rstrip r with
      | "" => if isspace c then "" else str1 c
      | r' => String c r'
      end
  end.

Definition strip (s : string) : string := rstrip (lstrip s).

(** UTF-8 bytes of a code point (what a [\uXXXX] escape denotes). *)
Definition utf8 (u : N) : string :=
  let cont k := byte (128 + N.land (N.shiftr u k) 63) in
  if (u <? 128)%N then str1 (byte u)
  else if (u <? 2048)%N then String (byte (192 + N.shiftr u 6)) (str1 (cont 0%N))
  else if (u <? 65536)%N then
    String (byte (224 + N.shiftr u 12)) (String (cont 6%N) (str1 (cont 0%N)))
  else
    String (byte (240 + N.shiftr u 18))
      (String (cont 12%N) (String (cont 6%N) (str1 (cont 0%N)))).

End PyStr.

(* ================================================================== *)
(** ** Python values of JSON shape, [json.dumps] and [json.loads] *)
(* ================================================================== *)

Module Json.
Import PyStr.

(** The values [json.loads] builds: [None], [bool], [int], [float], [str],
    [list] and [dict] with [str] keys.  A [float] is kept as the literal
    that denotes it ([NaN], [Infinity] and [-Infinity] included); its
    printed form is the world's [float_repr], see [World] below. *)
Inductive pyobj : Type :=
| PyNone
| PyBool (b : bool)
| PyInt (z : Z)
| PyFloat (lit : string)
| PyStr (s : string)
| PyList (l : list pyobj)
| PyDict (d : list (string * pyobj)).

(** [d[k] = v]: an existing key keeps its place, a new one goes last. *)
Fixpoint dict_set (d : list (string * pyobj)) (k : string) (v : pyobj)
  : list (string * pyobj) :=
  match d with
  | [] => [(k, v)]
  | (k', v') :: r =>
      if String.eqb k k' then (k, v) :: r else (k', v') :: dict_set r k v
  end.

(** *** [json.dumps], with its defaults ([ensure_ascii=True], separators
    [", "] and [": "]) *)

(** One ASCII character inside a JSON string. *)
Definition escape_ascii (c : ascii) : string :=
  if Ascii.eqb c dquote then String backslash (str1 dquote)
  else if Ascii.eqb c backslash then String backslash (str1 backslash)
  else if Ascii.eqb c LF then String backslash "n"
  else if Ascii.eqb c CR then String backslash "r"
  else if Ascii.eqb c TAB then String backslash "t"
  else if Ascii.eqb c BS then String backslash "b"
  else if Ascii.eqb c FF then String backslash "f"
  else if (code c <? 32)%N || (code c =? 127)%N
       then String backslash (String "u" (hex4 (code c)))
  else str1 c.

(** A code point outside ASCII: [\uXXXX], a surrogate pair above 0xFFFF. *)
Definition escape_unicode (u : N) : string :=
  if (u <? 65536)%N then String backslash (String "u" (hex4 u))
  else
    let n := (u - 65536)%N in
    let s1 := N.lor 55296 (N.land (N.shiftr n 10) 1023) in
    let s2 := N.lor 56320 (N.land n 1023) in
    String backslash (String "u" (hex4 s1))
    ++ String backslash (String "u" (hex4 s2)).

(** The UTF-8 bytes are decoded on the fly: [pending] counts the
    continuation bytes still expected and [acc] holds the bits read. *)
Fixpoint escape_from (s : string) (pending : nat) (acc : N) : string :=
  match s with
  | "" => ""
  | String c r =>
      let n := code c in
      match pending with
      | S k =>
          let acc' := N.lor (N.shiftl acc 6) (N.land n 63) in
          match k with
          | O => escape_unicode acc' ++ escape_from r 0 0
          | S _ => escape_from r k acc'
          end
      | O =>
          if (n <? 128)%N then escape_ascii c ++ escape_from r 0 0
          else if (n <? 192)%N then escape_unicode n ++ escape_from r 0 0
          else if (n <? 224)%N then escape_from r 1 (N.land n 31)
          else if (n <? 240)%N then escape_from r 2 (N.land n 15)
          else if (n <? 248)%N then escape_from r 3 (N.land n 7)
          else escape_unicode n ++ escape_from r 0 0
      end
  end.

Definition encode_str (s : string) : string :=
  String dquote (escape_from s 0 0 ++ str1 dquote).

Definition float_constant (lit : string) : bool :=
  String.eqb lit "NaN" || String.eqb lit "Infinity" || String.eqb lit "-Infinity".

Section Printing.
(** [repr] of the float a literal denotes. *)
Variable float_repr : string -> string.

Fixpoint dumps (v : pyobj) : string :=
  match v with
  | PyNone => "null"
  | PyBool true => "true"
  | PyBool false => "false"
  | PyInt z => str_int z
  | PyFloat lit => if float_constant lit then lit else float_repr lit
  | PyStr s => encode_str s
  | PyList l => "[" ++ join ", " (map dumps l) ++ "]"
  | PyDict d =>
      "{" ++ join ", " (map (fun kv => encode_str (fst kv) ++ ": " ++ dumps (snd kv)) d)
          ++ "}"
  end.

(** [repr(v)], which is also [str(v)] for every value but a [str]. *)
Fixpoint repr (v : pyobj) : string :=
  match v with
  | PyNone => "None"
  | PyBool true => "True"
  | PyBool false => "False"
  | PyInt z => str_int z
  | PyFloat lit => float_repr lit
  | PyStr s => repr_str s
  | PyList l => "[" ++ join ", " (map repr l) ++ "]"
  | PyDict d =>
      "{" ++ join ", " (map (fun kv => repr_str (fst kv) ++ ": " ++ repr (snd kv)) d)
          ++ "}"
  end.

Definition str (v : pyobj) : string :=
  match v with
  | PyStr s => s
  | _ => repr v
  end.
End Printing.

(** *** [json.loads]: the scanner of CPython's [json] module *)

(** A scan ends with a value and the rest of the input, with a syntax
    error ([JSONDecodeError]) or because the recursion budget is spent;
    [loads_total] shows that the budget [loads] gives is never spent. *)
Inductive presult (A : Type) : Type :=
| POk (a : A) (rest : string)
| PSyntax
| PFuel.
Arguments POk {A} a rest.
Arguments PSyntax {A}.
Arguments PFuel {A}.

Definition is_ws (c : ascii) : bool :=
  Ascii.eqb c " " || Ascii.eqb c TAB || Ascii.eqb c LF || Ascii.eqb c CR.

Fixpoint skip_ws (s : string) : string :=
  match s with
  | "" => ""
  | String c r => if is_ws c then skip_ws r else s
  end.

Definition is_digit (c : ascii) : bool :=
  ((48 <=? code c) && (code c <=? 57))%N.

Definition hexval (c : ascii) : option N :=
  let n := code c in
  if ((48 <=? n) && (n <=? 57))%N then Some (n - 48)%N
  else if ((97 <=? n) && (n <=? 102))%N then Some (n - 87)%N
  else if ((65 <=? n) && (n <=? 70))%N then Some (n - 55)%N
  else None.

(** Four hexadecimal digits. *)
Definition scan_hex4 (s : string) : option (N * string) :=
  match s with
  | String a (String b (String c (String d r))) =>
      match hexval a, hexval b, hexval c, hexval d with
      | Some x, Some y, Some z, Some t =>
          Some ((((x * 16 + y) * 16 + z) * 16 + t)%N, r)
      | _, _, _, _ => None
      end
  | _ => None
  end.

Definition simple_escape (c : ascii) : option ascii :=
  if Ascii.eqb c dquote then Some dquote
  else if Ascii.eqb c backslash then Some backslash
  else if Ascii.eqb c "/" then Some "/"%char
  else if Ascii.eqb c "b" then Some BS
  else if Ascii.eqb c "f" then Some FF
  else if Ascii.eqb c "n" then Some LF
  else if Ascii.eqb c "r" then Some CR
  else if Ascii.eqb c "t" then Some TAB
  else None.

Definition is_high_surrogate (u : N) : bool := ((55296 <=? u) && (u <=? 56319))%N.
Definition is_low_surrogate (u : N) : bool := ((56320 <=? u) && (u <=? 57343))%N.

(** The text right after a high surrogate [u]: a following [\uXXXX] low
    surrogate joins it. *)
Definition scan_low_surrogate (u : N) (s : string) : option (N * string) :=
  match s with
  | String b (String x r) =>
      if Ascii.eqb b backslash && Ascii.eqb x "u" then
        match scan_hex4 r with
        | None => None
        | Some (u2, r') =>
            if is_low_surrogate u2
            then Some ((65536 + N.lor (N.shiftl (u - 55296) 10) (u2 - 56320))%N, r')
            else Some (u, s)
        end
      else Some (u, s)
  | _ => Some (u, s)
  end.

(** [scanstring], strict: the input starts right after the opening quote. *)
Fixpoint scanstring (fuel : nat) (s : string) (acc : string) : presult string :=
  match fuel with
  | O => PFuel
  | S f =>
      match s with
      | "" => PSyntax
      | String c r =>
          if Ascii.eqb c dquote then POk acc r
          else if Ascii.eqb c backslash then
            match r with
            | "" => PSyntax
            | String e r' =>
                if Ascii.eqb e "u" then
                  match scan_hex4 r' with
                  | None => PSyntax
                  | Some (u, r'') =>
                      if is_high_surrogate u then
                        match scan_low_surrogate u r'' with
                        | None => PSyntax
                        | Some (u', r3) => scanstring f r3 (acc ++ utf8 u')
                        end
                      else scanstring f r'' (acc ++ utf8 u)
                  end
                else
                  match simple_escape e with
                  | Some ch => scanstring f r' (acc ++ str1 ch)
                  | None => PSyntax
                  end
            end
          else if (code c <? 32)%N then PSyntax
          else scanstring f r (acc ++ str1 c)
      end
  end.

(** The longest run of digits at the head of [s]. *)
Fixpoint span_digits (s : string) : string * string :=
  match s with
  | "" => ("", "")
  | String c r =>
      if is_digit c
      then let '(ds, r') := span_digits r in (String c ds, r')
      else ("", s)
  end.

Fixpoint digits_value (ds : string) (acc : Z) : Z :=
  match ds with
  | "" => acc
  | String c r => digits_value r (10 * acc + Z.of_N (code c - 48))%Z
  end.

(** The integer part: [0] alone, or a digit from 1 to 9 and more digits. *)
Definition scan_int_part (s : string) : option (string * string) :=
  match s with
  | String c r =>
      if Ascii.eqb c "0" then Some ("0", r)
      else if is_digit c then Some (span_digits s)
      else None
  | "" => None
  end.

(** A fraction: a dot and at least one digit. *)
Definition scan_frac (s : string) : string * string :=
  match s with
  | String c r =>
      if Ascii.eqb c "." then
        match span_digits r with
        | ("", _) => ("", s)
        | (ds, r') => (String c ds, r')
        end
      else ("", s)
  | "" => ("", s)
  end.

(** An exponent: [e] or [E], an optional sign and at least one digit. *)
Definition scan_exp (s : string) : string * string :=
  match s with
  | String c r =>
      if Ascii.eqb c "e" || Ascii.eqb c "E" then
        let '(sign, r1) :=
          match r with
          | String g r0 =>
              if Ascii.eqb g "+" || Ascii.eqb g "-" then (str1 g, r0) else ("", r)
          | "" => ("", r)
          end in
        match span_digits r1 with
        | ("", _) => ("", s)
        | (ds, r') => (String c (sign ++ ds), r')
        end
      else ("", s)
  | "" => ("", s)
  end.

(** [_match_number]: an [int] when there is neither fraction nor exponent. *)
Definition match_number (s : string) : presult pyobj :=
  let '(neg, s1) :=
    match s with
    | String c r => if Ascii.eqb c "-" then (true, r) else (false, s)
    | "" => (false, s)
    end in
  match scan_int_part s1 with
  | None => PSyntax
  | Some (ip, s2) =>
      let '(fp, s3) := scan_frac s2 in
      let '(ep, s4) := scan_exp s3 in
      match fp, ep with
      | "", "" =>
          let z := digits_value ip 0 in
          POk (PyInt (if neg then (- z)%Z else z)) s4
      | _, _ => POk (PyFloat ((if neg then "-" else "") ++ ip ++ fp ++ ep)) s4
      end
  end.

(** [s] starts with [w]: the rest after [w]. *)
Fixpoint after_prefix (w s : string) : option string :=
  match w with
  | "" => Some s
  | String c w' =>
      match s with
      | String d r => if Ascii.eqb c d then after_prefix w' r else None
      | "" => None
      end
  end.

Definition scan_constant (s : string) : option (pyobj * string) :=
  match after_prefix "null" s with
  | Some r => Some (PyNone, r)
  | None =>
  match after_prefix "true" s with
  | Some r => Some (PyBool true, r)
  | None =>
  match after_prefix "false" s with
  | Some r => Some (PyBool false, r)
  | None =>
  match after_prefix "NaN" s with
  | Some r => Some (PyFloat "NaN", r)
  | None =>
  match after_prefix "Infinity" s with
  | Some r => Some (PyFloat "Infinity", r)
  | None =>
  match after_prefix "-Infinity" s with
  | Some r => Some (PyFloat "-Infinity", r)
  | None => None
  end end end end end end.

(** [scan_once] with [_parse_array] and [_parse_object].  [parse_array]
    and [parse_object] are entered where a value, respectively a key, is
    expected, with the items read so far. *)
Fixpoint scan_once (fuel : nat) (s : string) : presult pyobj :=
  match fuel with
  | O => PFuel
  | S f =>
      match s with
      | "" => PSyntax
      | String c r =>
          if Ascii.eqb c dquote then
            match scanstring (S (String.length r)) r "" with
            | POk k r' => POk (PyStr k) r'
            | PSyntax => PSyntax
            | PFuel => PFuel
            end
          else if Ascii.eqb c "{" then
            match skip_ws r with
            | String c' r' =>
                if Ascii.eqb c' "}" then POk (PyDict []) r'
                else parse_object f (String c' r') []
            | "" => PSyntax
            end
          else if Ascii.eqb c "[" then
            match skip_ws r with
            | String c' r' =>
                if Ascii.eqb c' "]" then POk (PyList []) r'
                else parse_array f (String c' r') []
            | "" => PSyntax
            end
          else
            match scan_constant s with
            | Some (v, r') => POk v r'
            | None => match_number s
            end
      end
  end

with parse_array (fuel : nat) (s : string) (acc : list pyobj) : presult pyobj :=
  match fuel with
  | O => PFuel
  | S f =>
      match scan_once f s with
      | POk v r =>
          match skip_ws r with
          | String c r' =>
              if Ascii.eqb c "]" then POk (PyList (acc ++ [v])%list) r'
              else if Ascii.eqb c "," then parse_array f (skip_ws r') (acc ++ [v])%list
              else PSyntax
          | "" => PSyntax
          end
      | PSyntax => PSyntax
      | PFuel => PFuel
      end
  end

with parse_object (fuel : nat) (s : string) (acc : list (string * pyobj))
  : presult pyobj :=
  match fuel with
  | O => PFuel
  | S f =>
      match s with
      | String q r =>
          if Ascii.eqb q dquote then
            match scanstring (S (String.length r)) r "" with
            | POk k r1 =>
                match skip_ws r1 with
                | String c r2 =>
                    if Ascii.eqb c ":" then
                      match scan_once f (skip_ws r2) with
                      | POk v r3 =>
                          match skip_ws r3 with
                          | String c' r4 =>
                              if Ascii.eqb c' "}" then POk (PyDict (dict_set acc k v)) r4
                              else if Ascii.eqb c' ","
                                   then parse_object f (skip_ws r4) (dict_set acc k v)
                              else PSyntax
                          | "" => PSyntax
                          end
                      | PSyntax => PSyntax
                      | PFuel => PFuel
                      end
                    else PSyntax
                | "" => PSyntax
                end
            | PSyntax => PSyntax
            | PFuel => PFuel
            end
          else PSyntax
      | "" => PSyntax
      end
  end.

(** [JSONDecoder.decode]: white space, one value, white space, the end. *)
Definition decode (fuel : nat) (s : string) : presult pyobj :=
  match scan_once fuel (skip_ws s) with
  | POk v r => match skip_ws r with "" => POk v "" | _ => PSyntax end
  | PSyntax => PSyntax
  | PFuel => PFuel
  end.

(** [json.loads(s)]; [None] stands for the [JSONDecodeError]. *)
Definition loads (s : string) : option pyobj :=
  match decode (S (2 * String.length s)) s with
  | POk v _ => Some v
  | _ => None
  end.

(** The three scanners consume input and stay within the budget [f]. *)
Definition within (f : nat) : Prop :=
  (forall s, 2 * String.length s + 1 <= f ->
     scan_once f s <> PFuel
     /\ forall v r, scan_once f s = POk v r -> String.length r < String.length s)
  /\ (forall s acc, 2 * String.length s + 2 <= f ->
     parse_array f s acc <> PFuel
     /\ forall v r, parse_array f s acc = POk v r -> String.length r < String.length s)
  /\ (forall s acc, 2 * String.length s + 2 <= f ->
     parse_object f s acc <> PFuel
     /\ forall v r, parse_object f s acc = POk v r -> String.length r < String.length s).

End Json.

(* ================================================================== *)
(** ** Exceptions *)
(* ================================================================== *)

(** The exceptions a run can end with. *)
Inductive PyError : Type :=
| RequestException  (** [requests]: the request could not complete *)
| JSONDecodeError   (** [json.loads], [response.json()]: not JSON *)
| ValidationError   (** [ChatOpenAI(...)]: no API key to be found *)
| OpenAIError       (** the call to the model provider failed *)
| LoaderError       (** [UnstructuredURLLoader.load] raised *)
| KeyError
| ValueError
| IndexError
| TypeError.

(* ================================================================== *)
(** ** Prompt templates: [str.format] and [PromptTemplate] *)
(* ================================================================== *)

Module Template.
Import PyStr.

Fixpoint lookup (k : string) (kw : list (string * string)) : option string :=
  match kw with
  | [] => None
  | (k', v) :: r => if String.eqb k k' then Some v else lookup k r
  end.

Definition prepend (p : string) (r : PyError + string) : PyError + string :=
  match r with
  | inr s => inr (p ++ s)
  | inl e => inl e
  end.

(** [template.format] with the keyword arguments [kw], for templates whose replacement fields are
    plain names, as the program's are: [{name}] is replaced by [kw[name]],
    [{{] and [}}] stand for one brace, a lone brace is a [ValueError] and a
    name that is not in [kw] a [KeyError].  [field] holds the name being
    read inside braces. *)
Fixpoint format_from (s : string) (kw : list (string * string)) (field : option string)
  : PyError + string :=
  match s with
  | "" => match field with None => inr "" | Some _ => inl ValueError end
  | String c r =>
      match field with
      | Some name =>
          if Ascii.eqb c "}" then
            match name with
            | "" => inl IndexError
            | _ =>
                match lookup name kw with
                | Some v => prepend v (format_from r kw None)
                | None => inl KeyError
                end
            end
          else format_from r kw (Some (name ++ str1 c))
      | None =>
          if Ascii.eqb c "{" then
            match r with
            | String c' r' =>
                if Ascii.eqb c' "{" then prepend "{" (format_from r' kw None)
                else format_from r kw (Some "")
            | "" => inl ValueError
            end
          else if Ascii.eqb c "}" then
            match r with
            | String c' r' =>
                if Ascii.eqb c' "}" then prepend "}" (format_from r' kw None)
                else inl ValueError
            | "" => inl ValueError
            end
          else prepend (str1 c) (format_from r kw None)
      end
  end.

Definition format (template : string) (kw : list (string * string)) : PyError + string :=
  format_from template kw None.

(** [PromptTemplate(template=..., input_variables=[...])] *)
Record PromptTemplate : Type := {
  template : string;
  input_variables : list string
}.

(** The inputs a chain hands to its prompt: the prompt's input variables,
    each of which must be given ([ValueError] otherwise). *)
Fixpoint select_inputs (vars : list string) (kw : list (string * string))
  : PyError + list (string * string) :=
  match vars with
  | [] => inr []
  | x :: r =>
      match lookup x kw, select_inputs r kw with
      | Some v, inr l => inr ((x, v) :: l)
      | None, _ => inl ValueError
      | _, inl e => inl e
      end
  end.

(** [prompt.format] with the keyword arguments [kw], as [LLMChain] calls it. *)
Definition format_prompt (p : PromptTemplate) (kw : list (string * string))
  : PyError + string :=
  match select_inputs (input_variables p) kw with
  | inr sel => format (template p) sel
  | inl e => inl e
  end.

End Template.

(* ================================================================== *)
(** ** Documents and langchain's [CharacterTextSplitter] *)
(* ================================================================== *)

(** langchain's [Document]: the text and a [dict] of metadata. *)
Record Document : Type := {
  page_content : string;
  metadata : Json.pyobj
}.

Module Splitter.
Import PyStr.

(** [CharacterTextSplitter(separator=..., chunk_size=..., chunk_overlap=...,
    length_function=len)] *)
Record CharacterTextSplitter : Type := {
  separator : string;
  chunk_size : Z;
  chunk_overlap : Z
}.

(** [text.split(sep)] for a separator that is not empty: [cur] is the
    piece being read and [skip] the characters of a separator still to
    pass over. *)
Fixpoint split_from (sep s : string) (skip : nat) (cur : string) : list string :=
  match s with
  | "" => [cur]
  | String c r =>
      match skip with
      | S k => split_from sep r k cur
      | O =>
          if prefix sep s
          then cur :: split_from sep r (String.length sep - 1) ""
          else split_from sep r 0 (cur ++ str1 c)
      end
  end.

Definition chars (s : string) : list string :=
  map str1 (list_ascii_of_string s).

Definition nonempty (s : string) : bool := negb (String.eqb s "").

(** The pieces [split_text] starts from: the text cut at the separator
    (into characters when the separator is empty), empty pieces dropped. *)
Definition split_pieces (sep text : string) : list string :=
  filter nonempty (match sep with
                   | "" => chars text
                   | _ => split_from sep text 0 ""
                   end).

(** [sep] occurs somewhere in [s]. *)
Fixpoint occurs (sep s : string) : bool :=
  prefix sep s || match s with
                  | "" => false
                  | String _ r => occurs sep r
                  end.

Section Merge.
Variable ts : CharacterTextSplitter.

Definition separator_len : Z := len (separator ts).

(** [_join_docs]: the pieces joined and stripped, [None] when nothing
    is left. *)
Definition join_docs (docs : list string) : option string :=
  let text := strip (join (separator ts) docs) in
  if String.eqb text "" then None else Some text.

Definition sep_if (b : bool) : Z := if b then separator_len else 0%Z.

(** The test of the inner [while] of [_merge_splits]. *)
Definition must_pop (cur : list string) (total _len : Z) : bool :=
  (chunk_overlap ts <? total)%Z
  || ((chunk_size ts <? total + _len + sep_if (0 <? List.length cur)%nat)%Z
      && (0 <? total)%Z).

(** The inner [while]: pieces leave the front of [current_doc] until
    what remains fits; [current_doc[0]] on an empty list is an
    [IndexError]. *)
Fixpoint pop_front (cur : list string) (total _len : Z)
  : option (list string * Z) :=
  if must_pop cur total _len then
    match cur with
    | [] => None
    | d :: rest =>
        pop_front rest (total - (len d + sep_if (1 <? List.length cur)%nat))%Z _len
    end
  else Some (cur, total).

(** The state of the loop of [_merge_splits]. *)
Record MergeState : Type := {
  docs : list string;
  current_doc : list string;
  total : Z
}.

Definition emit (ds : list string) (cur : list string) : list string :=
  match join_docs cur with
  | Some doc => (ds ++ [doc])%list
  | None => ds
  end.

Definition push (st : MergeState) (d : string) : MergeState :=
  let cur := (current_doc st ++ [d])%list in
  {| docs := docs st;
     current_doc := cur;
     total := total st + len d + sep_if (1 <? List.length cur)%nat |}.

(** One turn of the loop, for the piece [d]. *)
Definition merge_step (st : MergeState) (d : string) : PyError + MergeState :=
  let _len := len d in
  if (chunk_size ts <? total st + _len + sep_if (0 <? List.length (current_doc st))%nat)%Z
  then
    match current_doc st with
    | [] => inr (push st d)
    | _ :: _ =>
        match pop_front (current_doc st) (total st) _len with
        | Some (cur, tot) =>
            inr (push {| docs := emit (docs st) (current_doc st);
                         current_doc := cur; total := tot |} d)
        | None => inl IndexError
        end
    end
  else inr (push st d).

Fixpoint merge_loop (splits : list string) (st : MergeState) : PyError + MergeState :=
  match splits with
  | [] => inr st
  | d :: rest =>
      match merge_step st d with
      | inr st' => merge_loop rest st'
      | inl e => inl e
      end
  end.

(** The length the loop keeps in [total]: the pieces of [current_doc]
    and the separators between them. *)
Fixpoint weight (cur : list string) : Z :=
  match cur with
  | [] => 0
  | d :: rest => len d + sep_if (0 <? List.length rest)%nat + weight rest
  end.

Definition balanced (st : MergeState) : Prop := total st = weight (current_doc st).

(** [_merge_splits] *)
Definition merge_splits (splits : list string) : PyError + list string :=
  match merge_loop splits {| docs := []; current_doc := []; total := 0 |} with
  | inr st => inr (emit (docs st) (current_doc st))
  | inl e => inl e
  end.

(** [split_text] *)
Definition split_text (text : string) : PyError + list string :=
  merge_splits (split_pieces (separator ts) text).

(** [split_documents]: each document is split on its own and every
    chunk carries the metadata of the document it comes from. *)
Fixpoint split_documents (documents : list Document) : PyError + list Document :=
  match documents with
  | [] => inr []
  | doc :: rest =>
      match split_text (page_content doc) with
      | inl e => inl e
      | inr chunks =>
          match split_documents rest with
          | inl e => inl e
          | inr more =>
              inr (map (fun c => {| page_content := c; metadata := metadata doc |}) chunks
                   ++ more)%list
          end
      end
  end.
End Merge.

End Splitter.

(* ================================================================== *)
(** ** The world outside the program, effects and the monad *)
(* ================================================================== *)

Import PyStr.
Import Json.
Import Template.

(** What [requests] hands back: the status code and the body. *)
Record HttpResponse : Type := {
  status_code : Z;
  text : string
}.

(** The effects of a run, in the order they happen. *)
Inductive Event : Type :=
| HttpRequest (method url : string) (headers : list (string * option string))
              (data : string)
| ChatCompletion (model_name : string) (temperature : pyobj) (prompt : string)
| UrlLoad (urls : pyobj)
| Print (line : string)
| StStatus (label : string)
| StWrite (message : string)
| Sleep (seconds : Z)
| StatusUpdate (label : string).

(** Everything the program does not decide.  The answers of the outside
    services may depend on all that happened before (the trace), so the
    same prompt can be answered differently at different times; [None] is
    a call that raises. *)
Record World : Type := {
  (** [os.environ] once [load_dotenv] has run *)
  environ : string -> option string;
  (** what the user typed in [st.text_input] *)
  text_input : string;
  (** [utils.helper.progress_bar_map.get] *)
  progress_bar_map : string -> option (list string);
  (** [repr] of the float a literal denotes *)
  float_repr : string -> string;
  (** [repr] of a langchain [Document] *)
  repr_Document : Document -> string;
  (** the search provider, behind [requests.request] *)
  http : list Event -> string -> string -> list (string * option string) -> string
         -> option HttpResponse;
  (** the model provider, behind [LLMChain.predict] *)
  chat : list Event -> string -> pyobj -> string -> option string;
  (** [UnstructuredURLLoader(urls=...).load()] *)
  load_urls : list Event -> pyobj -> option (list Document)
}.

(** A computation reads the trace so far and returns a value or an
    exception, with the trace it leaves. *)
Definition M (A : Type) : Type := list Event -> (PyError + A) * list Event.

Definition ret {A : Type} (a : A) : M A := fun tr => (inr a, tr).

Definition raise {A : Type} (e : PyError) : M A := fun tr => (inl e, tr).

Definition bind {A B : Type} (m : M A) (k : A -> M B) : M B :=
  fun tr =>
    match m tr with
    | (inr a, tr') => k a tr'
    | (inl e, tr') => (inl e, tr')
    end.

Definition lift {A : Type} (r : PyError + A) : M A := fun tr => (r, tr).

Definition emit (e : Event) : M unit := fun tr => (inr tt, (tr ++ [e])%list).

Declare Scope py_scope.
Delimit Scope py_scope with py.
Notation "x <- m ;; k" := (bind m (fun x => k))
  (at level 61, m at next level, right associativity) : py_scope.
Notation "m ;; k" := (bind m (fun _ => k))
  (at level 61, right associativity) : py_scope.
Local Open Scope py_scope.

Definition print (line : string) : M unit := emit (Print line).

(** The values shown in the five panels at the end of a run. *)
Record Panels : Type := {
  shown_search_results : pyobj;
  shown_urls : pyobj;
  shown_data : list Document;
  shown_summaries : list string;
  post : string
}.

(** A text from its lines. *)
Definition unlines (l : list string) : string := join (str1 LF) l.

(** [enumerate(l)] *)
Fixpoint enumerate_from {A : Type} (i : Z) (l : list A) : list (Z * A) :=
  match l with
  | [] => []
  | x :: r => (i, x) :: enumerate_from (i + 1)%Z r
  end.

Definition enumerate {A : Type} (l : list A) : list (Z * A) := enumerate_from 0%Z l.

(* ================================================================== *)
(** ** The program *)
(* ================================================================== *)

Section Program.
Variable w : World.

(** Module level: the two keys are read from the environment. *)
Definition SERPAPI_API_KEY : option string := environ w "SERPAPI_API_KEY".
Definition OPENAI_API_KEY : option string := environ w "OPENAI_API_KEY".

(** *** Library calls with effects *)

(** [requests.request(method, url, headers=headers, data=data)] *)
Definition requests_request (method url : string)
           (headers : list (string * option string)) (data : string)
  : M HttpResponse :=
  fun tr =>
    let tr' := (tr ++ [HttpRequest method url headers data])%list in
    match http w tr method url headers data with
    | Some response => (inr response, tr')
    | None => (inl RequestException, tr')
    end.

(** [response.json()]: the body, whatever the status code. *)
Definition response_json (response : HttpResponse) : M pyobj :=
  match loads (text response) with
  | Some v => ret v
  | None => raise JSONDecodeError
  end.

(** [json.loads(s)] *)
Definition json_loads (s : string) : M pyobj :=
  match loads s with
  | Some v => ret v
  | None => raise JSONDecodeError
  end.

(** [json.dumps(v)] *)
Definition json_dumps (v : pyobj) : string := dumps (float_repr w) v.

(** [ChatOpenAI(model_name=..., temperature=...)]: the client looks for
    its key in the environment when it is built. *)
Record ChatOpenAI : Type := {
  llm_model_name : string;
  llm_temperature : pyobj
}.

Definition new_ChatOpenAI (model_name : string) (temperature : pyobj) : M ChatOpenAI :=
  match environ w "OPENAI_API_KEY" with
  | Some (String _ _) =>
      ret {| llm_model_name := model_name; llm_temperature := temperature |}
  | _ => raise ValidationError
  end.

(** [LLMChain(llm=..., prompt=...)] *)
Record LLMChain : Type := {
  chain_llm : ChatOpenAI;
  chain_prompt : PromptTemplate
}.

(** [chain.predict] with keyword arguments: the prompt is formatted and sent, the
    text of the answer is returned. *)
Definition predict (chain : LLMChain) (kwargs : list (string * string)) : M string :=
  p <- lift (format_prompt (chain_prompt chain) kwargs) ;;
  fun tr =>
    let model := llm_model_name (chain_llm chain) in
    let temp := llm_temperature (chain_llm chain) in
    let tr' := (tr ++ [ChatCompletion model temp p])%list in
    match chat w tr model temp p with
    | Some answer => (inr answer, tr')
    | None => (inl OpenAIError, tr')
    end.

(** *** [search_for_articles] *)
Definition search_for_articles (query : string) : M pyobj :=
  let url := "https://google.serper.dev/search" in
  let payload := json_dumps (PyDict [("q", PyStr query)]) in
  let headers := [("X-API-KEY", SERPAPI_API_KEY);
                  ("Content-Type", Some "application/json")] in
  response <- requests_request "POST" url headers payload ;;
  response_data <- response_json response ;;
  ret response_data.

(** *** [find_the_best_article_urls] *)
Definition article_prompt_template : string := unlines [
  "";
  "    You're a world class researcher, and are very good at finding the most relevant articles for certain topics;";
  "    {response_str}";
  "    Above is a list of search results for the query {query}.";
  "    Please choose the best article from the list, return ONLY an array of the url, do not include anything else;";
  "    " ].

Definition find_the_best_article_urls (response_data : pyobj) (query : string)
  : M pyobj :=
  let response_str := json_dumps response_data in
  let prompt_template := article_prompt_template in
  llm <- new_ChatOpenAI "gpt-3.5-turbo" (PyInt 1) ;;
  let prompt := {| template := prompt_template;
                   input_variables := ["response_str"; "query"] |} in
  let article_finder := {| chain_llm := llm; chain_prompt := prompt |} in
  generated_urls <- predict article_finder
                      [("response_str", response_str); ("query", query)] ;;
  url_list <- json_loads generated_urls ;;
  print (Json.str (float_repr w) url_list) ;;
  ret url_list.

(** *** [get_content_from_urls] *)
Definition get_content_from_urls (urls : pyobj) : M (list Document) :=
  fun tr =>
    let tr' := (tr ++ [UrlLoad urls])%list in
    match load_urls w tr urls with
    | Some data => (inr data, tr')
    | None => (inl LoaderError, tr')
    end.

(** *** [summarise_content] *)
Definition text_splitter : Splitter.CharacterTextSplitter :=
  {| Splitter.separator := str1 LF;
     Splitter.chunk_size := 3000;
     Splitter.chunk_overlap := 200 |}.

Definition summary_prompt_template : string := unlines [
  "";
  "    {text}";
  "    You're a world class researcher, and you'll try to summarise the text above in order to create a reddit post {query}";
  "    Please follow all of the following rules when summarising:";
  "    1/ Make sure the content is engaging information with good data";
  "    2/ Make sure the content is not too long, it should be no more than 40,000 characters";
  "    3/ The content should address the {query} topic very well";
  "    4/ The content needs to be viral, and get at least 1000 likes";
  "    5/ The content needs to written in a way that is easy to read and understand";
  "    6/ The content needs to give the reader some actionable advice and insights";
  "    ";
  "    SUMMARY:";
  "    " ].

(** [str((i, doc))]: what [print] shows and [format] inserts for a pair
    made by [enumerate]. *)
Definition str_pair (chunk : Z * Document) : string :=
  "(" ++ str_int (fst chunk) ++ ", " ++ repr_Document w (snd chunk) ++ ")".

(** The loop [for chunk in enumerate(text)]: the loop variable is the
    pair made by [enumerate] and is passed as [text]. *)
Fixpoint summarise_loop (llm_summariser : LLMChain) (query : string)
         (pairs : list (Z * Document)) (summaries : list string)
  : M (list string) :=
  match pairs with
  | [] => ret summaries
  | chunk :: rest =>
      print (str_pair chunk) ;;
      summary <- predict llm_summariser
                   [("text", str_pair chunk); ("query", query)] ;;
      summarise_loop llm_summariser query rest (summaries ++ [summary])%list
  end.

Definition summarise_content (data : list Document) (query : string)
  : M (list string) :=
  text <- lift (Splitter.split_documents text_splitter data) ;;
  llm <- new_ChatOpenAI "gpt-3.5-turbo" (PyFloat "0.7") ;;
  let prompt := {| template := summary_prompt_template;
                   input_variables := ["text"; "query"] |} in
  let llm_summariser := {| chain_llm := llm; chain_prompt := prompt |} in
  summaries <- summarise_loop llm_summariser query (enumerate text) [] ;;
  print (str_list summaries) ;;
  ret summaries.

(** *** [generate_reddit_post] *)
Definition post_prompt_template : string := unlines [
  "";
  "    {summaries_str}";
  "    You are a world class researcher and reddit user with a large amount of karma, The text above is some content about";
  "    {query}. Please write a reddit post about {query} using the text above, and following all the rules below:";
  "    1/ The post needs to be engaging, informative with good data";
  "    2/ Make sure the post is not too long, it should be no more than 40,000 characters";
  "    3/ The post should address the {query} topic very well";
  "    4/ The post needs to be viral, and get at least 1000 likes";
  "    5/ The post needs to written in a way that is easy to read and understand";
  "    6/ The post needs to give the reader some actionable advice and insights";
  "    ";
  "    REDDIT POST:";
  "    " ].

Definition generate_reddit_post (summaries : list string) (query : string)
  : M string :=
  let summaries_str := str_list summaries in
  llm <- new_ChatOpenAI "gpt-3.5-turbo" (PyFloat "0.7") ;;
  let prompt := {| template := post_prompt_template;
                   input_variables := ["summaries_str"; "query"] |} in
  let reddit_post_chain := {| chain_llm := llm; chain_prompt := prompt |} in
  reddit_post <- predict reddit_post_chain
                   [("summaries_str", summaries_str); ("query", query)] ;;
  ret reddit_post.

(** *** [progress_bar] *)

(** [user_feedback[i]]: [None] is not subscriptable. *)
Definition feedback_item (user_feedback : option (list string)) (i : nat) : M string :=
  match user_feedback with
  | None => raise TypeError
  | Some l =>
      match nth_error l i with
      | Some x => ret x
      | None => raise IndexError
      end
  end.

Definition progress_bar (user_feedback : option (list string)) (amount_of_time : Z)
  : M unit :=
  emit (StStatus "AI models hard at work") ;;
  m1 <- feedback_item user_feedback 1 ;;
  emit (StWrite m1) ;;
  emit (Sleep amount_of_time) ;;
  m2 <- feedback_item user_feedback 2 ;;
  emit (StWrite m2) ;;
  emit (Sleep 1) ;;
  m0 <- feedback_item user_feedback 0 ;;
  emit (StatusUpdate ("Download " ++ m0 ++ " of 5 complete!")).

(** *** [main]

    The trace starts where the query has been read: the page set-up
    before it (title, style sheet, side bar, header) shows fixed content
    and is left out.  The five panels of the end are the value returned.
    With an empty query none of the five stages runs. *)
Definition main : M (option Panels) :=
  let query := text_input w in
  match query with
  | "" => ret None
  | _ =>
      search_results <- search_for_articles query ;;
      progress_bar (progress_bar_map w "search_for_articles") 20 ;;
      urls <- find_the_best_article_urls search_results query ;;
      progress_bar (progress_bar_map w "find_the_best_article_urls") 20 ;;
      data <- get_content_from_urls urls ;;
      progress_bar (progress_bar_map w "get_content_from_urls") 20 ;;
      summaries <- summarise_content data query ;;
      progress_bar (progress_bar_map w "summarise_content") 20 ;;
      post <- generate_reddit_post summaries query ;;
      progress_bar (progress_bar_map w "generate_reddit_post") 20 ;;
      ret (Some {| shown_search_results := search_results;
                   shown_urls := urls;
                   shown_data := data;
                   shown_summaries := summaries;
                   post := post |})
  end.
End Program.

(* ================================================================== *)
(** ** Reading a trace *)
(* ================================================================== *)

Definition is_http (e : Event) : bool :=
  match e with HttpRequest _ _ _ _ => true | _ => false end.

Definition is_chat (e : Event) : bool :=
  match e with ChatCompletion _ _ _ => true | _ => false end.

Definition is_load (e : Event) : bool :=
  match e with UrlLoad _ => true | _ => false end.

(** A call that leaves the process. *)
Definition outbound (e : Event) : bool := is_http e || is_chat e || is_load e.

(** The prompts sent to the model, in order. *)
Definition chat_prompts (tr : list Event) : list string :=
  flat_map (fun e => match e with ChatCompletion _ _ p => [p] | _ => [] end) tr.

(** The request [search_for_articles] sends for a query: the end point,
    the headers with the key read at start-up, and the body
    [{"q": <query>}] as [json.dumps] writes it. *)
Definition search_url : string := "https://google.serper.dev/search".

Definition search_headers (w : World) : list (string * option string) :=
  [("X-API-KEY", environ w "SERPAPI_API_KEY");
   ("Content-Type", Some "application/json")].

Definition search_payload (query : string) : string :=
  "{" ++ encode_str "q" ++ ": " ++ encode_str query ++ "}".

Definition search_request (w : World) (query : string) : Event :=
  HttpRequest "POST" search_url (search_headers w) (search_payload query).

(** The model key is there when the variable is set and not empty. *)
Definition has_model_key (w : World) : bool :=
  match environ w "OPENAI_API_KEY" with
  | Some (String _ _) => true
  | _ => false
  end.

(** The chain [summarise_content] builds. *)
Definition summariser : LLMChain :=
  {| chain_llm := {| llm_model_name := "gpt-3.5-turbo"; llm_temperature := PyFloat "0.7" |};
     chain_prompt := {| template := summary_prompt_template;
                        input_variables := ["text"; "query"] |} |}.

(** *** The three prompts, written out *)

Definition article_prompt (response_str query : string) : string :=
  unlines [
    "";
    "    You're a world class researcher, and are very good at finding the most relevant articles for certain topics;";
    "    " ]
  ++ response_str
  ++ unlines [ ""; "    Above is a list of search results for the query " ]
  ++ query
  ++ unlines [
    ".";
    "    Please choose the best article from the list, return ONLY an array of the url, do not include anything else;";
    "    " ].

Definition summary_prompt (text query : string) : string :=
  unlines [ ""; "    " ]
  ++ text
  ++ unlines [
    "";
    "    You're a world class researcher, and you'll try to summarise the text above in order to create a reddit post " ]
  ++ query
  ++ unlines [
    "";
    "    Please follow all of the following rules when summarising:";
    "    1/ Make sure the content is engaging information with good data";
    "    2/ Make sure the content is not too long, it should be no more than 40,000 characters";
    "    3/ The content should address the " ]
  ++ query
  ++ unlines [
    " topic very well";
    "    4/ The content needs to be viral, and get at least 1000 likes";
    "    5/ The content needs to written in a way that is easy to read and understand";
    "    6/ The content needs to give the reader some actionable advice and insights";
    "    ";
    "    SUMMARY:";
    "    " ].

Definition post_prompt (summaries_str query : string) : string :=
  unlines [ ""; "    " ]
  ++ summaries_str
  ++ unlines [
    "";
    "    You are a world class researcher and reddit user with a large amount of karma, The text above is some content about";
    "    " ]
  ++ query
  ++ ". Please write a reddit post about "
  ++ query
  ++ unlines [
    " using the text above, and following all the rules below:";
    "    1/ The post needs to be engaging, informative with good data";
    "    2/ Make sure the post is not too long, it should be no more than 40,000 characters";
    "    3/ The post should address the " ]
  ++ query
  ++ unlines [
    " topic very well";
    "    4/ The post needs to be viral, and get at least 1000 likes";
    "    5/ The post needs to written in a way that is easy to read and understand";
    "    6/ The post needs to give the reader some actionable advice and insights";
    "    ";
    "    REDDIT POST:";
    "    " ].

(** The summary kept for a pair is the answer the model gave, in the run
    that left the trace [tr], to the prompt made from that pair. *)
Definition answered (w : World) (tr : list Event) (query : string)
           (pair : Z * Document) (reply : string) : Prop :=
  exists before after,
    tr = (before
          ++ ChatCompletion "gpt-3.5-turbo" (PyFloat "0.7")
               (summary_prompt (str_pair w pair) query) :: after)%list
    /\ chat w before "gpt-3.5-turbo" (PyFloat "0.7")
             (summary_prompt (str_pair w pair) query) = Some reply.


(* ================================================================== *)
(** ** The pipeline as the specification's state machine *)
(* ================================================================== *)

(** The specification describes a run as a linear machine,
    Search, Select, Fetch, Summarize, Generate, Done, where a stage is
    entered only when the one before succeeded and any failure leads to a
    terminal Failed state.  [Pipeline.step] is that machine; its stages do
    what [main] does between two progress bars, and [main] is compared
    with it below. *)
Module Pipeline.

Inductive Stage : Type := Search | Select | Fetch | Summarize | Generate.

Inductive State : Type :=
| Running (s : Stage)
| Done
| Failed (e : PyError).

Definition next (s : Stage) : State :=
  match s with
  | Search => Running Select
  | Select => Running Fetch
  | Fetch => Running Summarize
  | Summarize => Running Generate
  | Generate => Done
  end.

(** Nothing has been produced yet. *)
Definition blank : Panels :=
  {| shown_search_results := PyNone; shown_urls := PyNone; shown_data := [];
     shown_summaries := []; post := "" |}.

Local Open Scope py_scope.

(** What a stage does with the values produced so far. *)
Definition action (w : World) (s : Stage) (p : Panels) : M Panels :=
  let query := text_input w in
  match s with
  | Search =>
      v <- search_for_articles w query ;;
      progress_bar (progress_bar_map w "search_for_articles") 20 ;;
      ret {| shown_search_results := v; shown_urls := shown_urls p;
             shown_data := shown_data p; shown_summaries := shown_summaries p;
             post := post p |}
  | Select =>
      v <- find_the_best_article_urls w (shown_search_results p) query ;;
      progress_bar (progress_bar_map w "find_the_best_article_urls") 20 ;;
      ret {| shown_search_results := shown_search_results p; shown_urls := v;
             shown_data := shown_data p; shown_summaries := shown_summaries p;
             post := post p |}
  | Fetch =>
      v <- get_content_from_urls w (shown_urls p) ;;
      progress_bar (progress_bar_map w "get_content_from_urls") 20 ;;
      ret {| shown_search_results := shown_search_results p;
             shown_urls := shown_urls p; shown_data := v;
             shown_summaries := shown_summaries p; post := post p |}
  | Summarize =>
      v <- summarise_content w (shown_data p) query ;;
      progress_bar (progress_bar_map w "summarise_content") 20 ;;
      ret {| shown_search_results := shown_search_results p;
             shown_urls := shown_urls p; shown_data := shown_data p;
             shown_summaries := v; post := post p |}
  | Generate =>
      v <- generate_reddit_post w (shown_summaries p) query ;;
      progress_bar (progress_bar_map w "generate_reddit_post") 20 ;;
      ret {| shown_search_results := shown_search_results p;
             shown_urls := shown_urls p; shown_data := shown_data p;
             shown_summaries := shown_summaries p; post := v |}
  end.

(** A configuration: the state, the values so far and the trace. *)
Definition Config : Type := State * Panels * list Event.

(** A running stage either succeeds, and the next one is entered, or
    fails, and the run is over.  [Done] and [Failed] have no successor. *)
Inductive step (w : World) : Config -> Config -> Prop :=
| step_ok : forall s p tr p' tr',
    action w s p tr = (inr p', tr') ->
    step w (Running s, p, tr) (next s, p', tr')
| step_fail : forall s p tr e tr',
    action w s p tr = (inl e, tr') ->
    step w (Running s, p, tr) (Failed e, p, tr').

Inductive steps (w : World) : Config -> Config -> Prop :=
| steps_refl : forall c, steps w c c
| steps_step : forall c1 c2 c3, step w c1 c2 -> steps w c2 c3 -> steps w c1 c3.

Definition terminal (c : Config) : Prop :=
  match c with
  | (Running _, _, _) => False
  | _ => True
  end.

(** What a terminal configuration means for the caller of [main]. *)
Definition outcome (c : Config) : (PyError + option Panels) * list Event :=
  match c with
  | (Failed e, _, tr) => (inl e, tr)
  | (_, p, tr) => (inr (Some p), tr)
  end.

(** The stages from [s] on. *)
Definition stages_from (s : Stage) : list Stage :=
  match s with
  | Search => [Search; Select; Fetch; Summarize; Generate]
  | Select => [Select; Fetch; Summarize; Generate]
  | Fetch => [Fetch; Summarize; Generate]
  | Summarize => [Summarize; Generate]
  | Generate => [Generate]
  end.

(** The stages run one after the other, each on the values of the one
    before. *)
Fixpoint run (w : World) (stages : list Stage) (p : Panels) : M Panels :=
  match stages with
  | [] => ret p
  | s :: rest => p' <- action w s p ;; run w rest p'
  end.

(** What the caller of [main] sees of such a run. *)
Definition shown (r : (PyError + Panels) * list Event)
  : (PyError + option Panels) * list Event :=
  match r with
  | (inr p, tr) => (inr (Some p), tr)
  | (inl e, tr) => (inl e, tr)
  end.

(** From stage [s] the machine reaches a terminal configuration, the one
    the stages run in order give. *)
Definition reaches (w : World) (s : Stage) : Prop :=
  forall p tr, exists c,
    steps w (Running s, p, tr) c /\ terminal c
    /\ outcome c = shown (run w (stages_from s) p tr).

End Pipeline.

(** A computation only adds to the trace. *)
Definition extends {A : Type} (m : M A) : Prop :=
  forall tr, exists suffix, snd (m tr) = (tr ++ suffix)%list.

(** A computation adds to the trace, and only events that satisfy [P]. *)
Definition adds {A : Type} (P : Event -> Prop) (m : M A) : Prop :=
  forall tr, exists suffix, snd (m tr) = (tr ++ suffix)%list /\ Forall P suffix.

(** A computation raises no exception outside the list [errors]. *)
Definition raises {A : Type} (errors : list PyError) (m : M A) : Prop :=
  forall tr e tr', m tr = (inl e, tr') -> In e errors.

(** The calls that leave the process, in order. *)
Definition outbound_calls (tr : list Event) : list Event := filter outbound tr.

(** The call [search_for_articles] hands the selector's prompt to. *)
Definition article_call (w : World) (response_data : pyobj) (query : string) : Event :=
  ChatCompletion "gpt-3.5-turbo" (PyInt 1)
    (article_prompt (json_dumps w response_data) query).

(** The call [summarise_content] makes for a pair of [enumerate]. *)
Definition summary_call (w : World) (query : string) (pair : Z * Document) : Event :=
  ChatCompletion "gpt-3.5-turbo" (PyFloat "0.7")
    (summary_prompt (str_pair w pair) query).

(** The call [generate_reddit_post] makes. *)
Definition post_call (summaries : list string) (query : string) : Event :=
  ChatCompletion "gpt-3.5-turbo" (PyFloat "0.7")
    (post_prompt (str_list summaries) query).

(** What a stage may add to the trace: events that stay in the process
    (printing, the progress bar) and the calls of its own kind. *)
Definition stage_event (w : World) (s : Pipeline.Stage) (e : Event) : Prop :=
  outbound e = false
  \/ match s with
     | Pipeline.Search => e = search_request w (text_input w)
     | Pipeline.Select => exists p, e = ChatCompletion "gpt-3.5-turbo" (PyInt 1) p
     | Pipeline.Fetch => exists urls, e = UrlLoad urls
     | Pipeline.Summarize | Pipeline.Generate =>
         exists p, e = ChatCompletion "gpt-3.5-turbo" (PyFloat "0.7") p
     end.

(** What a run may add to the trace: the search request and calls to the
    one model, with temperature 1 or 0.7. *)
Definition run_event (w : World) (e : Event) : Prop :=
  match e with
  | HttpRequest _ _ _ _ => e = search_request w (text_input w)
  | ChatCompletion model temperature _ =>
      model = "gpt-3.5-turbo" /\ (temperature = PyInt 1 \/ temperature = PyFloat "0.7")
  | _ => True
  end.

(** The keys [main] looks up in [progress_bar_map]. *)
Definition progress_keys : list string :=
  ["search_for_articles"; "find_the_best_article_urls"; "get_content_from_urls";
   "summarise_content"; "generate_reddit_post"].

(** The text holds ASCII characters only. *)
Fixpoint is_ascii (s : string) : bool :=
  match s with
  | "" => true
  | String c r => (code c <? 128)%N && is_ascii r
  end.

(** What the loop of [_merge_splits] keeps: [total] is the weight of
    [current_doc], which fits in a chunk and holds no empty piece, and the
    chunks made so far fit. *)
Definition fits (ts : Splitter.CharacterTextSplitter) (st : Splitter.MergeState) : Prop :=
  Splitter.balanced ts st
  /\ (Splitter.weight ts (Splitter.current_doc st) <= Splitter.chunk_size ts)%Z
  /\ Forall (fun d => (0 < len d)%Z) (Splitter.current_doc st)
  /\ Forall (fun c => (len c <= Splitter.chunk_size ts)%Z) (Splitter.docs st).

(** Some model call among the events [suffix], performed after [tr], got
    no answer from the world. *)
Fixpoint unanswered (w : World) (tr suffix : list Event) : bool :=
  match suffix with
  | [] => false
  | e :: rest =>
      match e with
      | ChatCompletion model temperature prompt =>
          match chat w tr model temperature prompt with
          | None => true
          | Some _ => false
          end
      | _ => false
      end
      || unanswered w (tr ++ [e]) rest
  end.

(** [c] is a chunk made from the pieces [all]: it is not empty and is the
    stripped join of a run of consecutive pieces. *)
Definition run_of (ts : Splitter.CharacterTextSplitter) (all : list string) (c : string)
  : Prop :=
  c <> ""
  /\ exists before run after,
       all = (before ++ run ++ after)%list
       /\ c = strip (join (Splitter.separator ts) run).

(* ================================================================== *)
(** ** The chunk count the specification gives *)
(* ================================================================== *)

(** ceil((L - overlap) / (size - overlap)), the count the specification
    states for a text of length [L] without separator. *)
Definition claimed_chunk_count (L size overlap : Z) : Z :=
  ((L - overlap + (size - overlap) - 1) / (size - overlap))%Z.

(* ================================================================== *)
(** ** Worlds to run the program in *)
(* ================================================================== *)

Module Examples.

(** [repr] of a pydantic model: the class name and its fields. *)
Definition pydantic_repr (d : Document) : string :=
  "Document(page_content=" ++ repr_str (page_content d)
  ++ ", metadata=" ++ Json.repr (fun lit => lit) (metadata d) ++ ")".

Definition both_keys (k : string) : option string := Some "secret".
Definition no_keys (k : string) : option string := None.

(** A world that answers every call: the search provider with [response],
    the model with [selected] to the article selector (temperature 1) and
    with [written] to the other calls, the loader with [documents]. *)
Definition world (env : string -> option string) (query : string)
           (response : HttpResponse) (selected written : string)
           (documents : list Document) : World :=
  {| environ := env;
     text_input := query;
     progress_bar_map := fun _ => Some ["1"; "Working on it"; "Finished"];
     float_repr := fun lit => lit;
     repr_Document := pydantic_repr;
     http := fun _ _ _ _ _ => Some response;
     chat := fun _ _ temperature _ =>
               match temperature with
               | PyInt _ => Some selected
               | _ => Some written
               end;
     load_urls := fun _ _ => Some documents |}.

Definition ok_response : HttpResponse :=
  {| status_code := 200; text := "{}" |}.

(** The body of a refused request: [{"message": "Unauthorized."}] *)
Definition unauthorized_response : HttpResponse :=
  {| status_code := 401;
     text := "{" ++ encode_str "message" ++ ": " ++ encode_str "Unauthorized." ++ "}" |}.

Definition one_url : string := "[" ++ encode_str "https://example.org/ev" ++ "]".

Definition doc (s : string) : Document :=
  {| page_content := s; metadata := PyDict [] |}.

(** A text of [n] times the letter [a]: no line feed in it. *)
Definition letters (n : nat) : string := string_of_list_ascii (repeat "a"%char n).

Definition long_document : Document := doc (letters (Z.to_nat 5000)).

(** Everything succeeds and the model writes a post. *)
Definition w_fine : World :=
  world both_keys "electric vehicles" ok_response one_url "Buy one." [doc "a"].

(** The selector's model answers with an empty array. *)
Definition w_empty_array : World :=
  world both_keys "electric vehicles" ok_response "[]" "Buy one." [doc "a"].

(** The selector's model answers in prose. *)
Definition w_prose : World :=
  world both_keys "electric vehicles" ok_response "Here is the best article."
        "Buy one." [doc "a"].


(** No key in the environment. *)
Definition w_no_keys : World :=
  world no_keys "electric vehicles" ok_response one_url "Buy one." [doc "a"].

(** The search provider refuses the request. *)
Definition w_unauthorized : World :=
  world both_keys "electric vehicles" unauthorized_response one_url "Buy one." [doc "a"].

(** [progress_bar_map] has no entry. *)
Definition w_no_messages : World :=
  {| environ := both_keys;
     text_input := "electric vehicles";
     progress_bar_map := fun _ => None;
     float_repr := fun lit => lit;
     repr_Document := pydantic_repr;
     http := fun _ _ _ _ _ => Some ok_response;
     chat := fun _ _ _ _ => Some one_url;
     load_urls := fun _ _ => Some [doc "a"] |}.

(** The loader raises. *)
Definition w_loader_fails : World :=
  {| environ := both_keys;
     text_input := "electric vehicles";
     progress_bar_map := fun _ => Some ["1"; "Working on it"; "Finished"];
     float_repr := fun lit => lit;
     repr_Document := pydantic_repr;
     http := fun _ _ _ _ _ => Some ok_response;
     chat := fun _ _ _ _ => Some one_url;
     load_urls := fun _ _ => None |}.

(** Two documents, and a model that stops answering after two calls. *)
Definition w_model_gives_up : World :=
  {| environ := both_keys;
     text_input := "electric vehicles";
     progress_bar_map := fun _ => Some ["1"; "Working on it"; "Finished"];
     float_repr := fun lit => lit;
     repr_Document := pydantic_repr;
     http := fun _ _ _ _ _ => Some ok_response;
     chat := fun tr _ _ _ =>
               if (List.length (chat_prompts tr) <? 2)%nat then Some one_url else None;
     load_urls := fun _ _ => Some [doc "a"; doc "b"] |}.

(** The article is blank. *)
Definition w_blank_article : World :=
  world both_keys "electric vehicles" ok_response one_url "Nothing to say." [doc "   "].

(** The model answers each call with the number of calls made before it. *)
Definition w_numbering : World :=
  {| environ := both_keys;
     text_input := "electric vehicles";
     progress_bar_map := fun _ => Some ["1"; "Working on it"; "Finished"];
     float_repr := fun lit => lit;
     repr_Document := pydantic_repr;
     http := fun _ _ _ _ _ => Some ok_response;
     chat := fun tr _ _ _ => Some (str_int (Z.of_nat (List.length (chat_prompts tr))));
     load_urls := fun _ _ => Some [doc "a"; doc "b"] |}.

(** The search provider answers with results: [{"organic": [1, 2]}] *)
Definition results_response : HttpResponse :=
  {| status_code := 200; text := "{" ++ encode_str "organic" ++ ": [1, 2]}" |}.

Definition w_results : World :=
  world both_keys "electric vehicles" results_response one_url "Buy one." [doc "a"].

(** The search provider answers with a JSON array. *)
Definition array_response : HttpResponse :=
  {| status_code := 200; text := "[1, 2]" |}.

Definition w_array_body : World :=
  world both_keys "electric vehicles" array_response one_url "Buy one." [doc "a"].

(** Three lines of 1500, 1400 and 1600 letters. *)
Definition three_lines : Document :=
  doc (letters 1500 ++ String LF (letters 1400 ++ String LF (letters 1600))).

End Examples.

(* ================================================================== *)
(** ** Facts about the library functions *)
(* ================================================================== *)

Module JsonFacts.

Lemma skip_ws_length : forall s, String.length (skip_ws s) <= String.length s.
Proof.
  induction s as [|c r IH]; simpl; [lia|].
  destruct (is_ws c); simpl; lia.
Qed.

Lemma scan_hex4_length : forall s u r,
  scan_hex4 s = Some (u, r) -> String.length s = 4 + String.length r.
Proof.
  intros s u r H. unfold scan_hex4 in H.
  destruct s as [|a [|b [|c [|d t]]]]; try discriminate.
  destruct (hexval a), (hexval b), (hexval c), (hexval d); try discriminate.
  inversion H; subst. reflexivity.
Qed.

Lemma scan_low_surrogate_length : forall u s u' r,
  scan_low_surrogate u s = Some (u', r) -> String.length r <= String.length s.
Proof.
  intros u s u' r H. unfold scan_low_surrogate in H.
  destruct s as [|b [|x t]];
    [injection H as _ <-; apply le_n | injection H as _ <-; apply le_n |].
  destruct (Ascii.eqb b backslash && Ascii.eqb x "u");
    [|injection H as _ <-; apply le_n].
  destruct (scan_hex4 t) as [[u2 r']|] eqn:E; [|discriminate].
  apply scan_hex4_length in E.
  destruct (is_low_surrogate u2); injection H as _ <-; cbn [String.length] in *; lia.
Qed.

Lemma scanstring_length : forall f s acc k r,
  scanstring f s acc = POk k r -> String.length r < String.length s.
Proof.
  induction f as [|f IH]; intros s acc k r H; simpl in H; [discriminate|].
  destruct s as [|c t]; [discriminate|].
  destruct (Ascii.eqb c dquote).
  { inversion H; subst; simpl; lia. }
  destruct (Ascii.eqb c backslash).
  { destruct t as [|e t']; [discriminate|].
    destruct (Ascii.eqb e "u").
    - destruct (scan_hex4 t') as [[u r'']|] eqn:E; [|discriminate].
      apply scan_hex4_length in E.
      destruct (is_high_surrogate u).
      + destruct (scan_low_surrogate u r'') as [[u' r3]|] eqn:E2; [|discriminate].
        apply scan_low_surrogate_length in E2.
        apply IH in H. simpl. lia.
      + apply IH in H. simpl. lia.
    - destruct (simple_escape e); [|discriminate].
      apply IH in H. simpl. lia. }
  destruct (code c <? 32)%N; [discriminate|].
  apply IH in H. simpl. lia.
Qed.

Lemma scanstring_total : forall f s acc,
  String.length s < f -> scanstring f s acc <> PFuel.
Proof.
  induction f as [|f IH]; intros s acc Hlen; [lia|]. simpl.
  destruct s as [|c t]; [discriminate|]. simpl in Hlen.
  destruct (Ascii.eqb c dquote); [discriminate|].
  destruct (Ascii.eqb c backslash).
  { destruct t as [|e t']; [discriminate|]. simpl in Hlen.
    destruct (Ascii.eqb e "u").
    - destruct (scan_hex4 t') as [[u r'']|] eqn:E; [|discriminate].
      apply scan_hex4_length in E.
      destruct (is_high_surrogate u).
      + destruct (scan_low_surrogate u r'') as [[u' r3]|] eqn:E2; [|discriminate].
        apply scan_low_surrogate_length in E2.
        apply IH. lia.
      + apply IH. lia.
    - destruct (simple_escape e); [|discriminate].
      apply IH. lia. }
  destruct (code c <? 32)%N; [discriminate|].
  apply IH. lia.
Qed.

Lemma span_digits_length : forall s ds r,
  span_digits s = (ds, r) -> String.length s = String.length ds + String.length r.
Proof.
  induction s as [|c t IH]; intros ds r H; simpl in H.
  - inversion H; subst. reflexivity.
  - destruct (is_digit c).
    + destruct (span_digits t) as [ds' r'] eqn:E. inversion H; subst.
      simpl. rewrite (IH ds' r eq_refl). reflexivity.
    + inversion H; subst. reflexivity.
Qed.

Lemma scan_int_part_length : forall s ip r,
  scan_int_part s = Some (ip, r) -> String.length r < String.length s.
Proof.
  intros s ip r H. unfold scan_int_part in H.
  destruct s as [|c t]; [discriminate|].
  destruct (Ascii.eqb c "0").
  - inversion H; subst. simpl. lia.
  - destruct (is_digit c) eqn:D; [|discriminate].
    inversion H as [H1]. simpl in H1. rewrite D in H1.
    destruct (span_digits t) as [ds r'] eqn:E. inversion H1; subst.
    apply span_digits_length in E. simpl. lia.
Qed.

Lemma scan_frac_length : forall s fp r,
  scan_frac s = (fp, r) -> String.length r <= String.length s.
Proof.
  intros s fp r H. unfold scan_frac in H.
  destruct s as [|c t]; [inversion H; subst; lia|].
  destruct (Ascii.eqb c ".").
  - destruct (span_digits t) as [ds r'] eqn:E.
    apply span_digits_length in E.
    destruct ds; inversion H; subst; simpl in *; lia.
  - inversion H; subst; lia.
Qed.

Lemma scan_exp_length : forall s ep r,
  scan_exp s = (ep, r) -> String.length r <= String.length s.
Proof.
  intros s ep r H. unfold scan_exp in H.
  destruct s as [|c t]; [inversion H; subst; lia|].
  destruct (Ascii.eqb c "e" || Ascii.eqb c "E").
  - destruct t as [|g r0].
    + simpl in H. inversion H; subst; simpl; lia.
    + destruct (Ascii.eqb g "+" || Ascii.eqb g "-").
      * destruct (span_digits r0) as [ds r'] eqn:E.
        apply span_digits_length in E.
        destruct ds; inversion H; subst; simpl in *; lia.
      * destruct (span_digits (String g r0)) as [ds r'] eqn:E.
        apply span_digits_length in E.
        destruct ds; inversion H; subst; simpl in *; lia.
  - inversion H; subst; lia.
Qed.

Lemma match_number_no_fuel : forall s, match_number s <> PFuel.
Proof.
  intros s. unfold match_number.
  destruct (match s with
            | String c r => if Ascii.eqb c "-" then (true, r) else (false, s)
            | "" => (false, s)
            end) as [neg s1].
  destruct (scan_int_part s1) as [[ip s2]|]; [|discriminate].
  destruct (scan_frac s2) as [fp s3]. destruct (scan_exp s3) as [ep s4].
  destruct fp; destruct ep; discriminate.
Qed.

Lemma match_number_length : forall s v r,
  match_number s = POk v r -> String.length r < String.length s.
Proof.
  intros s v r H. unfold match_number in H.
  destruct (match s with
            | String c r => if Ascii.eqb c "-" then (true, r) else (false, s)
            | "" => (false, s)
            end) as [neg s1] eqn:En.
  assert (Hs1 : String.length s1 <= String.length s).
  { destruct s as [|c t]; [inversion En; subst; lia|].
    destruct (Ascii.eqb c "-"); inversion En; subst; simpl; lia. }
  destruct (scan_int_part s1) as [[ip s2]|] eqn:Ei; [|discriminate].
  apply scan_int_part_length in Ei.
  destruct (scan_frac s2) as [fp s3] eqn:Ef. apply scan_frac_length in Ef.
  destruct (scan_exp s3) as [ep s4] eqn:Ee. apply scan_exp_length in Ee.
  destruct fp; destruct ep; inversion H; subst; lia.
Qed.

Lemma after_prefix_length : forall w s r,
  after_prefix w s = Some r -> String.length s = String.length w + String.length r.
Proof.
  induction w as [|c w' IH]; intros s r H; simpl in H.
  - inversion H; subst. reflexivity.
  - destruct s as [|d t]; [discriminate|].
    destruct (Ascii.eqb c d); [|discriminate].
    apply IH in H. simpl. lia.
Qed.

Lemma scan_constant_length : forall s v r,
  scan_constant s = Some (v, r) -> String.length r < String.length s.
Proof.
  intros s v r H. unfold scan_constant in H.
  repeat match type of H with
  | match after_prefix ?w s with _ => _ end = _ =>
      let E := fresh "E" in
      destruct (after_prefix w s) eqn:E;
      [apply after_prefix_length in E; inversion H; subst; simpl in E; lia|]
  end.
  discriminate.
Qed.

Local Arguments scanstring : simpl never.

Lemma scanners_within : forall f, within f.
Proof.
  induction f as [|f [IHo [IHa IHd]]].
  { repeat split; intros; try lia. }
  split; [|split].
  - (* scan_once *)
    intros s Hlen. simpl.
    destruct s as [|c t]; [split; [discriminate|intros; discriminate]|].
    simpl in Hlen.
    destruct (Ascii.eqb c dquote).
    { destruct (scanstring (S (String.length t)) t "") as [k r'| |] eqn:E.
      - apply scanstring_length in E.
        split; [discriminate|]. intros v r H; inversion H; subst. simpl. lia.
      - split; [discriminate|intros; discriminate].
      - exfalso. revert E. apply scanstring_total. lia. }
    destruct (Ascii.eqb c "{").
    { pose proof (skip_ws_length t) as Hw.
      destruct (skip_ws t) as [|c' r'] eqn:E; [split; [discriminate|intros; discriminate]|].
      simpl in Hw.
      destruct (Ascii.eqb c' "}").
      - split; [discriminate|]. intros v r H; inversion H; subst. simpl. lia.
      - destruct (IHd (String c' r') [] ltac:(simpl; lia)) as [H1 H2].
        split; [exact H1|]. intros v r H. apply H2 in H. simpl in *. lia. }
    destruct (Ascii.eqb c "[").
    { pose proof (skip_ws_length t) as Hw.
      destruct (skip_ws t) as [|c' r'] eqn:E; [split; [discriminate|intros; discriminate]|].
      simpl in Hw.
      destruct (Ascii.eqb c' "]").
      - split; [discriminate|]. intros v r H; inversion H; subst. simpl. lia.
      - destruct (IHa (String c' r') [] ltac:(simpl; lia)) as [H1 H2].
        split; [exact H1|]. intros v r H. apply H2 in H. simpl in *. lia. }
    destruct (scan_constant (String c t)) as [[v' r']|] eqn:E.
    { apply scan_constant_length in E.
      split; [discriminate|]. intros v r H; inversion H; subst. exact E. }
    split; [apply match_number_no_fuel|apply match_number_length].
  - (* parse_array *)
    intros s acc Hlen. simpl.
    destruct (IHo s ltac:(lia)) as [H1 H2].
    destruct (scan_once f s) as [v0 r0| |] eqn:E;
      [|split; [discriminate|intros; discriminate]|congruence].
    specialize (H2 _ _ eq_refl).
    pose proof (skip_ws_length r0) as Hw.
    destruct (skip_ws r0) as [|c r'] eqn:Ew; [split; [discriminate|intros; discriminate]|].
    simpl in Hw.
    destruct (Ascii.eqb c "]").
    { split; [discriminate|]. intros v r H; inversion H; subst. lia. }
    destruct (Ascii.eqb c ","); [|split; [discriminate|intros; discriminate]].
    pose proof (skip_ws_length r') as Hw'.
    destruct (IHa (skip_ws r') (acc ++ [v0])%list ltac:(lia)) as [H3 H4].
    split; [exact H3|]. intros v r H. apply H4 in H. lia.
  - (* parse_object *)
    intros s acc Hlen. simpl.
    destruct s as [|q t]; [split; [discriminate|intros; discriminate]|].
    simpl in Hlen.
    destruct (Ascii.eqb q dquote); [|split; [discriminate|intros; discriminate]].
    destruct (scanstring (S (String.length t)) t "") as [k r1| |] eqn:E;
      [|split; [discriminate|intros; discriminate]
       |exfalso; revert E; apply scanstring_total; lia].
    apply scanstring_length in E.
    pose proof (skip_ws_length r1) as Hw1.
    destruct (skip_ws r1) as [|c r2] eqn:Ew1; [split; [discriminate|intros; discriminate]|].
    simpl in Hw1.
    destruct (Ascii.eqb c ":"); [|split; [discriminate|intros; discriminate]].
    pose proof (skip_ws_length r2) as Hw2.
    destruct (IHo (skip_ws r2) ltac:(lia)) as [H1 H2].
    destruct (scan_once f (skip_ws r2)) as [v0 r3| |] eqn:Eo;
      [|split; [discriminate|intros; discriminate]|congruence].
    specialize (H2 _ _ eq_refl).
    pose proof (skip_ws_length r3) as Hw3.
    destruct (skip_ws r3) as [|c' r4] eqn:Ew3; [split; [discriminate|intros; discriminate]|].
    simpl in Hw3.
    destruct (Ascii.eqb c' "}").
    { split; [discriminate|]. intros v r H; inversion H; subst. simpl. lia. }
    destruct (Ascii.eqb c' ","); [|split; [discriminate|intros; discriminate]].
    pose proof (skip_ws_length r4) as Hw4.
    destruct (IHd (skip_ws r4) (dict_set acc k v0) ltac:(lia)) as [H3 H4].
    split; [exact H3|]. intros v r H. apply H4 in H. simpl. lia.
Qed.

(** [loads] never stops for lack of budget: [None] is a syntax error. *)
Lemma loads_total : forall s, decode (S (2 * String.length s)) s <> PFuel.
Proof.
  intros s. unfold decode.
  pose proof (skip_ws_length s) as Hw.
  destruct (scanners_within (S (2 * String.length s))) as [Ho _].
  destruct (Ho (skip_ws s) ltac:(lia)) as [H1 _].
  destruct (scan_once _ (skip_ws s)) as [v r| |]; [|discriminate|congruence].
  destruct (skip_ws r); discriminate.
Qed.

Lemma loads_none_syntax : forall s,
  loads s = None -> decode (S (2 * String.length s)) s = PSyntax.
Proof.
  intros s H. unfold loads in H. pose proof (loads_total s) as T.
  destruct (decode _ s); congruence.
Qed.

End JsonFacts.

Module SplitterFacts.
Import Splitter.

Lemma append_empty_r : forall s : string, s ++ "" = s.
Proof. induction s as [|c r IH]; simpl; [reflexivity | now rewrite IH]. Qed.

Lemma append_assoc : forall a b c : string, (a ++ b) ++ c = a ++ (b ++ c).
Proof. induction a as [|x r IH]; intros; simpl; [reflexivity | now rewrite IH]. Qed.

(** A text without separator is one piece. *)
Lemma split_from_whole : forall sep s cur,
  occurs sep s = false -> split_from sep s 0 cur = [cur ++ s].
Proof.
  intros sep s. induction s as [|c r IH]; intros cur H.
  - simpl. now rewrite append_empty_r.
  - cbn [occurs] in H. apply orb_false_elim in H as [Hp Hr].
    cbn [split_from]. rewrite Hp. rewrite (IH _ Hr).
    now rewrite append_assoc.
Qed.

Lemma split_pieces_whole : forall sep text,
  occurs sep text = false ->
  split_pieces sep text = if String.eqb text "" then [] else [text].
Proof.
  intros sep text H. unfold split_pieces.
  destruct sep as [|a sep'].
  - destruct text; discriminate H.
  - rewrite (split_from_whole _ _ _ H). simpl.
    unfold nonempty. destruct (String.eqb text ""); reflexivity.
Qed.

Lemma strip_empty_string : strip "" = "".
Proof. reflexivity. Qed.

Section Invariant.
Variable ts : CharacterTextSplitter.
Hypothesis overlap_nonneg : (0 <= chunk_overlap ts)%Z.

Lemma weight_push : forall cur d,
  weight ts (cur ++ [d])
  = (weight ts cur + len d + sep_if ts (1 <? List.length (cur ++ [d]))%nat)%Z.
Proof.
  induction cur as [|c cur' IH]; intros d.
  - simpl. lia.
  - cbn [weight app]. rewrite IH.
    rewrite !length_app. cbn [List.length].
    destruct cur' as [|c' cur'']; cbn; [lia|].
    replace (List.length cur'' + 1)%nat with (S (List.length cur'')) by lia.
    cbn. lia.
Qed.

(** With [total] the weight of [current_doc], the inner loop never
    indexes an empty list. *)
Lemma pop_front_ok : forall cur _len,
  exists cur', pop_front ts cur (weight ts cur) _len = Some (cur', weight ts cur').
Proof.
  induction cur as [|d rest IH]; intros _len.
  - exists []. cbn. unfold must_pop. cbn.
    replace (chunk_overlap ts <? 0)%Z with false
      by (symmetry; apply Z.ltb_ge; exact overlap_nonneg).
    rewrite andb_false_r. reflexivity.
  - cbn [pop_front]. destruct (must_pop ts (d :: rest) (weight ts (d :: rest)) _len).
    + destruct (IH _len) as [cur' E]. exists cur'.
      replace (weight ts (d :: rest) - (len d + sep_if ts (1 <? List.length (d :: rest))%nat))%Z
        with (weight ts rest); [exact E|].
      cbn [weight List.length].
      change (1 <? S (List.length rest))%nat with (0 <? List.length rest)%nat. lia.
    + exists (d :: rest). reflexivity.
Qed.

Lemma push_balanced : forall st d, balanced ts st -> balanced ts (push ts st d).
Proof.
  intros st d H. unfold balanced, push in *. cbn [total current_doc].
  rewrite weight_push, H. reflexivity.
Qed.

Lemma merge_step_ok : forall st d,
  balanced ts st -> exists st', merge_step ts st d = inr st' /\ balanced ts st'.
Proof.
  intros st d H. unfold merge_step.
  destruct (chunk_size ts <? _)%Z.
  - destruct (current_doc st) as [|c cur'] eqn:E.
    + eexists; split; [reflexivity | now apply push_balanced].
    + rewrite <- E. rewrite H.
      destruct (pop_front_ok (current_doc st) (len d)) as [cur2 E2].
      rewrite E2. eexists; split; [reflexivity|].
      apply push_balanced. reflexivity.
  - eexists; split; [reflexivity | now apply push_balanced].
Qed.

Lemma merge_loop_ok : forall splits st,
  balanced ts st -> exists st', merge_loop ts splits st = inr st'.
Proof.
  induction splits as [|d rest IH]; intros st H; cbn [merge_loop].
  - now exists st.
  - destruct (merge_step_ok st d H) as [st' [E H']]. rewrite E. now apply IH.
Qed.

(** [split_text] and [split_documents] never raise. *)
Lemma split_text_ok : forall text, exists chunks, split_text ts text = inr chunks.
Proof.
  intros text. unfold split_text, merge_splits.
  destruct (merge_loop_ok (split_pieces (separator ts) text)
              {| docs := []; current_doc := []; total := 0 |} eq_refl) as [st E].
  rewrite E. eexists; reflexivity.
Qed.

Lemma split_documents_ok : forall documents,
  exists chunks, split_documents ts documents = inr chunks.
Proof.
  induction documents as [|d rest [more IH]]; cbn [split_documents].
  - now exists [].
  - destruct (split_text_ok (page_content d)) as [chunks E]. rewrite E, IH.
    eexists; reflexivity.
Qed.
End Invariant.

(** A text without separator gives one chunk, the stripped text, or none
    when nothing is left of it: the sizes play no part. *)
Lemma split_text_whole : forall ts text,
  occurs (separator ts) text = false ->
  split_text ts text
  = inr (if String.eqb (strip text) "" then [] else [strip text]).
Proof.
  intros ts text H. unfold split_text. rewrite (split_pieces_whole _ _ H).
  destruct (String.eqb text "") eqn:E.
  - apply String.eqb_eq in E. subst. reflexivity.
  - unfold merge_splits. cbn [merge_loop].
    assert (Hs : merge_step ts {| docs := []; current_doc := []; total := 0 |} text
                 = inr (push ts {| docs := []; current_doc := []; total := 0 |} text)).
    { unfold merge_step. cbn [current_doc]. destruct (chunk_size ts <? _)%Z; reflexivity. }
    rewrite Hs. unfold push. cbn [docs current_doc app].
    unfold emit, join_docs. cbn [join String.concat].
    destruct (String.eqb (strip text) ""); reflexivity.
Qed.

End SplitterFacts.

Lemma bind_ok : forall (A B : Type) (m : M A) (k : A -> M B) tr a tr',
  m tr = (inr a, tr') -> bind m k tr = k a tr'.
Proof. intros A B m k tr a tr' H. unfold bind. now rewrite H. Qed.

Lemma bind_fail : forall (A B : Type) (m : M A) (k : A -> M B) tr e tr',
  m tr = (inl e, tr') -> bind m k tr = (inl e, tr').
Proof. intros A B m k tr e tr' H. unfold bind. now rewrite H. Qed.

Lemma extends_ret : forall (A : Type) (a : A), extends (ret a).
Proof. intros A a tr. exists []. cbn. now rewrite app_nil_r. Qed.

Lemma extends_raise : forall (A : Type) (e : PyError), extends (@raise A e).
Proof. intros A e tr. exists []. cbn. now rewrite app_nil_r. Qed.

Lemma extends_lift : forall (A : Type) (r : PyError + A), extends (lift r).
Proof. intros A r tr. exists []. cbn. now rewrite app_nil_r. Qed.

Lemma extends_emit : forall e, extends (emit e).
Proof. intros e tr. exists [e]. reflexivity. Qed.

Lemma extends_bind : forall (A B : Type) (m : M A) (k : A -> M B),
  extends m -> (forall a, extends (k a)) -> extends (bind m k).
Proof.
  intros A B m k Hm Hk tr. destruct (Hm tr) as [s1 E1]. unfold bind.
  destruct (m tr) as [[e|a] tr1]; cbn in E1; subst tr1.
  - now exists s1.
  - destruct (Hk a (tr ++ s1)%list) as [s2 E2]. exists (s1 ++ s2)%list.
    now rewrite E2, app_assoc.
Qed.

Create HintDb trace.
#[local] Hint Resolve extends_ret extends_raise extends_lift extends_emit : trace.

Ltac extends_tac :=
  cbv zeta;
  repeat first
    [ solve [auto with trace]
    | apply extends_bind; [|intro] ].

Lemma extends_print : forall line, extends (print line).
Proof. intro. apply extends_emit. Qed.

Lemma extends_feedback_item : forall fb i, extends (feedback_item fb i).
Proof.
  intros fb i. unfold feedback_item.
  destruct fb as [l|]; [destruct (nth_error l i)|]; extends_tac.
Qed.
#[local] Hint Resolve extends_print extends_feedback_item : trace.

Lemma extends_progress_bar : forall fb t, extends (progress_bar fb t).
Proof. intros. unfold progress_bar. extends_tac. Qed.
#[local] Hint Resolve extends_progress_bar : trace.

Section Facts.
Variable w : World.

Lemma extends_requests_request : forall m u h d, extends (requests_request w m u h d).
Proof.
  intros m u h d tr. unfold requests_request.
  destruct (http w tr m u h d); eexists; reflexivity.
Qed.

Lemma extends_response_json : forall r, extends (response_json r).
Proof. intro r. unfold response_json. destruct (loads (text r)); extends_tac. Qed.

Lemma extends_json_loads : forall s, extends (json_loads s).
Proof. intro s. unfold json_loads. destruct (loads s); extends_tac. Qed.

Lemma extends_new_ChatOpenAI : forall m t, extends (new_ChatOpenAI w m t).
Proof.
  intros m t. unfold new_ChatOpenAI.
  destruct (environ w "OPENAI_API_KEY") as [[|c k]|]; extends_tac.
Qed.

Lemma extends_predict : forall chain kw, extends (predict w chain kw).
Proof.
  intros chain kw. unfold predict. apply extends_bind; [apply extends_lift|].
  intros p tr. destruct (chat w tr _ _ p); eexists; reflexivity.
Qed.

Hint Resolve extends_requests_request extends_response_json extends_json_loads
     extends_new_ChatOpenAI extends_predict : trace.

Lemma extends_search_for_articles : forall q, extends (search_for_articles w q).
Proof. intro q. unfold search_for_articles. extends_tac. Qed.

Lemma extends_find_the_best_article_urls : forall sr q,
  extends (find_the_best_article_urls w sr q).
Proof. intros. unfold find_the_best_article_urls. extends_tac. Qed.

Lemma extends_get_content_from_urls : forall urls, extends (get_content_from_urls w urls).
Proof.
  intros urls tr. unfold get_content_from_urls.
  destruct (load_urls w tr urls); eexists; reflexivity.
Qed.

Lemma extends_summarise_loop : forall chain q pairs acc,
  extends (summarise_loop w chain q pairs acc).
Proof.
  intros chain q pairs. induction pairs as [|chunk rest IH]; intro acc;
    cbn [summarise_loop]; extends_tac.
Qed.
Hint Resolve extends_summarise_loop : trace.

Lemma extends_summarise_content : forall data q, extends (summarise_content w data q).
Proof. intros. unfold summarise_content. extends_tac. Qed.

Lemma extends_generate_reddit_post : forall s q, extends (generate_reddit_post w s q).
Proof. intros. unfold generate_reddit_post. extends_tac. Qed.

Hint Resolve extends_search_for_articles extends_find_the_best_article_urls
     extends_get_content_from_urls extends_summarise_content
     extends_generate_reddit_post : trace.

Lemma extends_action : forall s p, extends (Pipeline.action w s p).
Proof. intros s p. destruct s; unfold Pipeline.action; extends_tac. Qed.

End Facts.

(* ------------------------------------------------------------------ *)
(** *** What is on a trace *)

Lemma chat_prompts_app : forall a b,
  chat_prompts (a ++ b) = (chat_prompts a ++ chat_prompts b)%list.
Proof. intros. unfold chat_prompts. apply flat_map_app. Qed.

Lemma quiet_chat_prompts : forall tr, existsb outbound tr = false -> chat_prompts tr = [].
Proof.
  induction tr as [|e r IH]; intro H; [reflexivity|].
  cbn in H. apply orb_false_elim in H as [He Hr].
  destruct e; cbn in He; try discriminate; cbn; auto.
Qed.

Lemma quiet_no_load : forall tr, existsb outbound tr = false -> existsb is_load tr = false.
Proof.
  induction tr as [|e r IH]; intro H; [reflexivity|].
  cbn in H. apply orb_false_elim in H as [He Hr].
  destruct e; cbn in He; try discriminate; cbn; auto.
Qed.

(** The progress bar calls nothing outside. *)
Lemma progress_bar_quiet : forall fb t tr,
  exists suffix,
    snd (progress_bar fb t tr) = (tr ++ suffix)%list /\ existsb outbound suffix = false.
Proof.
  intros fb t tr.
  destruct fb as [[|a [|b [|c l]]]|];
    unfold progress_bar, bind, emit, feedback_item, ret, raise; cbn;
    repeat rewrite <- app_assoc; (eexists; split; [reflexivity|reflexivity]).
Qed.

Lemma progress_bar_ok : forall l t tr,
  3 <= List.length l ->
  exists suffix,
    progress_bar (Some l) t tr = (inr tt, (tr ++ suffix)%list)
    /\ existsb outbound suffix = false.
Proof.
  intros l t tr H. destruct l as [|a [|b [|c l]]]; cbn in H; try lia.
  unfold progress_bar, bind, emit, feedback_item, ret, raise; cbn.
  repeat rewrite <- app_assoc. eexists; split; reflexivity.
Qed.

(* ------------------------------------------------------------------ *)
(** *** The prompts the templates give *)

Lemma format_article_prompt : forall response_str query,
  format_prompt {| template := article_prompt_template;
                   input_variables := ["response_str"; "query"] |}
                [("response_str", response_str); ("query", query)]
  = inr (article_prompt response_str query).
Proof. reflexivity. Qed.

Lemma format_summary_prompt : forall text query,
  format_prompt {| template := summary_prompt_template;
                   input_variables := ["text"; "query"] |}
                [("text", text); ("query", query)]
  = inr (summary_prompt text query).
Proof. reflexivity. Qed.

Lemma format_post_prompt : forall summaries_str query,
  format_prompt {| template := post_prompt_template;
                   input_variables := ["summaries_str"; "query"] |}
                [("summaries_str", summaries_str); ("query", query)]
  = inr (post_prompt summaries_str query).
Proof. reflexivity. Qed.

(* ------------------------------------------------------------------ *)
(** *** The five functions, call by call *)

Section Calls.
Variable w : World.

Lemma search_for_articles_eq : forall query tr,
  search_for_articles w query tr
  = (match http w tr "POST" search_url (search_headers w) (search_payload query) with
     | None => inl RequestException
     | Some response =>
         match loads (text response) with
         | Some v => inr v
         | None => inl JSONDecodeError
         end
     end,
     (tr ++ [search_request w query])%list).
Proof.
  intros query tr. unfold search_for_articles, bind, requests_request.
  change (json_dumps w (PyDict [("q", PyStr query)])) with (search_payload query).
  fold search_url. fold (SERPAPI_API_KEY w).
  change [("X-API-KEY", SERPAPI_API_KEY w); ("Content-Type", Some "application/json")]
    with (search_headers w).
  destruct (http w tr "POST" search_url (search_headers w) (search_payload query))
    as [response|]; [|reflexivity].
  unfold response_json. destruct (loads (text response)); reflexivity.
Qed.

Lemma new_ChatOpenAI_eq : forall model temperature tr,
  new_ChatOpenAI w model temperature tr
  = (if has_model_key w
     then inr {| llm_model_name := model; llm_temperature := temperature |}
     else inl ValidationError, tr).
Proof.
  intros. unfold new_ChatOpenAI, has_model_key.
  destruct (environ w "OPENAI_API_KEY") as [[|c k]|]; reflexivity.
Qed.

Lemma predict_eq : forall chain kwargs p tr,
  format_prompt (chain_prompt chain) kwargs = inr p ->
  predict w chain kwargs tr
  = (match chat w tr (llm_model_name (chain_llm chain))
                 (llm_temperature (chain_llm chain)) p with
     | Some answer => inr answer
     | None => inl OpenAIError
     end,
     (tr ++ [ChatCompletion (llm_model_name (chain_llm chain))
                            (llm_temperature (chain_llm chain)) p])%list).
Proof.
  intros chain kwargs p tr H. unfold predict, bind, lift. rewrite H.
  destruct (chat w tr _ _ p); reflexivity.
Qed.

Lemma find_the_best_article_urls_eq : forall response_data query tr,
  has_model_key w = true ->
  find_the_best_article_urls w response_data query tr
  = let p := article_prompt (json_dumps w response_data) query in
    let tr1 := (tr ++ [ChatCompletion "gpt-3.5-turbo" (PyInt 1) p])%list in
    match chat w tr "gpt-3.5-turbo" (PyInt 1) p with
    | None => (inl OpenAIError, tr1)
    | Some reply =>
        match loads reply with
        | None => (inl JSONDecodeError, tr1)
        | Some v => (inr v, (tr1 ++ [Print (Json.str (float_repr w) v)])%list)
        end
    end.
Proof.
  intros response_data query tr K. unfold find_the_best_article_urls.
  unfold bind at 1. rewrite new_ChatOpenAI_eq, K.
  unfold bind at 1.
  erewrite predict_eq by (cbn [chain_prompt]; apply format_article_prompt). cbn [chain_llm llm_model_name llm_temperature].
  cbv zeta.
  destruct (chat w tr "gpt-3.5-turbo" (PyInt 1) _) as [reply|]; [|reflexivity].
  unfold bind, json_loads. destruct (loads reply); reflexivity.
Qed.

Lemma find_the_best_article_urls_no_key : forall response_data query tr,
  has_model_key w = false ->
  find_the_best_article_urls w response_data query tr = (inl ValidationError, tr).
Proof.
  intros response_data query tr K. unfold find_the_best_article_urls.
  unfold bind at 1. rewrite new_ChatOpenAI_eq, K. reflexivity.
Qed.

Lemma generate_reddit_post_eq : forall summaries query tr,
  has_model_key w = true ->
  generate_reddit_post w summaries query tr
  = let p := post_prompt (str_list summaries) query in
    (match chat w tr "gpt-3.5-turbo" (PyFloat "0.7") p with
     | Some reply => inr reply
     | None => inl OpenAIError
     end,
     (tr ++ [ChatCompletion "gpt-3.5-turbo" (PyFloat "0.7") p])%list).
Proof.
  intros summaries query tr K. unfold generate_reddit_post.
  unfold bind at 1. rewrite new_ChatOpenAI_eq, K.
  unfold bind.
  erewrite predict_eq by (cbn [chain_prompt]; apply format_post_prompt). cbn [chain_llm llm_model_name llm_temperature].
  cbv zeta.
  destruct (chat w tr "gpt-3.5-turbo" (PyFloat "0.7") _); reflexivity.
Qed.

Lemma generate_reddit_post_no_key : forall summaries query tr,
  has_model_key w = false ->
  generate_reddit_post w summaries query tr = (inl ValidationError, tr).
Proof.
  intros summaries query tr K. unfold generate_reddit_post.
  unfold bind at 1. rewrite new_ChatOpenAI_eq, K. reflexivity.
Qed.

End Calls.

(* ------------------------------------------------------------------ *)
(** *** The loop of [summarise_content] *)

Lemma nth_error_enumerate_from : forall (A : Type) (l : list A) k i x,
  nth_error l i = Some x ->
  nth_error (enumerate_from k l) i = Some ((k + Z.of_nat i)%Z, x).
Proof.
  induction l as [|y r IH]; intros k i x H; destruct i; cbn in *; try discriminate.
  - inversion H; subst. f_equal. f_equal. lia.
  - rewrite (IH (k + 1)%Z i x H). f_equal. f_equal. lia.
Qed.

Lemma length_enumerate_from : forall (A : Type) (l : list A) k,
  List.length (enumerate_from k l) = List.length l.
Proof. induction l as [|y r IH]; intro k; cbn; [reflexivity | now rewrite IH]. Qed.

Lemma Forall2_nth_error : forall (A B : Type) (R : A -> B -> Prop) l1 l2,
  Forall2 R l1 l2 ->
  forall i a, nth_error l1 i = Some a -> exists b, nth_error l2 i = Some b /\ R a b.
Proof.
  intros A B R l1 l2 H. induction H as [|x y r1 r2 Hxy _ IH]; intros i a Hi.
  - destruct i; discriminate.
  - destruct i; cbn in *.
    + inversion Hi; subst. now exists y.
    + now apply IH.
Qed.

Section Summaries.
Variable w : World.

Lemma answered_later : forall tr more query pair reply,
answered w tr query pair reply -> answered w (tr ++ more) query pair reply.
Proof.
intros tr more query pair reply [before [after [Ht Hc]]].
exists before, (after ++ more)%list. split; [|exact Hc].
rewrite Ht, <- app_assoc. reflexivity.
Qed.

Lemma summarise_loop_ok : forall query pairs acc tr out tr',
summarise_loop w summariser query pairs acc tr = (inr out, tr') ->
exists replies,
  out = (acc ++ replies)%list
  /\ Forall2 (answered w tr' query) pairs replies
  /\ chat_prompts tr'
     = (chat_prompts tr
        ++ map (fun pair => summary_prompt (str_pair w pair) query) pairs)%list.
Proof.
intros query pairs. induction pairs as [|chunk rest IH]; intros acc tr out tr' H.
- cbn in H. inversion H; subst. exists []. cbn. rewrite !app_nil_r.
  repeat split. constructor.
- cbn [summarise_loop] in H. unfold bind at 1 in H. unfold print, emit in H.
  unfold bind at 1 in H.
  erewrite predict_eq in H by (cbn [chain_prompt summariser]; apply format_summary_prompt).
  cbn [chain_llm summariser llm_model_name llm_temperature] in H.
  destruct (chat w _ "gpt-3.5-turbo" (PyFloat "0.7") _) as [reply|] eqn:E;
    [|discriminate].
  destruct (extends_summarise_loop w summariser query rest (acc ++ [reply])%list
              ((tr ++ [Print (str_pair w chunk)])
               ++ [ChatCompletion "gpt-3.5-turbo" (PyFloat "0.7")
                     (summary_prompt (str_pair w chunk) query)])%list)
    as [more Hmore].
  rewrite H in Hmore. cbn [snd] in Hmore.
  apply IH in H. destruct H as [replies [Hout [Hall Htr]]].
  exists (reply :: replies). repeat split.
  + rewrite Hout, <- app_assoc. reflexivity.
  + constructor; [|exact Hall].
    exists (tr ++ [Print (str_pair w chunk)])%list, more. split; [|exact E].
    rewrite Hmore, <- app_assoc. reflexivity.
  + rewrite Htr, !chat_prompts_app. cbn. rewrite app_nil_r, <- app_assoc. reflexivity.
Qed.

Lemma summarise_loop_answers : forall query,
  (forall tr p, chat w tr "gpt-3.5-turbo" (PyFloat "0.7") p <> None) ->
  forall pairs acc tr,
  exists out tr', summarise_loop w summariser query pairs acc tr = (inr out, tr').
Proof.
  intros query Hchat pairs. induction pairs as [|chunk rest IH]; intros acc tr.
  - do 2 eexists; reflexivity.
  - cbn [summarise_loop]. unfold bind at 1. unfold print, emit.
    unfold bind at 1.
    erewrite predict_eq by (cbn [chain_prompt summariser]; apply format_summary_prompt).
    cbn [chain_llm summariser llm_model_name llm_temperature].
    destruct (chat w _ "gpt-3.5-turbo" (PyFloat "0.7") _) as [reply|] eqn:E.
    + apply IH.
    + exfalso. eapply Hchat; exact E.
Qed.

Lemma summarise_content_eq : forall data query tr chunks,
  has_model_key w = true ->
  Splitter.split_documents text_splitter data = inr chunks ->
  summarise_content w data query tr
  = match summarise_loop w summariser query (enumerate chunks) [] tr with
    | (inr summaries, tr') => (inr summaries, (tr' ++ [Print (str_list summaries)])%list)
    | (inl e, tr') => (inl e, tr')
    end.
Proof.
  intros data query tr chunks K S. unfold summarise_content.
  unfold bind at 1. unfold lift. rewrite S.
  unfold bind at 1. rewrite new_ChatOpenAI_eq, K.
  unfold bind at 1. fold summariser.
  destruct (summarise_loop w summariser query (enumerate chunks) [] tr) as [[e|s] t];
    reflexivity.
Qed.

(** One prompt per chunk, in order, each made from the pair that
  [enumerate] gives. *)
Lemma summarise_content_prompts : forall data query tr chunks summaries tr',
has_model_key w = true ->
Splitter.split_documents text_splitter data = inr chunks ->
summarise_content w data query tr = (inr summaries, tr') ->
chat_prompts tr'
= (chat_prompts tr
   ++ map (fun pair => summary_prompt (str_pair w pair) query) (enumerate chunks))%list.
Proof.
intros data query tr chunks summaries tr' K S H.
rewrite (summarise_content_eq _ _ _ _ K S) in H.
destruct (summarise_loop w summariser query (enumerate chunks) [] tr)
  as [[e|out] t] eqn:E; [discriminate|].
inversion H; subst.
destruct (summarise_loop_ok _ _ _ _ _ _ E) as [replies [_ [_ Hp]]].
rewrite chat_prompts_app, Hp. cbn. now rewrite app_nil_r.
Qed.

Lemma summarise_content_no_key : forall data query tr,
  has_model_key w = false ->
  exists e, summarise_content w data query tr = (inl e, tr).
Proof.
  intros data query tr K. unfold summarise_content.
  unfold bind at 1. unfold lift.
  destruct (Splitter.split_documents text_splitter data) as [e|chunks]; [eauto|].
  unfold bind at 1. rewrite new_ChatOpenAI_eq, K. eauto.
Qed.

Lemma text_splitter_never_raises : forall data,
  exists chunks, Splitter.split_documents text_splitter data = inr chunks.
Proof. intro data. apply SplitterFacts.split_documents_ok. cbn. lia. Qed.

End Summaries.

(* ------------------------------------------------------------------ *)
(** *** [main] and the machine *)

Lemma bind_trace : forall (A B : Type) (m : M A) (k : A -> M B) tr,
  (forall a, extends (k a)) ->
  exists suffix, snd (bind m k tr) = (snd (m tr) ++ suffix)%list.
Proof.
  intros A B m k tr Hk. unfold bind. destruct (m tr) as [[e|a] tr1]; cbn [snd].
  - exists []. now rewrite app_nil_r.
  - apply Hk.
Qed.

Ltac fields := cbn [shown_search_results shown_urls shown_data shown_summaries post].

Section Machine.
Variable w : World.
Import Pipeline.

Lemma extends_run : forall stages p, extends (run w stages p).
Proof.
  induction stages as [|s rest IH]; intro p; cbn [run].
  - apply extends_ret.
  - apply extends_bind; [apply extends_action | intro; apply IH].
Qed.

Lemma snd_shown : forall r, snd (shown r) = snd r.
Proof. intros [[e|p] tr]; reflexivity. Qed.

(** [main] runs the five stages in order. *)
Lemma main_run : forall tr,
  text_input w <> "" ->
  main w tr = shown (run w (stages_from Search) blank tr).
Proof.
  intros tr Hq. unfold main, stages_from, run, action.
  destruct (text_input w) as [|c q] eqn:Q; [congruence|].
  unfold bind, ret; cbv beta iota.
  destruct (search_for_articles w _ tr) as [[e|v1] t1]; [reflexivity|].
  destruct (progress_bar _ 20 t1) as [[e|[]] t1']; [reflexivity|]. fields.
  destruct (find_the_best_article_urls w v1 _ t1') as [[e|v2] t2]; [reflexivity|].
  destruct (progress_bar _ 20 t2) as [[e|[]] t2']; [reflexivity|]. fields.
  destruct (get_content_from_urls w v2 t2') as [[e|v3] t3]; [reflexivity|].
  destruct (progress_bar _ 20 t3) as [[e|[]] t3']; [reflexivity|]. fields.
  destruct (summarise_content w v3 _ t3') as [[e|v4] t4]; [reflexivity|].
  destruct (progress_bar _ 20 t4) as [[e|[]] t4']; [reflexivity|]. fields.
  destruct (generate_reddit_post w v4 _ t4') as [[e|v5] t5]; [reflexivity|].
  destruct (progress_bar _ 20 t5) as [[e|[]] t5']; reflexivity.
Qed.

Lemma run_cons : forall s rest p tr,
  run w (s :: rest) p tr
  = match action w s p tr with
    | (inr p', tr') => run w rest p' tr'
    | (inl e, tr') => (inl e, tr')
    end.
Proof. reflexivity. Qed.

(** [Done] and [Failed] are terminal, and a step is determined by the
  configuration it starts from. *)
Lemma no_step_from_done : forall p tr c, ~ step w (Done, p, tr) c.
Proof. intros p tr c H. inversion H. Qed.

Lemma no_step_from_failed : forall e p tr c, ~ step w (Failed e, p, tr) c.
Proof. intros e p tr c H. inversion H. Qed.

Lemma step_deterministic : forall c c1 c2, step w c c1 -> step w c c2 -> c1 = c2.
Proof.
intros c c1 c2 H1 H2. inversion H1; subst; inversion H2; subst; congruence.
Qed.

Lemma reaches_last : reaches w Generate.
Proof.
  intros p tr. cbn [stages_from]. rewrite run_cons.
  destruct (action w Generate p tr) as [[e|p'] tr'] eqn:E.
  - exists (Failed e, p, tr'). repeat split.
    eapply steps_step; [apply step_fail; exact E | apply steps_refl].
  - exists (Done, p', tr'). repeat split.
    eapply steps_step; [apply (step_ok w Generate); exact E | apply steps_refl].
Qed.

Lemma reaches_before : forall s s',
  next s = Running s' -> stages_from s = s :: stages_from s' ->
  reaches w s' -> reaches w s.
Proof.
  intros s s' Hn Hs H p tr. rewrite Hs, run_cons.
  destruct (action w s p tr) as [[e|p'] tr'] eqn:E.
  - exists (Failed e, p, tr'). repeat split.
    eapply steps_step; [apply step_fail; exact E | apply steps_refl].
  - destruct (H p' tr') as [c [Hc [Ht Ho]]]. exists c. repeat split; trivial.
    eapply steps_step; [|exact Hc]. rewrite <- Hn. apply step_ok. exact E.
Qed.

Lemma reaches_all : forall s, reaches w s.
Proof.
  assert (G : reaches w Generate) by apply reaches_last.
  assert (U : reaches w Summarize) by (apply (reaches_before _ Generate); auto).
  assert (F : reaches w Fetch) by (apply (reaches_before _ Summarize); auto).
  assert (L : reaches w Select) by (apply (reaches_before _ Fetch); auto).
  assert (S : reaches w Search) by (apply (reaches_before _ Select); auto).
  intros []; assumption.
Qed.

(** The search stage: the request, then only the progress bar. *)
Lemma search_stage_trace : forall p tr out tr',
  action w Search p tr = (out, tr') ->
  exists suffix,
    tr' = (tr ++ search_request w (text_input w) :: suffix)%list
    /\ existsb outbound suffix = false.
Proof.
  intros p tr out tr' H. unfold action in H. unfold bind at 1 in H.
  rewrite search_for_articles_eq in H.
  destruct (match http w tr "POST" search_url (search_headers w)
                        (search_payload (text_input w)) with
            | None => inl RequestException
            | Some response =>
                match loads (text response) with
                | Some v => inr v
                | None => inl JSONDecodeError
                end
            end) as [e|v].
  - inversion H; subst. exists []. split; reflexivity.
  - destruct (progress_bar_quiet (progress_bar_map w "search_for_articles") 20
                (tr ++ [search_request w (text_input w)])%list) as [suffix [Hs Hq]].
    unfold bind, ret in H.
    destruct (progress_bar _ 20 _) as [[e|[]] t]; cbn [snd] in Hs;
      inversion H; subst; exists suffix; rewrite <- app_assoc; split; trivial.
Qed.

Lemma search_stage_result : forall p tr p' tr',
  action w Search p tr = (inr p', tr') ->
  exists response,
    http w tr "POST" search_url (search_headers w) (search_payload (text_input w))
    = Some response
    /\ loads (text response) = Some (shown_search_results p').
Proof.
  intros p tr p' tr' H. unfold action in H. unfold bind at 1 in H.
  rewrite search_for_articles_eq in H.
  destruct (http w tr "POST" search_url (search_headers w)
                 (search_payload (text_input w))) as [response|]; [|discriminate].
  exists response. split; [reflexivity|].
  destruct (loads (text response)) as [v|]; [|discriminate].
  unfold bind, ret in H. destruct (progress_bar _ 20 _) as [[e|[]] t]; [discriminate|].
  inversion H; subst. reflexivity.
Qed.

(** The search stage when every part of it succeeds. *)
Lemma search_stage_ok : forall p tr response v fb,
  http w tr "POST" search_url (search_headers w) (search_payload (text_input w))
  = Some response ->
  loads (text response) = Some v ->
  progress_bar_map w "search_for_articles" = Some fb -> 3 <= List.length fb ->
  exists p' tr',
    action w Search p tr = (inr p', tr') /\ shown_search_results p' = v.
Proof.
  intros p tr response v fb Hh Hl Hf Hn. unfold action. unfold bind at 1.
  rewrite search_for_articles_eq, Hh, Hl, Hf.
  destruct (progress_bar_ok fb 20 (tr ++ [search_request w (text_input w)])%list Hn)
    as [suffix [Hp _]].
  unfold bind, ret. rewrite Hp. eexists; eexists; split; reflexivity.
Qed.

(** The selection stage on an answer that is not JSON. *)
Lemma select_stage_malformed : forall p tr reply,
  has_model_key w = true ->
  chat w tr "gpt-3.5-turbo" (PyInt 1)
       (article_prompt (json_dumps w (shown_search_results p)) (text_input w))
  = Some reply ->
  loads reply = None ->
  action w Select p tr
  = (inl JSONDecodeError,
     (tr ++ [ChatCompletion "gpt-3.5-turbo" (PyInt 1)
               (article_prompt (json_dumps w (shown_search_results p))
                               (text_input w))])%list).
Proof.
  intros p tr reply K Hc Hl. unfold action. unfold bind at 1.
  rewrite find_the_best_article_urls_eq by exact K. cbv zeta.
  rewrite Hc, Hl. reflexivity.
Qed.

Lemma select_stage_no_key : forall p tr,
  has_model_key w = false -> action w Select p tr = (inl ValidationError, tr).
Proof.
  intros p tr K. unfold action. unfold bind at 1.
  rewrite find_the_best_article_urls_no_key by exact K. reflexivity.
Qed.

(** The selection stage sends its prompt as soon as the key is there. *)
Lemma select_stage_trace : forall p tr,
  has_model_key w = true ->
  exists rest,
    snd (action w Select p tr)
    = (tr ++ ChatCompletion "gpt-3.5-turbo" (PyInt 1)
               (article_prompt (json_dumps w (shown_search_results p)) (text_input w))
          :: rest)%list.
Proof.
  intros p tr K. unfold action.
  destruct (bind_trace _ _
              (find_the_best_article_urls w (shown_search_results p) (text_input w))
              (fun v => bind (progress_bar (progress_bar_map w "find_the_best_article_urls") 20)
                 (fun _ => ret {| shown_search_results := shown_search_results p;
                                  shown_urls := v; shown_data := shown_data p;
                                  shown_summaries := shown_summaries p;
                                  post := post p |})) tr) as [s1 E1].
  { intro a. apply extends_bind; [apply extends_progress_bar | intro; apply extends_ret]. }
  rewrite E1. rewrite find_the_best_article_urls_eq by exact K. cbv zeta.
  destruct (chat w tr "gpt-3.5-turbo" (PyInt 1) _) as [reply|];
    [destruct (loads reply)|]; cbn [snd]; repeat rewrite <- app_assoc;
    eexists; reflexivity.
Qed.




End Machine.

(* ------------------------------------------------------------------ *)
(** *** A JSON object is read as a [dict] *)

Lemma parse_object_dict : forall f s acc v r,
  parse_object f s acc = POk v r -> exists d, v = PyDict d.
Proof.
  induction f as [|f IH]; intros s acc v r H; [discriminate|].
  cbn [parse_object] in H.
  destruct s as [|q t]; [discriminate|].
  destruct (Ascii.eqb q dquote); [|discriminate].
  destruct (scanstring (S (String.length t)) t "") as [k r1| |]; try discriminate.
  destruct (skip_ws r1) as [|c r2]; [discriminate|].
  destruct (Ascii.eqb c ":"); [|discriminate].
  destruct (scan_once f (skip_ws r2)) as [v0 r3| |]; try discriminate.
  destruct (skip_ws r3) as [|c' r4]; [discriminate|].
  destruct (Ascii.eqb c' "}").
  - inversion H; subst. eauto.
  - destruct (Ascii.eqb c' ","); [|discriminate]. eapply IH; exact H.
Qed.

Lemma loads_object : forall s rest v,
  skip_ws s = String "{" rest -> loads s = Some v -> exists d, v = PyDict d.
Proof.
  intros s rest v Hs H. unfold loads, decode in H. rewrite Hs in H.
  cbn [scan_once] in H.
  change (Ascii.eqb "{" dquote) with false in H.
  change (Ascii.eqb "{" "{") with true in H. cbv iota in H.
  destruct (skip_ws rest) as [|c' r'].
  - discriminate.
  - destruct (Ascii.eqb c' "}").
    + destruct (skip_ws r'); inversion H; subst; eauto.
    + destruct (parse_object _ (String c' r') []) as [v0 r0| |] eqn:E; try discriminate.
      apply parse_object_dict in E. destruct E as [d ->].
      destruct (skip_ws r0); inversion H; subst; eauto.
Qed.

Lemma parse_array_list : forall f s acc v r,
  parse_array f s acc = POk v r -> exists l, v = PyList l.
Proof.
  induction f as [|f IH]; intros s acc v r H; [discriminate|].
  cbn [parse_array] in H.
  destruct (scan_once f s) as [v0 r0| |]; try discriminate.
  destruct (skip_ws r0) as [|c r1]; [discriminate|].
  destruct (Ascii.eqb c "]").
  - inversion H; subst. eauto.
  - destruct (Ascii.eqb c ","); [|discriminate]. eapply IH; exact H.
Qed.

Lemma scan_constant_plain : forall s d r, scan_constant s <> Some (PyDict d, r).
Proof.
  intros s d r. unfold scan_constant.
  repeat match goal with
  | |- context [match after_prefix ?p s with _ => _ end] => destruct (after_prefix p s)
  end; discriminate.
Qed.

Lemma match_number_plain : forall s d r, match_number s <> POk (PyDict d) r.
Proof.
  intros s d r. unfold match_number.
  repeat match goal with
  | |- context [match ?x with _ => _ end] => destruct x
  | |- context [if ?x then _ else _] => destruct x
  | |- context [let '(_, _) := ?x in _] => destruct x
  end; discriminate.
Qed.

(** Only a text that starts with a brace is read as a [dict]. *)
Lemma scan_once_dict : forall f s d r,
  scan_once f s = POk (PyDict d) r -> exists rest, s = String "{" rest.
Proof.
  intros [|f] s d r H; [discriminate|].
  cbn [scan_once] in H. destruct s as [|c t]; [discriminate|].
  destruct (Ascii.eqb c dquote).
  { destruct (scanstring _ t ""); discriminate. }
  destruct (Ascii.eqb c "{") eqn:E.
  { apply Ascii.eqb_eq in E. subst. eauto. }
  destruct (Ascii.eqb c "[").
  { destruct (skip_ws t) as [|c' r']; [discriminate|].
    destruct (Ascii.eqb c' "]"); [discriminate|].
    apply parse_array_list in H. destruct H as [l H]. discriminate. }
  destruct (scan_constant (String c t)) as [[v r']|] eqn:Ec.
  - inversion H; subst. exfalso. exact (scan_constant_plain _ _ _ Ec).
  - exfalso. exact (match_number_plain _ _ _ H).
Qed.

Lemma loads_dict : forall s d,
  loads s = Some (PyDict d) -> exists rest, skip_ws s = String "{" rest.
Proof.
  intros s d H. unfold loads, decode in H.
  destruct (scan_once _ (skip_ws s)) as [v r| |] eqn:E; try discriminate.
  destruct (skip_ws r); [|discriminate]. inversion H; subst.
  eapply scan_once_dict; exact E.
Qed.

(* ================================================================== *)
(** ** The claims *)
(* ================================================================== *)

(** C9, as the code has it.  For every query, [search_for_articles] sends
    exactly one request: a POST to the fixed end point, with the body
    [{"q": <query>}] as [json.dumps] writes it and the [X-API-KEY] header
    set to what the environment held for [SERPAPI_API_KEY] at start-up
    (no value when the variable is not set).  It returns the body of the
    response parsed as JSON, whatever the value is (an error when the
    request cannot complete or the body is not JSON): the value is a
    [dict] exactly when the body is a JSON object. *)
Theorem search_for_articles_sends_one_post : forall w query tr,
  snd (search_for_articles w query tr)
  = (tr ++ [HttpRequest "POST" "https://google.serper.dev/search"
              [("X-API-KEY", environ w "SERPAPI_API_KEY");
               ("Content-Type", Some "application/json")]
              ("{" ++ encode_str "q" ++ ": " ++ encode_str query ++ "}")])%list
  /\ fst (search_for_articles w query tr)
     = match http w tr "POST" search_url (search_headers w) (search_payload query) with
       | None => inl RequestException
       | Some response =>
           match loads (text response) with
           | Some v => inr v
           | None => inl JSONDecodeError
           end
       end
  /\ (forall v, fst (search_for_articles w query tr) = inr v ->
      exists response,
        http w tr "POST" search_url (search_headers w) (search_payload query)
        = Some response
        /\ loads (text response) = Some v
        /\ ((exists d, v = PyDict d)
            <-> exists rest, skip_ws (text response) = String "{" rest)).
Proof.
  intros w query tr. rewrite search_for_articles_eq. cbn [fst snd].
  split; [reflexivity|]. split; [reflexivity|].
  intros v H.
  destruct (http w tr "POST" search_url (search_headers w) (search_payload query))
    as [response|]; [|discriminate].
  exists response. split; [reflexivity|].
  destruct (loads (text response)) as [v'|] eqn:E; [|discriminate].
  inversion H; subst. split; [reflexivity|]. split.
  - intros [d ->]. eapply loads_dict; exact E.
  - intros [rest Hs]. eapply loads_object; eassumption.
Qed.

Lemma search_for_articles_sends_one_post_witness :
  fst (search_for_articles Examples.w_results "electric vehicles" [])
  = inr (PyDict [("organic", PyList [PyInt 1; PyInt 2])])
  /\ exists response,
       http Examples.w_results [] "POST" search_url (search_headers Examples.w_results)
            (search_payload "electric vehicles") = Some response
       /\ loads (text response) = Some (PyDict [("organic", PyList [PyInt 1; PyInt 2])])
       /\ exists rest, skip_ws (text response) = String "{" rest.
Proof.
  assert (E : fst (search_for_articles Examples.w_results "electric vehicles" [])
              = inr (PyDict [("organic", PyList [PyInt 1; PyInt 2])]))
    by (vm_compute; reflexivity).
  split; [exact E|].
  destruct (search_for_articles_sends_one_post Examples.w_results "electric vehicles" [])
    as [_ [_ H]].
  destruct (H _ E) as [response [Hh [Hl [Hd _]]]].
  exists response. split; [exact Hh|]. split; [exact Hl|].
  apply Hd. eexists. reflexivity.
Defined.

(** C9 as stated fails: when the provider answers with a JSON array, the
    parsed body comes back as a [list], not as a mapping. *)
Lemma search_returns_a_list :
  search_for_articles Examples.w_array_body "electric vehicles" []
  = (inr (PyList [PyInt 1; PyInt 2]),
     [search_request Examples.w_array_body "electric vehicles"])
  /\ forall d, PyList [PyInt 1; PyInt 2] <> PyDict d.
Proof. split; [vm_compute; reflexivity | discriminate]. Qed.

(** C10.  The status code of the response plays no part: whenever the
    body is JSON, whatever the status, [search_for_articles] returns the
    parsed body and raises nothing; in a run the value goes on to the
    article selector, whose prompt (the first sent to the model) holds its
    [json.dumps] text. *)
Theorem error_body_is_returned_and_used : forall w query tr status body v,
  http w tr "POST" search_url (search_headers w) (search_payload query)
  = Some {| status_code := status; text := body |} ->
  loads body = Some v ->
  search_for_articles w query tr = (inr v, (tr ++ [search_request w query])%list)
  /\ (forall fb,
        tr = [] -> query = text_input w -> query <> "" ->
        progress_bar_map w "search_for_articles" = Some fb -> 3 <= List.length fb ->
        has_model_key w = true ->
        exists t1 rest,
          snd (main w [])
          = (t1 ++ ChatCompletion "gpt-3.5-turbo" (PyInt 1)
                     (article_prompt (json_dumps w v) query) :: rest)%list
          /\ chat_prompts t1 = []).
Proof.
  intros w query tr status body v Hh Hl. split.
  - rewrite search_for_articles_eq, Hh. cbn [text]. rewrite Hl. reflexivity.
  - intros fb -> -> Hq Hf Hn K.
    destruct (search_stage_ok w Pipeline.blank [] _ v fb Hh Hl Hf Hn) as [p1 [t1 [Ha Hv]]].
    destruct (search_stage_trace w _ _ _ _ Ha) as [suffix [Ht Hquiet]].
    rewrite main_run by exact Hq. rewrite snd_shown.
    cbn [Pipeline.stages_from]. rewrite run_cons, Ha.
    change (Pipeline.run w [Pipeline.Select; Pipeline.Fetch; Pipeline.Summarize;
                            Pipeline.Generate] p1 t1)
      with (bind (Pipeline.action w Pipeline.Select p1)
                 (Pipeline.run w [Pipeline.Fetch; Pipeline.Summarize; Pipeline.Generate])
                 t1).
    destruct (bind_trace _ _ (Pipeline.action w Pipeline.Select p1)
                (Pipeline.run w [Pipeline.Fetch; Pipeline.Summarize; Pipeline.Generate]) t1
                (fun a => extends_run w _ a)) as [s2 E2].
    rewrite E2.
    destruct (select_stage_trace w p1 t1 K) as [rest E3]. rewrite E3, Hv.
    exists t1, (rest ++ s2)%list. split.
    + rewrite <- app_assoc. reflexivity.
    + subst t1. cbn [app]. cbn. apply quiet_chat_prompts. exact Hquiet.
Qed.

Lemma error_body_is_returned_and_used_witness :
  fst (search_for_articles Examples.w_unauthorized "electric vehicles" [])
  = inr (PyDict [("message", PyStr "Unauthorized.")])
  /\ exists t1 rest,
       snd (main Examples.w_unauthorized [])
       = (t1 ++ ChatCompletion "gpt-3.5-turbo" (PyInt 1)
                  (article_prompt
                     (json_dumps Examples.w_unauthorized
                                 (PyDict [("message", PyStr "Unauthorized.")]))
                     "electric vehicles") :: rest)%list
       /\ chat_prompts t1 = [].
Proof.
  destruct (error_body_is_returned_and_used Examples.w_unauthorized "electric vehicles" []
              401%Z (text Examples.unauthorized_response)
              (PyDict [("message", PyStr "Unauthorized.")]))
    as [H1 H2]; [reflexivity | vm_compute; reflexivity |].
  split.
  - rewrite H1. reflexivity.
  - apply (H2 ["1"; "Working on it"; "Finished"]);
      first [reflexivity | discriminate | cbn; lia].
Defined.

(** C8.  A run with a query is a run of the linear machine: a stage is
    entered only when the one before returned, and a stage that fails ends
    the run in [Failed].  In particular, when the search stage succeeded
    and the model's answer to the article selector is not JSON, the run
    ends with [JSONDecodeError] right after that model call: nothing is
    fetched and no other prompt is sent. *)
Theorem malformed_selection_stops_the_run : forall w,
  text_input w <> "" ->
  (exists c,
     Pipeline.steps w (Pipeline.Running Pipeline.Search, Pipeline.blank, []) c
     /\ Pipeline.terminal c
     /\ main w [] = Pipeline.outcome c)
  /\ (forall p1 t1 reply,
        Pipeline.action w Pipeline.Search Pipeline.blank [] = (inr p1, t1) ->
        has_model_key w = true ->
        chat w t1 "gpt-3.5-turbo" (PyInt 1)
             (article_prompt (json_dumps w (shown_search_results p1)) (text_input w))
        = Some reply ->
        loads reply = None ->
        main w []
        = (inl JSONDecodeError,
           (t1 ++ [ChatCompletion "gpt-3.5-turbo" (PyInt 1)
                     (article_prompt (json_dumps w (shown_search_results p1))
                                     (text_input w))])%list)
        /\ existsb is_load (snd (main w [])) = false
        /\ List.length (chat_prompts (snd (main w []))) = 1).
Proof.
  intros w Hq. split.
  - destruct (reaches_all w Pipeline.Search Pipeline.blank []) as [c [Hs [Ht Ho]]].
    exists c. repeat split; trivial. rewrite main_run by exact Hq. now symmetry.
  - intros p1 t1 reply Ha K Hc Hl.
    assert (Hm : main w []
                 = (inl JSONDecodeError,
                    (t1 ++ [ChatCompletion "gpt-3.5-turbo" (PyInt 1)
                              (article_prompt (json_dumps w (shown_search_results p1))
                                              (text_input w))])%list)).
    { rewrite main_run by exact Hq. cbn [Pipeline.stages_from].
      rewrite run_cons, Ha, run_cons.
      rewrite (select_stage_malformed w p1 t1 reply K Hc Hl). reflexivity. }
    split; [exact Hm|]. rewrite Hm. cbn [snd].
    destruct (search_stage_trace w _ _ _ _ Ha) as [suffix [Ht Hquiet]]. subst t1.
    split.
    + rewrite !existsb_app.
      change (existsb is_load (search_request w (text_input w) :: suffix))
        with (existsb is_load suffix).
      rewrite (quiet_no_load _ Hquiet). reflexivity.
    + rewrite !chat_prompts_app.
      change (chat_prompts (search_request w (text_input w) :: suffix))
        with (chat_prompts suffix).
      rewrite (quiet_chat_prompts _ Hquiet). reflexivity.
Qed.

Lemma malformed_selection_stops_the_run_witness :
  fst (main Examples.w_prose []) = inl JSONDecodeError
  /\ existsb is_load (snd (main Examples.w_prose [])) = false
  /\ List.length (chat_prompts (snd (main Examples.w_prose []))) = 1.
Proof.
  destruct (malformed_selection_stops_the_run Examples.w_prose) as [_ H];
    [discriminate|].
  edestruct H as [H1 [H2 H3]].
  - reflexivity.
  - reflexivity.
  - reflexivity.
  - vm_compute. reflexivity.
  - rewrite H1. repeat split; assumption.
Defined.

(** C5, as the code has it.  When the model client can be built and the
    model answers [reply], [find_the_best_article_urls] returns the value
    [json.loads] reads in [reply], whatever it is (an empty array, or a
    value that is not an array, included), and raises [JSONDecodeError]
    when [reply] is not JSON; the parse has no other outcome. *)
Theorem selector_returns_what_parses : forall w response_data query tr reply,
  has_model_key w = true ->
  chat w tr "gpt-3.5-turbo" (PyInt 1)
       (article_prompt (json_dumps w response_data) query) = Some reply ->
  fst (find_the_best_article_urls w response_data query tr)
  = match loads reply with
    | Some v => inr v
    | None => inl JSONDecodeError
    end.
Proof.
  intros w response_data query tr reply K Hc.
  rewrite find_the_best_article_urls_eq by exact K. cbv zeta. rewrite Hc.
  destruct (loads reply); reflexivity.
Qed.

Lemma selector_returns_what_parses_witness :
  fst (find_the_best_article_urls Examples.w_fine (PyDict []) "electric vehicles" [])
  = inr (PyList [PyStr "https://example.org/ev"]).
Proof.
  rewrite (selector_returns_what_parses Examples.w_fine (PyDict []) "electric vehicles" []
             Examples.one_url); [vm_compute; reflexivity | reflexivity | reflexivity].
Defined.

(** C5 as stated fails: the answer [[]] is JSON, and the selector returns
    an empty list. *)
Lemma selector_returns_empty_list :
  loads "[]" = Some (PyList [])
  /\ fst (find_the_best_article_urls Examples.w_empty_array (PyDict [])
            "electric vehicles" [])
     = inr (PyList []).
Proof. split; vm_compute; reflexivity. Qed.




(** C7, as the code has it.  Nothing is checked at start-up: a run with a
    query begins with the search request, sent with whatever the
    environment holds for the key (nothing, when it is absent).  Without a
    model key the run fails, and no prompt is ever sent; when the search
    stage succeeded, the failure is the [ValidationError] of the first
    model client, raised after the search request. *)
Theorem missing_key_fails_after_the_search : forall w,
  text_input w <> "" ->
  (exists rest, snd (main w []) = search_request w (text_input w) :: rest)
  /\ (has_model_key w = false ->
      (exists e, fst (main w []) = inl e)
      /\ chat_prompts (snd (main w [])) = []
      /\ (forall p1 t1,
            Pipeline.action w Pipeline.Search Pipeline.blank [] = (inr p1, t1) ->
            main w [] = (inl ValidationError, t1))).
Proof.
  intros w Hq.
  assert (Hrun : main w [] = Pipeline.shown
            (match Pipeline.action w Pipeline.Search Pipeline.blank [] with
             | (inr p', tr') =>
                 Pipeline.run w [Pipeline.Select; Pipeline.Fetch; Pipeline.Summarize;
                                 Pipeline.Generate] p' tr'
             | (inl e, tr') => (inl e, tr')
             end)).
  { rewrite main_run by exact Hq. cbn [Pipeline.stages_from]. now rewrite run_cons. }
  split.
  - rewrite Hrun, snd_shown.
    destruct (Pipeline.action w Pipeline.Search Pipeline.blank []) as [[e|p1] t1] eqn:Ha;
      destruct (search_stage_trace w _ _ _ _ Ha) as [suffix [Ht _]]; subst t1.
    + eexists; reflexivity.
    + destruct (extends_run w [Pipeline.Select; Pipeline.Fetch; Pipeline.Summarize;
                               Pipeline.Generate] p1
                  ([] ++ search_request w (text_input w) :: suffix)%list) as [s2 E2].
      rewrite E2. eexists; reflexivity.
  - intro K.
    assert (Hfail : forall p1 t1,
              Pipeline.action w Pipeline.Search Pipeline.blank [] = (inr p1, t1) ->
              main w [] = (inl ValidationError, t1)).
    { intros p1 t1 Ha. rewrite Hrun, Ha, run_cons.
      rewrite (select_stage_no_key w p1 t1 K). reflexivity. }
    destruct (Pipeline.action w Pipeline.Search Pipeline.blank []) as [[e|p1] t1] eqn:Ha.
    + rewrite Hrun. cbn [Pipeline.shown fst snd].
      destruct (search_stage_trace w _ _ _ _ Ha) as [suffix [Ht Hquiet]]. subst t1.
      split; [now exists e|]. split; [|intros; discriminate].
      apply (quiet_chat_prompts _ Hquiet).
    + rewrite (Hfail p1 t1 eq_refl). cbn [fst snd].
      destruct (search_stage_trace w _ _ _ _ Ha) as [suffix [Ht Hquiet]].
      split; [now exists ValidationError|]. split.
      * subst t1. apply (quiet_chat_prompts _ Hquiet).
      * intros p t H. inversion H; subst. reflexivity.
Qed.

Lemma missing_key_fails_after_the_search_witness :
  (exists rest,
     snd (main Examples.w_no_keys [])
     = search_request Examples.w_no_keys "electric vehicles" :: rest)
  /\ (exists e, fst (main Examples.w_no_keys []) = inl e)
  /\ chat_prompts (snd (main Examples.w_no_keys [])) = [].
Proof.
  destruct (missing_key_fails_after_the_search Examples.w_no_keys) as [H1 H2];
    [discriminate|].
  destruct (H2 eq_refl) as [H3 [H4 _]].
  split; [exact H1|]. split; assumption.
Defined.

(** C7 as stated fails: with no key in the environment the search request
    goes out all the same, and the run stops only afterwards, when the
    first model client is built. *)
Lemma no_key_still_sends_the_search :
  environ Examples.w_no_keys "SERPAPI_API_KEY" = None
  /\ environ Examples.w_no_keys "OPENAI_API_KEY" = None
  /\ hd_error (snd (main Examples.w_no_keys []))
     = Some (search_request Examples.w_no_keys "electric vehicles")
  /\ outbound (search_request Examples.w_no_keys "electric vehicles") = true
  /\ fst (main Examples.w_no_keys []) = inl ValidationError.
Proof. repeat split; vm_compute; reflexivity. Qed.

(** C2, as the code has it.  When the model client can be built,
    [generate_reddit_post] sends one prompt, made of the template, of
    [str(summaries)] (the list as Python prints it: brackets, commas, each
    summary quoted and escaped) and of the query, and returns the model's
    answer unchanged. *)
Theorem post_prompt_holds_the_printed_list : forall w summaries query tr,
  has_model_key w = true ->
  snd (generate_reddit_post w summaries query tr)
  = (tr ++ [ChatCompletion "gpt-3.5-turbo" (PyFloat "0.7")
              (post_prompt ("[" ++ join ", " (map repr_str summaries) ++ "]") query)])%list
  /\ fst (generate_reddit_post w summaries query tr)
     = match chat w tr "gpt-3.5-turbo" (PyFloat "0.7")
                  (post_prompt (str_list summaries) query) with
       | Some reply => inr reply
       | None => inl OpenAIError
       end.
Proof.
  intros w summaries query tr K.
  rewrite generate_reddit_post_eq by exact K. cbv zeta. split; reflexivity.
Qed.

Lemma post_prompt_holds_the_printed_list_witness :
  chat_prompts (snd (generate_reddit_post Examples.w_fine ["a"; "b"] "cars" []))
  = [post_prompt "['a', 'b']" "cars"]
  /\ fst (generate_reddit_post Examples.w_fine ["a"; "b"] "cars" []) = inr "Buy one.".
Proof.
  destruct (post_prompt_holds_the_printed_list Examples.w_fine ["a"; "b"] "cars" [])
    as [H1 H2]; [reflexivity|].
  rewrite H1, H2. split; reflexivity.
Defined.

(** C2 as stated fails: the block in the prompt is not the summaries
    joined together; for the one summary [a] it is [['a']]. *)
Lemma post_prompt_is_not_the_joined_text :
  join "" ["a"] = "a"
  /\ chat_prompts (snd (generate_reddit_post Examples.w_fine ["a"] "cars" []))
     = [post_prompt "['a']" "cars"]
  /\ post_prompt "['a']" "cars" <> post_prompt (join "" ["a"]) "cars".
Proof.
  split; [reflexivity|]. split; [vm_compute; reflexivity|].
  vm_compute. intro H. discriminate H.
Qed.

(** C3, as the code has it.  [CharacterTextSplitter] cuts only at the
    separator: a document whose text holds no separator gives one chunk,
    the text stripped of the white space around it, however long it is,
    and no chunk when nothing is left of it.  The chunk count is a
    function of the text. *)
Theorem text_without_separator_is_one_chunk : forall document,
  Splitter.occurs (Splitter.separator text_splitter) (page_content document) = false ->
  Splitter.split_documents text_splitter [document]
  = inr (if String.eqb (strip (page_content document)) "" then []
         else [{| page_content := strip (page_content document);
                  metadata := metadata document |}])
  /\ (forall chunks,
        Splitter.split_documents text_splitter [document] = inr chunks ->
        List.length chunks
        = if String.eqb (strip (page_content document)) "" then 0 else 1).
Proof.
  intros document H.
  assert (E : Splitter.split_documents text_splitter [document]
              = inr (if String.eqb (strip (page_content document)) "" then []
                     else [{| page_content := strip (page_content document);
                              metadata := metadata document |}])).
  { cbn [Splitter.split_documents].
    rewrite (SplitterFacts.split_text_whole text_splitter _ H).
    destruct (String.eqb (strip (page_content document)) ""); reflexivity. }
  split; [exact E|].
  intros chunks Hc. rewrite E in Hc. inversion Hc; subst.
  destruct (String.eqb (strip (page_content document)) ""); reflexivity.
Qed.

Lemma text_without_separator_is_one_chunk_witness :
  Splitter.split_documents text_splitter [Examples.doc "  a b "]
  = inr [Examples.doc "a b"].
Proof.
  destruct (text_without_separator_is_one_chunk (Examples.doc "  a b ")) as [H _];
    [reflexivity|].
  rewrite H. reflexivity.
Defined.

(** C3 as stated fails: a text of 5000 letters without line feed is one
    chunk, where the formula gives two. *)
Lemma long_text_is_one_chunk :
  Splitter.occurs (Splitter.separator text_splitter)
                  (page_content Examples.long_document) = false
  /\ len (page_content Examples.long_document) = 5000%Z
  /\ Splitter.split_documents text_splitter [Examples.long_document]
     = inr [Examples.long_document]
  /\ claimed_chunk_count 5000 (Splitter.chunk_size text_splitter)
                         (Splitter.chunk_overlap text_splitter) = 2%Z.
Proof. repeat split; vm_compute; reflexivity. Qed.

(** C4.  [summarise_content] returns one summary per chunk, in the order
    of the chunks: the list it returns is as long as the list of chunks
    the splitter gives, and its [i]-th item is the answer the model gave,
    in this run, to the prompt made for the [i]-th chunk.  It does return,
    as soon as the model client can be built and the model answers every
    call. *)
Theorem summaries_follow_the_chunks : forall w data query tr,
  (has_model_key w = true ->
   (forall t p, chat w t "gpt-3.5-turbo" (PyFloat "0.7") p <> None) ->
   exists summaries tr', summarise_content w data query tr = (inr summaries, tr'))
  /\ (forall summaries tr',
        summarise_content w data query tr = (inr summaries, tr') ->
        exists chunks,
          Splitter.split_documents text_splitter data = inr chunks
          /\ List.length summaries = List.length chunks
          /\ (forall i chunk,
                nth_error chunks i = Some chunk ->
                exists summary,
                  nth_error summaries i = Some summary
                  /\ answered w tr' query (Z.of_nat i, chunk) summary)).
Proof.
  intros w data query tr.
  destruct (text_splitter_never_raises data) as [chunks Hs].
  split.
  - intros K Hchat. rewrite (summarise_content_eq w _ _ _ _ K Hs).
    destruct (summarise_loop_answers w query Hchat (enumerate chunks) [] tr)
      as [out [tr' E]].
    rewrite E. eauto.
  - intros summaries tr' H. exists chunks. split; [exact Hs|].
    destruct (has_model_key w) eqn:K.
    + rewrite (summarise_content_eq w _ _ _ _ K Hs) in H.
      destruct (summarise_loop w summariser query (enumerate chunks) [] tr)
        as [[e|out] t] eqn:E; [discriminate|].
      inversion H; subst.
      destruct (summarise_loop_ok w _ _ _ _ _ _ E) as [replies [Ho [Hall _]]].
      cbn [app] in Ho. subst replies. split.
      * rewrite <- (Forall2_length Hall). apply length_enumerate_from.
      * intros i chunk Hi.
        apply (nth_error_enumerate_from _ _ 0%Z) in Hi. cbn in Hi.
        destruct (Forall2_nth_error _ _ _ _ _ Hall _ _ Hi) as [summary [Hn Ha]].
        exists summary. split; [exact Hn|]. apply answered_later. exact Ha.
    + destruct (summarise_content_no_key w data query tr K) as [e E].
      rewrite E in H. discriminate.
Qed.

Lemma summaries_follow_the_chunks_witness :
  fst (summarise_content Examples.w_numbering
         [Examples.doc "a"; Examples.doc "b"] "cars" [])
  = inr ["0"; "1"]
  /\ Splitter.split_documents text_splitter [Examples.doc "a"; Examples.doc "b"]
     = inr [Examples.doc "a"; Examples.doc "b"]
  /\ answered Examples.w_numbering
       (snd (summarise_content Examples.w_numbering
               [Examples.doc "a"; Examples.doc "b"] "cars" []))
       "cars" (0%Z, Examples.doc "a") "0"
  /\ answered Examples.w_numbering
       (snd (summarise_content Examples.w_numbering
               [Examples.doc "a"; Examples.doc "b"] "cars" []))
       "cars" (1%Z, Examples.doc "b") "1".
Proof.
  assert (S : Splitter.split_documents text_splitter
                [Examples.doc "a"; Examples.doc "b"]
              = inr [Examples.doc "a"; Examples.doc "b"])
    by (vm_compute; reflexivity).
  destruct (summaries_follow_the_chunks Examples.w_numbering
              [Examples.doc "a"; Examples.doc "b"] "cars" []) as [H1 H2].
  destruct (H1 eq_refl) as [summaries [tr' E]]; [intros t p; discriminate|].
  destruct (H2 summaries tr' E) as [chunks [Hs [Hl Hi]]].
  rewrite S in Hs. injection Hs as <-.
  assert (Es : summaries = ["0"; "1"]).
  { assert (F : fst (summarise_content Examples.w_numbering
                       [Examples.doc "a"; Examples.doc "b"] "cars" [])
                = inr ["0"; "1"]) by (vm_compute; reflexivity).
    rewrite E in F. cbn [fst] in F. now injection F. }
  subst summaries. rewrite E. cbn [fst snd].
  split; [reflexivity|]. split; [exact S|].
  destruct (Hi 0 (Examples.doc "a") eq_refl) as [s0 [N0 A0]].
  destruct (Hi 1 (Examples.doc "b") eq_refl) as [s1 [N1 A1]].
  cbn in N0, N1. injection N0 as <-. injection N1 as <-.
  split; assumption.
Defined.

(** C1: what the code does at the failing input.  For the one chunk [a]
    and the query [cars], the one prompt sent has, in the place of
    [{text}], the pair made by [enumerate] as Python prints it, index and
    [Document] included, and not the text [a] of the chunk. *)
Theorem summary_prompt_holds_the_enumerate_pair :
  chat_prompts (snd (summarise_content Examples.w_fine [Examples.doc "a"] "cars" []))
  = [summary_prompt "(0, Document(page_content='a', metadata={}))" "cars"]
  /\ summary_prompt "(0, Document(page_content='a', metadata={}))" "cars"
     <> summary_prompt "a" "cars".
Proof.
  split; [vm_compute; reflexivity|].
  vm_compute. intro H. discriminate H.
Qed.


(* ================================================================== *)
(** ** More facts about runs *)
(* ================================================================== *)

(** *** What a computation adds to the trace *)

Lemma adds_ret : forall (A : Type) (P : Event -> Prop) (a : A), adds P (ret a).
Proof. intros A P a tr. exists []. cbn. now rewrite app_nil_r. Qed.

Lemma adds_raise : forall (A : Type) (P : Event -> Prop) (e : PyError),
  adds P (@raise A e).
Proof. intros A P e tr. exists []. cbn. now rewrite app_nil_r. Qed.

Lemma adds_lift : forall (A : Type) (P : Event -> Prop) (r : PyError + A),
  adds P (lift r).
Proof. intros A P r tr. exists []. cbn. now rewrite app_nil_r. Qed.

Lemma adds_emit : forall (P : Event -> Prop) e, P e -> adds P (emit e).
Proof. intros P e H tr. exists [e]. split; [reflexivity | now constructor]. Qed.

Lemma adds_bind : forall (A B : Type) (P : Event -> Prop) (m : M A) (k : A -> M B),
  adds P m -> (forall a, adds P (k a)) -> adds P (bind m k).
Proof.
  intros A B P m k Hm Hk tr. destruct (Hm tr) as [s1 [E1 F1]]. unfold bind.
  destruct (m tr) as [[e|a] tr1]; cbn in E1; subst tr1.
  - now exists s1.
  - destruct (Hk a (tr ++ s1)%list) as [s2 [E2 F2]]. exists (s1 ++ s2)%list.
    split; [now rewrite E2, app_assoc | now apply Forall_app].
Qed.

Lemma adds_weaken : forall (A : Type) (P Q : Event -> Prop) (m : M A),
  (forall e, P e -> Q e) -> adds P m -> adds Q m.
Proof.
  intros A P Q m H Hm tr. destruct (Hm tr) as [s [E F]]. exists s.
  split; [exact E | eapply Forall_impl; eassumption].
Qed.

Ltac adds_tac :=
  cbv zeta;
  repeat first
    [ apply adds_ret | apply adds_raise | apply adds_lift
    | apply adds_emit
    | apply adds_bind; [|intro] ].

Lemma adds_feedback_item : forall P fb i, adds P (feedback_item fb i).
Proof.
  intros P fb i. unfold feedback_item.
  destruct fb as [l|]; [destruct (nth_error l i)|]; adds_tac.
Qed.

(** The progress bar stays in the process. *)
Lemma adds_progress_bar : forall fb t,
  adds (fun e => outbound e = false) (progress_bar fb t).
Proof.
  intros fb t. unfold progress_bar.
  repeat first [ apply adds_feedback_item | apply adds_emit; reflexivity
               | apply adds_bind; [|intro] ].
Qed.

Section Stages.
Variable w : World.
Import Pipeline.

Lemma adds_search_for_articles : forall q,
  adds (fun e => e = search_request w q) (search_for_articles w q).
Proof.
  intros q tr. exists [search_request w q].
  rewrite search_for_articles_eq. split; [reflexivity | now constructor].
Qed.

Lemma adds_new_ChatOpenAI : forall P m t, adds P (new_ChatOpenAI w m t).
Proof.
  intros P m t. unfold new_ChatOpenAI.
  destruct (environ w "OPENAI_API_KEY") as [[|c k]|]; adds_tac.
Qed.

Lemma adds_predict : forall chain kw,
  adds (fun e => exists p, e = ChatCompletion (llm_model_name (chain_llm chain))
                                              (llm_temperature (chain_llm chain)) p)
       (predict w chain kw).
Proof.
  intros chain kw. unfold predict. apply adds_bind; [apply adds_lift|].
  intros p tr. eexists. split.
  - destruct (chat w tr _ _ p); reflexivity.
  - constructor; [eauto | constructor].
Qed.

Lemma adds_json_loads : forall P s, adds P (json_loads s).
Proof. intros P s. unfold json_loads. destruct (loads s); adds_tac. Qed.

Lemma adds_find_the_best_article_urls : forall sr q,
  adds (stage_event w Select) (find_the_best_article_urls w sr q).
Proof.
  intros sr q tr. destruct (has_model_key w) eqn:K.
  - rewrite find_the_best_article_urls_eq by exact K. cbv zeta.
    assert (C : forall p, stage_event w Select (ChatCompletion "gpt-3.5-turbo" (PyInt 1) p))
      by (intro p; right; cbn; eauto).
    destruct (chat w tr "gpt-3.5-turbo" (PyInt 1) _) as [reply|];
      [destruct (loads reply)|]; cbn [snd]; repeat rewrite <- app_assoc;
      (eexists; split; [reflexivity|]);
      repeat first [apply Forall_nil | apply Forall_cons; [first [apply C | now left]|]].
  - rewrite find_the_best_article_urls_no_key by exact K. exists [].
    split; [cbn; now rewrite app_nil_r | constructor].
Qed.

Lemma adds_get_content_from_urls : forall urls,
  adds (stage_event w Fetch) (get_content_from_urls w urls).
Proof.
  intros urls tr. exists [UrlLoad urls]. split.
  - unfold get_content_from_urls. destruct (load_urls w tr urls); reflexivity.
  - constructor; [right; cbn; eauto | constructor].
Qed.

Lemma adds_summarise_loop : forall q pairs acc,
  adds (stage_event w Summarize) (summarise_loop w summariser q pairs acc).
Proof.
  intros q pairs. induction pairs as [|chunk rest IH]; intro acc; cbn [summarise_loop].
  - apply adds_ret.
  - apply adds_bind; [apply adds_emit; left; reflexivity|]. intros _.
    apply adds_bind; [|intro; apply IH].
    eapply adds_weaken; [|apply adds_predict]. intros e [p ->]. right. cbn. eauto.
Qed.

Lemma adds_summarise_content : forall data q,
  adds (stage_event w Summarize) (summarise_content w data q).
Proof.
  intros data q tr. destruct (has_model_key w) eqn:K.
  - destruct (text_splitter_never_raises data) as [chunks S].
    rewrite (summarise_content_eq w _ _ _ _ K S).
    destruct (adds_summarise_loop q (enumerate chunks) [] tr) as [suffix [E F]].
    destruct (summarise_loop w summariser q (enumerate chunks) [] tr) as [[e|s] t];
      cbn [snd] in *; subst t.
    + now exists suffix.
    + exists (suffix ++ [Print (str_list s)])%list. split; [now rewrite app_assoc|].
      apply Forall_app. split; [exact F|]. constructor; [now left | constructor].
  - destruct (summarise_content_no_key w data q tr K) as [e E]. rewrite E.
    exists []. split; [cbn; now rewrite app_nil_r | constructor].
Qed.

Lemma adds_generate_reddit_post : forall summaries q,
  adds (stage_event w Generate) (generate_reddit_post w summaries q).
Proof.
  intros summaries q tr. destruct (has_model_key w) eqn:K.
  - rewrite generate_reddit_post_eq by exact K. cbv zeta. cbn [snd].
    eexists. split; [reflexivity|]. constructor; [right; cbn; eauto | constructor].
  - rewrite generate_reddit_post_no_key by exact K. exists [].
    split; [cbn; now rewrite app_nil_r | constructor].
Qed.

(** A stage adds events of its own kind only. *)
Lemma adds_action : forall s p, adds (stage_event w s) (action w s p).
Proof.
  assert (B : forall s key, adds (stage_event w s) (progress_bar (progress_bar_map w key) 20)).
  { intros s key. eapply adds_weaken; [|apply adds_progress_bar].
    intros e H. now left. }
  intros s p. destruct s; unfold action; cbv zeta;
    (apply adds_bind;
     [|intro; apply adds_bind; [apply B | intro; apply adds_ret]]).
  - eapply adds_weaken; [|apply adds_search_for_articles]. intros e ->. now right.
  - apply adds_find_the_best_article_urls.
  - apply adds_get_content_from_urls.
  - apply adds_summarise_content.
  - apply adds_generate_reddit_post.
Qed.

(** A run of stages adds events of those stages only. *)
Lemma adds_run : forall stages p,
  adds (fun e => exists s, In s stages /\ stage_event w s e) (run w stages p).
Proof.
  induction stages as [|s rest IH]; intro p; cbn [run].
  - apply adds_ret.
  - apply adds_bind.
    + eapply adds_weaken; [|apply adds_action]. intros e H. exists s. split; [now left|exact H].
    + intro p'. eapply adds_weaken; [|apply IH]. intros e [s' [Hin H]].
      exists s'. split; [now right | exact H].
Qed.

End Stages.

(** *** Calls on a trace *)

Lemma outbound_calls_app : forall a b,
  outbound_calls (a ++ b) = (outbound_calls a ++ outbound_calls b)%list.
Proof. intros. apply filter_app. Qed.

Lemma quiet_outbound_calls : forall tr,
  existsb outbound tr = false -> outbound_calls tr = [].
Proof.
  induction tr as [|e r IH]; intro H; [reflexivity|].
  cbn in H. apply orb_false_elim in H as [He Hr].
  unfold outbound_calls. cbn [filter]. rewrite He. now apply IH.
Qed.

Lemma Forall_filter_none : forall (f : Event -> bool) l,
  Forall (fun e => f e = false) l -> filter f l = [].
Proof.
  intros f l H. induction H as [|e r He _ IH]; [reflexivity|].
  cbn [filter]. now rewrite He.
Qed.

Lemma quiet_Forall : forall tr,
  existsb outbound tr = false -> Forall (fun e => outbound e = false) tr.
Proof.
  induction tr as [|e r IH]; intro H; [constructor|].
  cbn in H. apply orb_false_elim in H as [He Hr]. constructor; auto.
Qed.

Section Runs.
Variable w : World.
Import Pipeline.

(** *** What a stage that succeeded did *)

Lemma select_stage_success : forall p tr p' tr',
  action w Select p tr = (inr p', tr') ->
  exists reply suffix,
    chat w tr "gpt-3.5-turbo" (PyInt 1)
         (article_prompt (json_dumps w (shown_search_results p)) (text_input w))
    = Some reply
    /\ loads reply = Some (shown_urls p')
    /\ tr' = (tr ++ article_call w (shown_search_results p) (text_input w) :: suffix)%list
    /\ existsb outbound suffix = false.
Proof.
  intros p tr p' tr' H. unfold action in H. unfold bind at 1 in H.
  destruct (has_model_key w) eqn:K.
  - rewrite find_the_best_article_urls_eq in H by exact K. cbv zeta in H.
    destruct (chat w tr "gpt-3.5-turbo" (PyInt 1) _) as [reply|] eqn:C; [|discriminate].
    destruct (loads reply) as [v|] eqn:L; [|discriminate].
    unfold bind, ret in H.
    match type of H with
    | context [progress_bar ?fb ?t ?tr0] =>
        destruct (progress_bar_quiet fb t tr0) as [suffix [Hs Hq]]
    end.
    destruct (progress_bar _ 20 _) as [[e|[]] t]; [discriminate|].
    cbn [snd] in Hs. inversion H; subst. cbn [shown_urls].
    exists reply, (Print (Json.str (float_repr w) v) :: suffix).
    split; [reflexivity|]. split; [exact L|]. split.
    + unfold article_call. repeat rewrite <- app_assoc. reflexivity.
    + exact Hq.
  - rewrite find_the_best_article_urls_no_key in H by exact K. discriminate.
Qed.

Lemma fetch_stage_trace : forall p tr out tr',
  action w Fetch p tr = (out, tr') ->
  exists suffix,
    tr' = (tr ++ UrlLoad (shown_urls p) :: suffix)%list
    /\ existsb outbound suffix = false.
Proof.
  intros p tr out tr' H. unfold action in H. unfold bind at 1 in H.
  unfold get_content_from_urls in H.
  destruct (load_urls w tr (shown_urls p)) as [data|].
  - unfold bind, ret in H.
    match type of H with
    | context [progress_bar ?fb ?t ?tr0] =>
        destruct (progress_bar_quiet fb t tr0) as [suffix [Hs Hq]]
    end.
    destruct (progress_bar _ 20 _) as [[e|[]] t]; cbn [snd] in Hs;
      inversion H; subst; exists suffix; rewrite <- app_assoc; split; trivial.
  - inversion H; subst. exists []. split; reflexivity.
Qed.

Lemma fetch_stage_success : forall p tr p' tr',
  action w Fetch p tr = (inr p', tr') ->
  load_urls w tr (shown_urls p) = Some (shown_data p').
Proof.
  intros p tr p' tr' H. unfold action in H. unfold bind at 1 in H.
  unfold get_content_from_urls in H.
  destruct (load_urls w tr (shown_urls p)) as [data|]; [|discriminate].
  unfold bind, ret in H. destruct (progress_bar _ 20 _) as [[e|[]] t]; [discriminate|].
  inversion H; subst. reflexivity.
Qed.

Lemma fetch_stage_failure : forall p tr,
  load_urls w tr (shown_urls p) = None ->
  action w Fetch p tr = (inl LoaderError, (tr ++ [UrlLoad (shown_urls p)])%list).
Proof.
  intros p tr H. unfold action. unfold bind at 1.
  unfold get_content_from_urls. rewrite H. reflexivity.
Qed.

Lemma summarise_loop_calls : forall query pairs acc tr out tr',
  summarise_loop w summariser query pairs acc tr = (inr out, tr') ->
  outbound_calls tr'
  = (outbound_calls tr ++ map (summary_call w query) pairs)%list.
Proof.
  intros query pairs. induction pairs as [|chunk rest IH]; intros acc tr out tr' H.
  - cbn in H. inversion H; subst. cbn. now rewrite app_nil_r.
  - cbn [summarise_loop] in H. unfold bind at 1 in H. unfold print, emit in H.
    unfold bind at 1 in H.
    erewrite predict_eq in H by (cbn [chain_prompt summariser]; apply format_summary_prompt).
    cbn [chain_llm summariser llm_model_name llm_temperature] in H.
    destruct (chat w _ "gpt-3.5-turbo" (PyFloat "0.7") _) as [reply|]; [|discriminate].
    apply IH in H. rewrite H, !outbound_calls_app. cbn.
    rewrite app_nil_r, <- app_assoc. reflexivity.
Qed.

Lemma summarize_stage_success : forall p tr p' tr',
  action w Summarize p tr = (inr p', tr') ->
  exists chunks,
    Splitter.split_documents text_splitter (shown_data p) = inr chunks
    /\ List.length (shown_summaries p') = List.length chunks
    /\ outbound_calls tr'
       = (outbound_calls tr
          ++ map (summary_call w (text_input w)) (enumerate chunks))%list.
Proof.
  intros p tr p' tr' H. unfold action in H. unfold bind at 1 in H.
  destruct (text_splitter_never_raises (shown_data p)) as [chunks S].
  exists chunks. split; [exact S|].
  destruct (has_model_key w) eqn:K.
  - rewrite (summarise_content_eq w _ _ _ _ K S) in H.
    destruct (summarise_loop w summariser (text_input w) (enumerate chunks) [] tr)
      as [[e|out] t] eqn:E; [discriminate|].
    unfold bind, ret in H.
    match type of H with
    | context [progress_bar ?fb ?t0 ?tr0] =>
        destruct (progress_bar_quiet fb t0 tr0) as [suffix [Hs Hq]]
    end.
    destruct (progress_bar _ 20 _) as [[e|[]] t0]; [discriminate|].
    cbn [snd] in Hs. inversion H; subst. cbn [shown_summaries].
    destruct (summarise_loop_ok w _ _ _ _ _ _ E) as [replies [Ho [Hall _]]].
    cbn [app] in Ho. subst replies. split.
    + rewrite <- (Forall2_length Hall). apply length_enumerate_from.
    + rewrite !outbound_calls_app, (summarise_loop_calls _ _ _ _ _ _ E).
      rewrite (quiet_outbound_calls _ Hq). cbn. now rewrite !app_nil_r.
  - destruct (summarise_content_no_key w (shown_data p) (text_input w) tr K) as [e E].
    rewrite E in H. discriminate.
Qed.

Lemma generate_stage_trace : forall p tr p' tr',
  action w Generate p tr = (inr p', tr') ->
  exists suffix,
    tr' = (tr ++ post_call (shown_summaries p) (text_input w) :: suffix)%list
    /\ existsb outbound suffix = false.
Proof.
  intros p tr p' tr' H. unfold action in H. unfold bind at 1 in H.
  destruct (has_model_key w) eqn:K.
  - rewrite generate_reddit_post_eq in H by exact K. cbv zeta in H.
    destruct (chat w tr "gpt-3.5-turbo" (PyFloat "0.7") _) as [reply|]; [|discriminate].
    unfold bind, ret in H.
    match type of H with
    | context [progress_bar ?fb ?t ?tr0] =>
        destruct (progress_bar_quiet fb t tr0) as [suffix [Hs Hq]]
    end.
    destruct (progress_bar _ 20 _) as [[e|[]] t]; [discriminate|].
    cbn [snd] in Hs. inversion H; subst. exists suffix.
    rewrite <- app_assoc. split; trivial.
  - rewrite generate_reddit_post_no_key in H by exact K. discriminate.
Qed.

(** A stage that succeeds changes the value it produces and no other. *)
Lemma action_keeps : forall s p tr p' tr',
  action w s p tr = (inr p', tr') ->
  (s <> Search -> shown_search_results p' = shown_search_results p)
  /\ (s <> Select -> shown_urls p' = shown_urls p)
  /\ (s <> Fetch -> shown_data p' = shown_data p)
  /\ (s <> Summarize -> shown_summaries p' = shown_summaries p)
  /\ (s <> Generate -> post p' = post p).
Proof.
  intros s p tr p' tr' H.
  destruct s; unfold action in H; unfold bind, ret in H;
    match type of H with
    | context [match ?m tr with _ => _ end] => destruct (m tr) as [[e|v] t]
    end; try discriminate;
    destruct (progress_bar _ 20 _) as [[e|[]] t0]; try discriminate;
    inversion H; subst; cbn; repeat split; intro N; congruence.
Qed.

(** The five stages of a run that succeeded. *)
Lemma main_success_stages : forall panels tr,
  main w [] = (inr (Some panels), tr) ->
  exists p1 t1 p2 t2 p3 t3 p4 t4,
    action w Search blank [] = (inr p1, t1)
    /\ action w Select p1 t1 = (inr p2, t2)
    /\ action w Fetch p2 t2 = (inr p3, t3)
    /\ action w Summarize p3 t3 = (inr p4, t4)
    /\ action w Generate p4 t4 = (inr panels, tr).
Proof.
  intros panels tr H.
  assert (Hq : text_input w <> "").
  { intro Hq. unfold main in H. rewrite Hq in H. discriminate. }
  rewrite main_run in H by exact Hq. cbn [stages_from] in H.
  rewrite run_cons in H.
  destruct (action w Search blank []) as [[e|p1] t1] eqn:E1; [discriminate|].
  rewrite run_cons in H.
  destruct (action w Select p1 t1) as [[e|p2] t2] eqn:E2; [discriminate|].
  rewrite run_cons in H.
  destruct (action w Fetch p2 t2) as [[e|p3] t3] eqn:E3; [discriminate|].
  rewrite run_cons in H.
  destruct (action w Summarize p3 t3) as [[e|p4] t4] eqn:E4; [discriminate|].
  rewrite run_cons in H.
  destruct (action w Generate p4 t4) as [[e|p5] t5] eqn:E5; [discriminate|].
  cbn in H. inversion H; subst.
  exists p1, t1, p2, t2, p3, t3, p4, t4. repeat split; assumption.
Qed.

End Runs.

(* ================================================================== *)
(** ** Further properties of the program *)
(* ================================================================== *)



(** X3.  A key missing from [progress_bar_map] stops a run whose search
    went well: when the table has no messages for [search_for_articles],
    the run ends with [TypeError] right after the search request, once the
    status box is open; the result of the search is lost and no prompt is
    sent. *)
Theorem missing_messages_stop_the_run : forall w response v,
  text_input w <> "" ->
  http w [] "POST" search_url (search_headers w) (search_payload (text_input w))
  = Some response ->
  loads (text response) = Some v ->
  progress_bar_map w "search_for_articles" = None ->
  main w []
  = (inl TypeError,
     [search_request w (text_input w); StStatus "AI models hard at work"]).
Proof.
  intros w response v Hq Hh Hl Hf.
  rewrite main_run by exact Hq. cbn [Pipeline.stages_from]. rewrite run_cons.
  unfold Pipeline.action. unfold bind at 1.
  rewrite search_for_articles_eq, Hh, Hl, Hf. reflexivity.
Qed.

Lemma missing_messages_stop_the_run_witness :
  main Examples.w_no_messages []
  = (inl TypeError,
     [search_request Examples.w_no_messages "electric vehicles";
      StStatus "AI models hard at work"]).
Proof.
  apply (missing_messages_stop_the_run Examples.w_no_messages Examples.ok_response
           (PyDict []));
    [discriminate | reflexivity | reflexivity | reflexivity].
Defined.

(** *** The calls of a run *)

Lemma Stage_eq_dec : forall a b : Pipeline.Stage, {a = b} + {a <> b}.
Proof. decide equality. Defined.

Section RunCalls.
Variable w : World.
Import Pipeline.

Lemma stage_event_run_event : forall s e, stage_event w s e -> run_event w e.
Proof.
  intros s e [H|H].
  - destruct e; cbn in H; try discriminate; exact I.
  - destruct s; cbn in H.
    + subst e. reflexivity.
    + destruct H as [p ->]. cbn. auto.
    + destruct H as [u ->]. exact I.
    + destruct H as [p ->]. cbn. auto.
    + destruct H as [p ->]. cbn. auto.
Qed.

Lemma stage_event_not_http : forall s e,
  s <> Search -> stage_event w s e -> is_http e = false.
Proof.
  intros s e Hs [H|H].
  - destruct e; cbn in H; try discriminate; reflexivity.
  - destruct s; cbn in H; try congruence;
      destruct H as [x ->]; reflexivity.
Qed.

Lemma stage_event_not_load : forall s e,
  s <> Fetch -> stage_event w s e -> is_load e = false.
Proof.
  intros s e Hs [H|H].
  - destruct e; cbn in H; try discriminate; reflexivity.
  - destruct s; cbn in H; try congruence.
    + subst e. reflexivity.
    + destruct H as [x ->]; reflexivity.
    + destruct H as [x ->]; reflexivity.
    + destruct H as [x ->]; reflexivity.
Qed.

(** A stage loads at most once, and only the fetch stage loads. *)
Lemma action_loads : forall s p tr,
  exists suffix,
    snd (action w s p tr) = (tr ++ suffix)%list
    /\ (s <> Fetch -> filter is_load suffix = [])
    /\ List.length (filter is_load suffix) <= 1.
Proof.
  intros s p tr.
  assert (Q : forall l, existsb outbound l = false -> filter is_load l = []).
  { intros l Hl. apply Forall_filter_none.
    eapply Forall_impl; [|apply quiet_Forall; exact Hl].
    intros e He. destruct e; cbn in He; try discriminate; reflexivity. }
  destruct (Stage_eq_dec s Fetch) as [->|Hs].
  - destruct (action w Fetch p tr) as [out tr'] eqn:E.
    destruct (fetch_stage_trace w _ _ _ _ E) as [suffix [-> Hq]].
    exists (UrlLoad (shown_urls p) :: suffix). cbn [snd filter is_load].
    rewrite (Q _ Hq). repeat split; [congruence | cbn; lia].
  - destruct (adds_action w s p tr) as [suffix [E F]]. exists suffix.
    assert (N : filter is_load suffix = []).
    { apply Forall_filter_none. eapply Forall_impl; [|exact F].
      intros e. apply stage_event_not_load. exact Hs. }
    rewrite N. repeat split; [exact E | cbn; lia].
Qed.

Lemma run_loads : forall stages p tr,
  exists suffix,
    snd (run w stages p tr) = (tr ++ suffix)%list
    /\ (~ In Fetch stages -> filter is_load suffix = [])
    /\ (NoDup stages -> List.length (filter is_load suffix) <= 1).
Proof.
  induction stages as [|s rest IH]; intros p tr.
  - exists []. cbn. rewrite app_nil_r. repeat split; intros; cbn; lia.
  - rewrite run_cons. destruct (action_loads s p tr) as [s1 [E1 [N1 L1]]].
    destruct (action w s p tr) as [[e|p'] tr'] eqn:E; cbn [snd] in E1; subst tr'.
    + exists s1. repeat split; trivial.
      intro Hn. apply N1. intro. subst. apply Hn. now left.
    + destruct (IH p' (tr ++ s1)%list) as [s2 [E2 [N2 L2]]].
      exists (s1 ++ s2)%list. split; [now rewrite E2, app_assoc|].
      rewrite filter_app. split.
      * intro Hn. rewrite N1, N2; trivial.
        -- intro Hi. apply Hn. now right.
        -- intro. subst. apply Hn. now left.
      * intro Hd. inversion Hd as [|x l Hx Hl]; subst.
        rewrite length_app.
        destruct (Stage_eq_dec s Fetch) as [->|Hs].
        -- rewrite (N2 Hx). cbn. lia.
        -- rewrite (N1 Hs). cbn. now apply L2.
Qed.

End RunCalls.

(** X4.  Whatever happens in a run with a query, the search provider is
    called exactly once, with the search request; every call to the model
    goes to [gpt-3.5-turbo] with temperature 1 or 0.7; and the loader is
    called at most once. *)
Theorem calls_of_any_run : forall w,
  text_input w <> "" ->
  filter is_http (snd (main w [])) = [search_request w (text_input w)]
  /\ Forall (run_event w) (snd (main w []))
  /\ List.length (filter is_load (snd (main w []))) <= 1.
Proof.
  intros w Hq. rewrite main_run by exact Hq. rewrite snd_shown.
  split; [|split].
  - cbn [Pipeline.stages_from]. rewrite run_cons.
    destruct (Pipeline.action w Pipeline.Search Pipeline.blank []) as [[e|p1] t1] eqn:E;
      destruct (search_stage_trace w _ _ _ _ E) as [suffix [-> Hquiet]];
      assert (Hs : filter is_http suffix = [])
        by (apply Forall_filter_none;
            eapply Forall_impl; [|apply quiet_Forall; exact Hquiet];
            intros x Hx; destruct x; cbn in Hx; try discriminate; reflexivity).
    + cbn. now rewrite Hs.
    + destruct (adds_run w [Pipeline.Select; Pipeline.Fetch; Pipeline.Summarize;
                            Pipeline.Generate] p1
                  ([] ++ search_request w (text_input w) :: suffix)%list)
        as [more [Em Fm]].
      rewrite Em.
      change (filter is_http
                (([] ++ search_request w (text_input w) :: suffix) ++ more))
        with (search_request w (text_input w) :: filter is_http (suffix ++ more)).
      rewrite filter_app, Hs. cbn [app]. f_equal.
      apply Forall_filter_none. eapply Forall_impl; [|exact Fm].
      intros x [s [Hin Hx]]. apply (stage_event_not_http w s); [|exact Hx].
      intro. subst s. cbn in Hin. intuition discriminate.
  - destruct (adds_run w (Pipeline.stages_from Pipeline.Search) Pipeline.blank [])
      as [suffix [E F]].
    rewrite E. cbn [app]. eapply Forall_impl; [|exact F].
    intros x [s [_ Hx]]. eapply stage_event_run_event; exact Hx.
  - destruct (run_loads w (Pipeline.stages_from Pipeline.Search) Pipeline.blank [])
      as [suffix [E [_ L]]].
    rewrite E. cbn [app]. apply L.
    cbn. repeat constructor; cbn; intuition discriminate.
Qed.

Lemma calls_of_any_run_witness :
  filter is_http (snd (main Examples.w_prose []))
  = [search_request Examples.w_prose "electric vehicles"]
  /\ Forall (run_event Examples.w_prose) (snd (main Examples.w_prose []))
  /\ List.length (filter is_load (snd (main Examples.w_prose []))) <= 1.
Proof. apply (calls_of_any_run Examples.w_prose). discriminate. Defined.

(** X5.  A run that succeeds makes these calls, in this order, and no
    other: the search request, the selector's prompt made of the search
    results shown, the load of the urls shown, one summary prompt per
    chunk of the data shown, and the post prompt made of the summaries
    shown.  With [n] chunks that is [n + 4] calls. *)
Theorem calls_of_a_successful_run : forall w panels tr,
  main w [] = (inr (Some panels), tr) ->
  exists chunks,
    Splitter.split_documents text_splitter (shown_data panels) = inr chunks
    /\ outbound_calls tr
       = (search_request w (text_input w)
          :: article_call w (shown_search_results panels) (text_input w)
          :: UrlLoad (shown_urls panels)
          :: map (summary_call w (text_input w)) (enumerate chunks)
          ++ [post_call (shown_summaries panels) (text_input w)])%list
    /\ List.length (outbound_calls tr) = List.length chunks + 4.
Proof.
  intros w panels tr H.
  destruct (main_success_stages w panels tr H)
    as [p1 [t1 [p2 [t2 [p3 [t3 [p4 [t4 [E1 [E2 [E3 [E4 E5]]]]]]]]]]]].
  destruct (search_stage_trace w _ _ _ _ E1) as [s1 [-> Q1]].
  destruct (select_stage_success w _ _ _ _ E2) as [reply [s2 [_ [_ [-> Q2]]]]].
  destruct (fetch_stage_trace w _ _ _ _ E3) as [s3 [-> Q3]].
  destruct (summarize_stage_success w _ _ _ _ E4) as [chunks [S [_ C4]]].
  destruct (generate_stage_trace w _ _ _ _ E5) as [s5 [-> Q5]].
  destruct (action_keeps w _ _ _ _ _ E2) as [K21 _].
  destruct (action_keeps w _ _ _ _ _ E3) as [K31 [K32 _]].
  destruct (action_keeps w _ _ _ _ _ E4) as [K41 [K42 [K43 _]]].
  destruct (action_keeps w _ _ _ _ _ E5) as [K51 [K52 [K53 [K54 _]]]].
  assert (D : shown_data panels = shown_data p3)
    by (rewrite K53, K43 by discriminate; reflexivity).
  assert (U : shown_urls panels = shown_urls p2)
    by (rewrite K52, K42, K32 by discriminate; reflexivity).
  assert (R : shown_search_results panels = shown_search_results p1)
    by (rewrite K51, K41, K31, K21 by discriminate; reflexivity).
  assert (Su : shown_summaries panels = shown_summaries p4)
    by (rewrite K54 by discriminate; reflexivity).
  exists chunks. rewrite D, U, R, Su.
  assert (C : outbound_calls
                (t4 ++ post_call (shown_summaries p4) (text_input w) :: s5)
              = (search_request w (text_input w)
                 :: article_call w (shown_search_results p1) (text_input w)
                 :: UrlLoad (shown_urls p2)
                 :: map (summary_call w (text_input w)) (enumerate chunks)
                 ++ [post_call (shown_summaries p4) (text_input w)])%list).
  { rewrite outbound_calls_app, C4, !outbound_calls_app.
    change (outbound_calls (post_call (shown_summaries p4) (text_input w) :: s5))
      with (post_call (shown_summaries p4) (text_input w) :: outbound_calls s5).
    change (outbound_calls (UrlLoad (shown_urls p2) :: s3))
      with (UrlLoad (shown_urls p2) :: outbound_calls s3).
    change (outbound_calls
              (article_call w (shown_search_results p1) (text_input w) :: s2))
      with (article_call w (shown_search_results p1) (text_input w)
            :: outbound_calls s2).
    change (outbound_calls (search_request w (text_input w) :: s1))
      with (search_request w (text_input w) :: outbound_calls s1).
    rewrite (quiet_outbound_calls _ Q1), (quiet_outbound_calls _ Q2),
      (quiet_outbound_calls _ Q3), (quiet_outbound_calls _ Q5).
    cbn [app outbound_calls filter]. repeat rewrite <- app_assoc. reflexivity. }
  split; [exact S|]. split; [exact C|].
  rewrite C. cbn [List.length]. unfold enumerate.
  rewrite length_app, length_map, length_enumerate_from.
  cbn. lia.
Qed.

Lemma calls_of_a_successful_run_witness :
  exists chunks,
    Splitter.split_documents text_splitter [Examples.doc "a"] = inr chunks
    /\ List.length (outbound_calls (snd (main Examples.w_fine []))) = List.length chunks + 4.
Proof.
  destruct (calls_of_a_successful_run Examples.w_fine
              {| shown_search_results := PyDict [];
                 shown_urls := PyList [PyStr "https://example.org/ev"];
                 shown_data := [Examples.doc "a"];
                 shown_summaries := ["Buy one."];
                 post := "Buy one." |}
              (snd (main Examples.w_fine [])))
    as [chunks [S [_ L]]]; [vm_compute; reflexivity|].
  exists chunks. split; assumption.
Defined.

(** X6.  In a run that succeeds each panel shows the value that went from
    one stage to the next: the search results are the parsed body of the
    response, the urls are the parsed answer of the model to the prompt
    made of those results, the data are what the loader returned for those
    urls, and there are as many summaries as the data have chunks. *)
Theorem panels_show_what_went_through : forall w panels tr,
  main w [] = (inr (Some panels), tr) ->
  exists response reply before_selection before_load chunks,
    http w [] "POST" search_url (search_headers w) (search_payload (text_input w))
    = Some response
    /\ loads (text response) = Some (shown_search_results panels)
    /\ chat w before_selection "gpt-3.5-turbo" (PyInt 1)
            (article_prompt (json_dumps w (shown_search_results panels)) (text_input w))
       = Some reply
    /\ loads reply = Some (shown_urls panels)
    /\ load_urls w before_load (shown_urls panels) = Some (shown_data panels)
    /\ Splitter.split_documents text_splitter (shown_data panels) = inr chunks
    /\ List.length (shown_summaries panels) = List.length chunks.
Proof.
  intros w panels tr H.
  destruct (main_success_stages w panels tr H)
    as [p1 [t1 [p2 [t2 [p3 [t3 [p4 [t4 [E1 [E2 [E3 [E4 E5]]]]]]]]]]]].
  destruct (search_stage_result w _ _ _ _ E1) as [response [Hh Hl]].
  destruct (select_stage_success w _ _ _ _ E2) as [reply [s2 [Hc [Hr _]]]].
  pose proof (fetch_stage_success w _ _ _ _ E3) as Hd.
  destruct (summarize_stage_success w _ _ _ _ E4) as [chunks [S [L _]]].
  destruct (action_keeps w _ _ _ _ _ E2) as [K21 _].
  destruct (action_keeps w _ _ _ _ _ E3) as [K31 [K32 _]].
  destruct (action_keeps w _ _ _ _ _ E4) as [K41 [K42 [K43 _]]].
  destruct (action_keeps w _ _ _ _ _ E5) as [K51 [K52 [K53 [K54 _]]]].
  assert (D : shown_data panels = shown_data p3)
    by (rewrite K53, K43 by discriminate; reflexivity).
  assert (U : shown_urls panels = shown_urls p2)
    by (rewrite K52, K42, K32 by discriminate; reflexivity).
  assert (R : shown_search_results panels = shown_search_results p1)
    by (rewrite K51, K41, K31, K21 by discriminate; reflexivity).
  assert (Su : shown_summaries panels = shown_summaries p4)
    by (rewrite K54 by discriminate; reflexivity).
  exists response, reply, t1, t2, chunks. rewrite D, U, R, Su.
  repeat split; assumption.
Qed.

Lemma panels_show_what_went_through_witness :
  exists response reply before_selection before_load chunks,
    http Examples.w_fine [] "POST" search_url (search_headers Examples.w_fine)
         (search_payload "electric vehicles") = Some response
    /\ loads (text response) = Some (PyDict [])
    /\ chat Examples.w_fine before_selection "gpt-3.5-turbo" (PyInt 1)
            (article_prompt (json_dumps Examples.w_fine (PyDict [])) "electric vehicles")
       = Some reply
    /\ loads reply = Some (PyList [PyStr "https://example.org/ev"])
    /\ load_urls Examples.w_fine before_load (PyList [PyStr "https://example.org/ev"])
       = Some [Examples.doc "a"]
    /\ Splitter.split_documents text_splitter [Examples.doc "a"] = inr chunks
    /\ List.length ["Buy one."] = List.length chunks.
Proof.
  apply (panels_show_what_went_through Examples.w_fine
           {| shown_search_results := PyDict [];
              shown_urls := PyList [PyStr "https://example.org/ev"];
              shown_data := [Examples.doc "a"];
              shown_summaries := ["Buy one."];
              post := "Buy one." |}
           (snd (main Examples.w_fine []))).
  vm_compute. reflexivity.
Defined.

(** X7.  When the loader raises, the run ends with its error right after
    the load: the selector's prompt is the only one that was sent, and
    neither summary nor post is asked for. *)
Theorem loader_failure_stops_the_run : forall w p1 t1 p2 t2,
  text_input w <> "" ->
  Pipeline.action w Pipeline.Search Pipeline.blank [] = (inr p1, t1) ->
  Pipeline.action w Pipeline.Select p1 t1 = (inr p2, t2) ->
  load_urls w t2 (shown_urls p2) = None ->
  main w [] = (inl LoaderError, (t2 ++ [UrlLoad (shown_urls p2)])%list)
  /\ chat_prompts (snd (main w []))
     = [article_prompt (json_dumps w (shown_search_results p1)) (text_input w)].
Proof.
  intros w p1 t1 p2 t2 Hq E1 E2 Hl.
  assert (Hm : main w [] = (inl LoaderError, (t2 ++ [UrlLoad (shown_urls p2)])%list)).
  { rewrite main_run by exact Hq. cbn [Pipeline.stages_from].
    rewrite run_cons, E1, run_cons, E2, run_cons.
    rewrite (fetch_stage_failure w p2 t2 Hl). reflexivity. }
  split; [exact Hm|]. rewrite Hm. cbn [snd].
  destruct (search_stage_trace w _ _ _ _ E1) as [s1 [-> Q1]].
  destruct (select_stage_success w _ _ _ _ E2) as [reply [s2 [_ [_ [-> Q2]]]]].
  rewrite !chat_prompts_app.
  change (chat_prompts (search_request w (text_input w) :: s1)) with (chat_prompts s1).
  change (chat_prompts
            (article_call w (shown_search_results p1) (text_input w) :: s2))
    with (article_prompt (json_dumps w (shown_search_results p1)) (text_input w)
          :: chat_prompts s2).
  rewrite (quiet_chat_prompts _ Q1), (quiet_chat_prompts _ Q2). reflexivity.
Qed.

Lemma loader_failure_stops_the_run_witness :
  fst (main Examples.w_loader_fails []) = inl LoaderError
  /\ chat_prompts (snd (main Examples.w_loader_fails []))
     = [article_prompt (json_dumps Examples.w_loader_fails (PyDict []))
                       "electric vehicles"].
Proof.
  pose (r1 := Pipeline.action Examples.w_loader_fails Pipeline.Search Pipeline.blank []).
  pose (p1 := match fst r1 with inr p => p | inl _ => Pipeline.blank end).
  pose (r2 := Pipeline.action Examples.w_loader_fails Pipeline.Select p1 (snd r1)).
  pose (p2 := match fst r2 with inr p => p | inl _ => Pipeline.blank end).
  destruct (loader_failure_stops_the_run Examples.w_loader_fails p1 (snd r1) p2 (snd r2))
    as [H1 H2];
    [discriminate | vm_compute; reflexivity | vm_compute; reflexivity | reflexivity |].
  split; [rewrite H1; reflexivity | exact H2].
Defined.

(** *** How [summarise_content] fails *)

Section SummaryFailure.
Variable w : World.

Lemma summarise_loop_fail : forall query pairs acc tr e tr',
  summarise_loop w summariser query pairs acc tr = (inl e, tr') ->
  e = OpenAIError
  /\ exists done pair rest before,
       pairs = (done ++ pair :: rest)%list
       /\ tr' = (before ++ [summary_call w query pair])%list
       /\ chat w before "gpt-3.5-turbo" (PyFloat "0.7")
               (summary_prompt (str_pair w pair) query) = None
       /\ chat_prompts tr'
          = (chat_prompts tr
             ++ map (fun pair => summary_prompt (str_pair w pair) query)
                    (done ++ [pair]))%list.
Proof.
  intros query pairs. induction pairs as [|chunk rest IH]; intros acc tr e tr' H.
  - discriminate H.
  - cbn [summarise_loop] in H. unfold bind at 1 in H. unfold print, emit in H.
    unfold bind at 1 in H.
    erewrite predict_eq in H by (cbn [chain_prompt summariser]; apply format_summary_prompt).
    cbn [chain_llm summariser llm_model_name llm_temperature] in H.
    destruct (chat w _ "gpt-3.5-turbo" (PyFloat "0.7") _) as [reply|] eqn:E.
    + apply IH in H. destruct H as [-> [done [pair [rest' [before [Hp [Ht [Hc Hs]]]]]]]].
      split; [reflexivity|].
      exists (chunk :: done), pair, rest', before. repeat split; trivial.
      * rewrite Hp. reflexivity.
      * rewrite Hs, !chat_prompts_app. cbn. rewrite app_nil_r, <- app_assoc. reflexivity.
    + inversion H; subst. split; [reflexivity|].
      exists [], chunk, rest, (tr ++ [Print (str_pair w chunk)])%list.
      repeat split; trivial.
      rewrite !chat_prompts_app. cbn. rewrite app_nil_r. reflexivity.
Qed.

Lemma summarise_content_without_key : forall data query tr,
  has_model_key w = false ->
  summarise_content w data query tr = (inl ValidationError, tr).
Proof.
  intros data query tr K. unfold summarise_content.
  unfold bind at 1. unfold lift.
  destruct (text_splitter_never_raises data) as [chunks S]. rewrite S.
  unfold bind at 1. rewrite new_ChatOpenAI_eq, K. reflexivity.
Qed.

End SummaryFailure.

Lemma unanswered_app : forall w a b tr,
  unanswered w tr (a ++ b) = unanswered w tr a || unanswered w (tr ++ a) b.
Proof.
  intros w a. induction a as [|e a IH]; intros b tr.
  - cbn. now rewrite app_nil_r.
  - cbn [app unanswered]. rewrite IH, <- app_assoc, orb_assoc. reflexivity.
Qed.

Section SummaryAnswers.
Variable w : World.

Lemma summarise_loop_cons : forall query chunk rest acc tr,
  summarise_loop w summariser query (chunk :: rest) acc tr
  = match chat w (tr ++ [Print (str_pair w chunk)]) "gpt-3.5-turbo" (PyFloat "0.7")
                (summary_prompt (str_pair w chunk) query) with
    | Some reply =>
        summarise_loop w summariser query rest (acc ++ [reply])
          ((tr ++ [Print (str_pair w chunk)]) ++ [summary_call w query chunk])
    | None =>
        (inl OpenAIError,
         (tr ++ [Print (str_pair w chunk)]) ++ [summary_call w query chunk])
    end%list.
Proof.
  intros query chunk rest acc tr.
  cbn [summarise_loop]. unfold bind at 1. unfold print, emit.
  unfold bind at 1.
  erewrite predict_eq by (cbn [chain_prompt summariser]; apply format_summary_prompt).
  cbn [chain_llm summariser llm_model_name llm_temperature].
  destruct (chat w (tr ++ [Print (str_pair w chunk)]) "gpt-3.5-turbo" (PyFloat "0.7")
              (summary_prompt (str_pair w chunk) query)); reflexivity.
Qed.

(** The loop fails exactly when one of its calls gets no answer. *)
Lemma summarise_loop_unanswered : forall query pairs acc tr,
  exists suffix,
    snd (summarise_loop w summariser query pairs acc tr) = (tr ++ suffix)%list
    /\ unanswered w tr suffix
       = match fst (summarise_loop w summariser query pairs acc tr) with
         | inl _ => true
         | inr _ => false
         end.
Proof.
  intros query pairs. induction pairs as [|chunk rest IH]; intros acc tr.
  - exists []. cbn. now rewrite app_nil_r.
  - rewrite summarise_loop_cons.
    destruct (chat w (tr ++ [Print (str_pair w chunk)]) "gpt-3.5-turbo" (PyFloat "0.7")
                (summary_prompt (str_pair w chunk) query)) as [reply|] eqn:E.
    + destruct (IH (acc ++ [reply])%list
                   ((tr ++ [Print (str_pair w chunk)])
                    ++ [summary_call w query chunk])%list)
        as [suffix [Hs Hu]].
      exists ([Print (str_pair w chunk); summary_call w query chunk] ++ suffix)%list.
      split.
      * rewrite Hs, <- !app_assoc. reflexivity.
      * rewrite <- Hu. unfold summary_call. cbn [app unanswered]. rewrite E. cbn [orb].
        rewrite <- !app_assoc. reflexivity.
    + exists [Print (str_pair w chunk); summary_call w query chunk].
      split.
      * cbn [snd]. rewrite <- app_assoc. reflexivity.
      * unfold summary_call. cbn [fst unanswered]. rewrite E. reflexivity.
Qed.

Lemma summarise_content_unanswered : forall data query tr,
  has_model_key w = true ->
  exists suffix,
    snd (summarise_content w data query tr) = (tr ++ suffix)%list
    /\ (unanswered w tr suffix = true
        <-> exists e, fst (summarise_content w data query tr) = inl e).
Proof.
  intros data query tr K.
  destruct (text_splitter_never_raises data) as [chunks S].
  rewrite (summarise_content_eq w _ _ _ _ K S).
  destruct (summarise_loop_unanswered query (enumerate chunks) [] tr)
    as [suffix [Hs Hu]].
  destruct (summarise_loop w summariser query (enumerate chunks) [] tr) as [[e|out] t].
  - cbn [fst snd] in *. exists suffix. split; [exact Hs|]. split; eauto.
  - cbn [fst snd] in *. exists (suffix ++ [Print (str_list out)])%list. split.
    + rewrite Hs, <- app_assoc. reflexivity.
    + rewrite unanswered_app, Hu. cbn. split; [discriminate|].
      intros [e H]. discriminate H.
Qed.
End SummaryAnswers.

(** X8.  [summarise_content] fails in two ways only.  Without a model key
    it raises [ValidationError] before any call.  With one, it fails
    exactly when one of the model calls it makes gets no answer: a call
    without answer is never passed over.  The error is then [OpenAIError],
    the failing call is the last thing done, the chunks before it were
    sent in order and those after it never are, and the summaries already
    obtained are lost. *)
Theorem one_failed_summary_stops_the_stage : forall w data query tr,
  (has_model_key w = false ->
   summarise_content w data query tr = (inl ValidationError, tr))
  /\ (has_model_key w = true ->
      exists suffix,
        snd (summarise_content w data query tr) = (tr ++ suffix)%list
        /\ (unanswered w tr suffix = true
            <-> exists e, fst (summarise_content w data query tr) = inl e))
  /\ (has_model_key w = true ->
      forall e tr',
        summarise_content w data query tr = (inl e, tr') ->
        e = OpenAIError
        /\ exists chunks done pair rest before,
             Splitter.split_documents text_splitter data = inr chunks
             /\ enumerate chunks = (done ++ pair :: rest)%list
             /\ tr' = (before ++ [summary_call w query pair])%list
             /\ chat w before "gpt-3.5-turbo" (PyFloat "0.7")
                     (summary_prompt (str_pair w pair) query) = None
             /\ chat_prompts tr'
                = (chat_prompts tr
                   ++ map (fun pair => summary_prompt (str_pair w pair) query)
                          (done ++ [pair]))%list).
Proof.
  intros w data query tr. split; [|split].
  - apply summarise_content_without_key.
  - apply summarise_content_unanswered.
  - intros K e tr' H.
    destruct (text_splitter_never_raises data) as [chunks S].
    rewrite (summarise_content_eq w _ _ _ _ K S) in H.
    destruct (summarise_loop w summariser query (enumerate chunks) [] tr)
      as [[e0|out] t] eqn:E; [|discriminate].
    inversion H; subst.
    destruct (summarise_loop_fail w _ _ _ _ _ _ E)
      as [-> [done [pair [rest [before [Hp [Ht [Hc Hs]]]]]]]].
    split; [reflexivity|]. exists chunks, done, pair, rest, before.
    repeat split; assumption.
Qed.

Lemma one_failed_summary_stops_the_stage_witness :
  (exists suffix,
     snd (summarise_content Examples.w_model_gives_up
            [Examples.doc "a"; Examples.doc "b"] "cars"
            [ChatCompletion "gpt-3.5-turbo" (PyInt 1) "which article?"])
     = ([ChatCompletion "gpt-3.5-turbo" (PyInt 1) "which article?"] ++ suffix)%list
     /\ unanswered Examples.w_model_gives_up
          [ChatCompletion "gpt-3.5-turbo" (PyInt 1) "which article?"] suffix = true)
  /\ fst (summarise_content Examples.w_model_gives_up
            [Examples.doc "a"; Examples.doc "b"] "cars"
            [ChatCompletion "gpt-3.5-turbo" (PyInt 1) "which article?"])
     = inl OpenAIError
  /\ List.length
       (chat_prompts
          (snd (summarise_content Examples.w_model_gives_up
                  [Examples.doc "a"; Examples.doc "b"] "cars"
                  [ChatCompletion "gpt-3.5-turbo" (PyInt 1) "which article?"])))
     = 3
  /\ exists suffix,
       snd (summarise_content Examples.w_numbering
              [Examples.doc "a"; Examples.doc "b"] "cars" [])
       = suffix
       /\ unanswered Examples.w_numbering [] suffix = false
       /\ fst (summarise_content Examples.w_numbering
                 [Examples.doc "a"; Examples.doc "b"] "cars" [])
          = inr ["0"; "1"].
Proof.
  destruct (one_failed_summary_stops_the_stage Examples.w_model_gives_up
              [Examples.doc "a"; Examples.doc "b"] "cars"
              [ChatCompletion "gpt-3.5-turbo" (PyInt 1) "which article?"])
    as [_ [Hu H]].
  destruct (Hu eq_refl) as [suffix [Hs [_ Hf]]].
  split.
  { exists suffix. split; [exact Hs|]. apply Hf.
    exists OpenAIError. vm_compute. reflexivity. }
  destruct (H eq_refl OpenAIError
              (snd (summarise_content Examples.w_model_gives_up
                      [Examples.doc "a"; Examples.doc "b"] "cars"
                      [ChatCompletion "gpt-3.5-turbo" (PyInt 1) "which article?"])))
    as [_ [chunks [done [pair [rest [before [_ [_ [_ [_ Hp]]]]]]]]]];
    [vm_compute; reflexivity|].
  split; [vm_compute; reflexivity|]. split; [vm_compute; reflexivity|].
  destruct (one_failed_summary_stops_the_stage Examples.w_numbering
              [Examples.doc "a"; Examples.doc "b"] "cars" []) as [_ [Hu' _]].
  destruct (Hu' eq_refl) as [suffix' [Hs' [Ht' _]]].
  exists suffix'. split; [exact Hs'|]. split; [|vm_compute; reflexivity].
  destruct (unanswered Examples.w_numbering [] suffix') eqn:U; [|reflexivity].
  destruct (Ht' eq_refl) as [e He]. vm_compute in He. discriminate He.
Defined.

(** *** The exceptions of a run *)

Lemma raises_ret : forall (A : Type) errors (a : A), raises errors (ret a).
Proof. intros A errors a tr e tr' H. discriminate H. Qed.

Lemma raises_bind : forall (A B : Type) errors (m : M A) (k : A -> M B),
  raises errors m -> (forall a, raises errors (k a)) -> raises errors (bind m k).
Proof.
  intros A B errors m k Hm Hk tr e tr' H. unfold bind in H.
  destruct (m tr) as [[e0|a] t] eqn:E.
  - inversion H; subst. eapply Hm; exact E.
  - eapply Hk; exact H.
Qed.

Lemma raises_weaken : forall (A : Type) errors errors' (m : M A),
  incl errors errors' -> raises errors m -> raises errors' m.
Proof. intros A errors errors' m Hi Hm tr e tr' H. apply Hi. eapply Hm; exact H. Qed.

Lemma raises_progress_bar : forall fb t,
  raises [TypeError; IndexError] (progress_bar fb t).
Proof.
  intros fb t tr e tr' H.
  destruct fb as [[|a [|b [|c l]]]|]; inversion H; subst; cbn; auto.
Qed.

Lemma raises_progress_bar_ok : forall l t,
  3 <= List.length l -> raises [] (progress_bar (Some l) t).
Proof.
  intros l t Hl tr e tr' H.
  destruct (progress_bar_ok l t tr Hl) as [suffix [E _]]. rewrite E in H. discriminate.
Qed.

Section RunErrors.
Variable w : World.

Lemma raises_search_for_articles : forall q,
  raises [RequestException; JSONDecodeError] (search_for_articles w q).
Proof.
  intros q tr e tr' H. rewrite search_for_articles_eq in H.
  destruct (http w tr "POST" search_url (search_headers w) (search_payload q))
    as [response|]; [destruct (loads (text response))|];
    inversion H; subst; cbn; auto.
Qed.

Lemma raises_find_the_best_article_urls : forall sr q,
  raises [ValidationError; OpenAIError; JSONDecodeError]
         (find_the_best_article_urls w sr q).
Proof.
  intros sr q tr e tr' H. destruct (has_model_key w) eqn:K.
  - rewrite find_the_best_article_urls_eq in H by exact K. cbv zeta in H.
    destruct (chat w tr "gpt-3.5-turbo" (PyInt 1) _) as [reply|];
      [destruct (loads reply)|]; inversion H; subst; cbn; auto.
  - rewrite find_the_best_article_urls_no_key in H by exact K.
    inversion H; subst; cbn; auto.
Qed.

Lemma raises_get_content_from_urls : forall urls,
  raises [LoaderError] (get_content_from_urls w urls).
Proof.
  intros urls tr e tr' H. unfold get_content_from_urls in H.
  destruct (load_urls w tr urls); inversion H; subst; cbn; auto.
Qed.

Lemma raises_summarise_content : forall data q,
  raises [ValidationError; OpenAIError] (summarise_content w data q).
Proof.
  intros data q tr e tr' H. destruct (has_model_key w) eqn:K.
  - destruct (text_splitter_never_raises data) as [chunks S].
    rewrite (summarise_content_eq w _ _ _ _ K S) in H.
    destruct (summarise_loop w summariser q (enumerate chunks) [] tr)
      as [[e0|out] t] eqn:E; [|discriminate].
    inversion H; subst.
    destruct (summarise_loop_fail w _ _ _ _ _ _ E) as [-> _]. cbn; auto.
  - rewrite summarise_content_without_key in H by exact K.
    inversion H; subst; cbn; auto.
Qed.

Lemma raises_generate_reddit_post : forall summaries q,
  raises [ValidationError; OpenAIError] (generate_reddit_post w summaries q).
Proof.
  intros summaries q tr e tr' H. destruct (has_model_key w) eqn:K.
  - rewrite generate_reddit_post_eq in H by exact K. cbv zeta in H.
    destruct (chat w tr "gpt-3.5-turbo" (PyFloat "0.7") _);
      inversion H; subst; cbn; auto.
  - rewrite generate_reddit_post_no_key in H by exact K.
    inversion H; subst; cbn; auto.
Qed.

(** [main] raises what its five calls raise and what the progress bar
    raises. *)
Lemma raises_main : forall bar,
  (forall key, In key progress_keys ->
     raises bar (progress_bar (progress_bar_map w key) 20)) ->
  raises ([RequestException; JSONDecodeError; ValidationError; OpenAIError;
           LoaderError] ++ bar) (main w).
Proof.
  intros bar Hbar.
  assert (B : forall key, In key progress_keys ->
            raises ([RequestException; JSONDecodeError; ValidationError; OpenAIError;
                     LoaderError] ++ bar)
                   (progress_bar (progress_bar_map w key) 20)).
  { intros key Hk. eapply raises_weaken; [|apply Hbar; exact Hk].
    apply incl_appr, incl_refl. }
  assert (C : forall (A : Type) errors (m : M A),
            incl errors [RequestException; JSONDecodeError; ValidationError;
                         OpenAIError; LoaderError] ->
            raises errors m ->
            raises ([RequestException; JSONDecodeError; ValidationError; OpenAIError;
                     LoaderError] ++ bar) m).
  { intros A errors m Hi Hm. eapply raises_weaken; [|exact Hm].
    intros x Hx. apply in_or_app. left. now apply Hi. }
  unfold main. destruct (text_input w) as [|c q]; [apply raises_ret|].
  apply raises_bind; [eapply C; [|apply raises_search_for_articles]|intro sr].
  { intros x Hx; cbn in *; intuition. }
  apply raises_bind; [apply B; cbn; auto|intros _].
  apply raises_bind; [eapply C; [|apply raises_find_the_best_article_urls]|intro urls].
  { intros x Hx; cbn in *; intuition. }
  apply raises_bind; [apply B; cbn; auto|intros _].
  apply raises_bind; [eapply C; [|apply raises_get_content_from_urls]|intro data].
  { intros x Hx; cbn in *; intuition. }
  apply raises_bind; [apply B; cbn; auto|intros _].
  apply raises_bind; [eapply C; [|apply raises_summarise_content]|intro summaries].
  { intros x Hx; cbn in *; intuition. }
  apply raises_bind; [apply B; cbn; auto|intros _].
  apply raises_bind; [eapply C; [|apply raises_generate_reddit_post]|intro post].
  { intros x Hx; cbn in *; intuition. }
  apply raises_bind; [apply B; cbn; auto 10|intros _].
  apply raises_ret.
Qed.

End RunErrors.

(** X9.  A run ends with no other exception than those of its calls
    ([RequestException], [JSONDecodeError], [ValidationError],
    [OpenAIError], [LoaderError]) and those of the progress bar
    ([TypeError], [IndexError]): filling a prompt never fails, whatever
    the query and the texts, and neither does the splitting.  When
    [progress_bar_map] has three messages for each of the five stages, the
    progress bar raises nothing. *)
Theorem exceptions_of_a_run : forall w e tr',
  main w [] = (inl e, tr') ->
  In e [RequestException; JSONDecodeError; ValidationError; OpenAIError;
        LoaderError; TypeError; IndexError]
  /\ ((forall key, In key progress_keys ->
         exists l, progress_bar_map w key = Some l /\ 3 <= List.length l) ->
      In e [RequestException; JSONDecodeError; ValidationError; OpenAIError;
            LoaderError]).
Proof.
  intros w e tr' H. split.
  - apply (raises_main w [TypeError; IndexError]
             (fun key _ => raises_progress_bar _ 20) [] e tr' H).
  - intro Hmap.
    assert (R : raises ([RequestException; JSONDecodeError; ValidationError;
                         OpenAIError; LoaderError] ++ []) (main w)).
    { apply raises_main. intros key Hk. destruct (Hmap key Hk) as [l [-> Hl]].
      now apply raises_progress_bar_ok. }
    rewrite app_nil_r in R. exact (R [] e tr' H).
Qed.

Lemma exceptions_of_a_run_witness :
  In JSONDecodeError
     [RequestException; JSONDecodeError; ValidationError; OpenAIError; LoaderError].
Proof.
  destruct (exceptions_of_a_run Examples.w_prose JSONDecodeError
              (snd (main Examples.w_prose []))) as [_ H];
    [vm_compute; reflexivity|].
  apply H. intros key _. exists ["1"; "Working on it"; "Finished"].
  split; [reflexivity | cbn; lia].
Defined.

(** X10.  Documents that are blank (white space only, without line feed)
    give no chunk: [summarise_content] then makes no call to the model,
    prints and returns the empty list, and the prompt
    [generate_reddit_post] builds from it holds the text [[]] where the
    summaries should be. *)
Theorem blank_documents_need_no_summary : forall w data query tr,
  has_model_key w = true ->
  Forall (fun d => Splitter.occurs (Splitter.separator text_splitter) (page_content d)
                   = false
                   /\ strip (page_content d) = "") data ->
  summarise_content w data query tr = (inr [], (tr ++ [Print "[]"])%list)
  /\ snd (generate_reddit_post w [] query tr)
     = (tr ++ [ChatCompletion "gpt-3.5-turbo" (PyFloat "0.7")
                 (post_prompt "[]" query)])%list.
Proof.
  intros w data query tr K Hb.
  assert (S : Splitter.split_documents text_splitter data = inr []).
  { induction Hb as [|d rest [Ho Hs] _ IH]; [reflexivity|].
    cbn [Splitter.split_documents].
    rewrite (SplitterFacts.split_text_whole text_splitter _ Ho), Hs, IH. reflexivity. }
  split.
  - rewrite (summarise_content_eq w _ _ _ _ K S). reflexivity.
  - rewrite generate_reddit_post_eq by exact K. reflexivity.
Qed.

Lemma blank_documents_need_no_summary_witness :
  summarise_content Examples.w_blank_article [Examples.doc "   "] "cars" []
  = (inr [], [Print "[]"]).
Proof.
  destruct (blank_documents_need_no_summary Examples.w_blank_article
              [Examples.doc "   "] "cars" []) as [H _];
    [reflexivity | repeat constructor | exact H].
Defined.

(** *** The request body read back *)

Lemma scanstring_escape_ascii : forall c,
  (code c <? 128)%N = true ->
  forall f tail acc,
    scanstring (S f) (escape_ascii c ++ tail) acc = scanstring f tail (acc ++ str1 c).
Proof.
  intros c H f tail acc.
  destruct c as [b0 b1 b2 b3 b4 b5 b6 b7].
  destruct b7; [destruct b0, b1, b2, b3, b4, b5, b6; discriminate H|].
  destruct b0, b1, b2, b3, b4, b5, b6; reflexivity.
Qed.

Lemma escape_ascii_length : forall c, 1 <= String.length (escape_ascii c).
Proof.
  intro c. unfold escape_ascii.
  repeat match goal with
  | |- context [if ?b then _ else _] => destruct b
  end; cbn; lia.
Qed.

Lemma string_length_append : forall a b : string,
  String.length (a ++ b) = String.length a + String.length b.
Proof. induction a as [|c r IH]; intro b; cbn; [reflexivity | now rewrite IH]. Qed.

Lemma escape_from_ascii : forall c r,
  (code c <? 128)%N = true ->
  escape_from (String c r) 0 0 = escape_ascii c ++ escape_from r 0 0.
Proof. intros c r H. cbn [escape_from]. cbv zeta. now rewrite H. Qed.

Lemma escape_from_length : forall s,
  is_ascii s = true -> String.length s <= String.length (escape_from s 0 0).
Proof.
  induction s as [|c r IH]; intro H; [cbn; lia|].
  cbn [is_ascii] in H. apply andb_prop in H as [Hc Hr].
  rewrite (escape_from_ascii _ _ Hc), string_length_append.
  pose proof (escape_ascii_length c). specialize (IH Hr). cbn [String.length]. lia.
Qed.

(** What [json.dumps] writes for an ASCII text, [scanstring] reads back. *)
Lemma scanstring_escape_from : forall s,
  is_ascii s = true ->
  forall f tail acc,
    String.length s < f ->
    scanstring f (escape_from s 0 0 ++ String dquote tail) acc = POk (acc ++ s) tail.
Proof.
  induction s as [|c r IH]; intros H f tail acc Hf.
  - destruct f as [|f]; [lia|]. cbn. now rewrite SplitterFacts.append_empty_r.
  - cbn [is_ascii] in H. apply andb_prop in H as [Hc Hr].
    destruct f as [|f]; [lia|]. cbn [String.length] in Hf.
    rewrite (escape_from_ascii _ _ Hc), SplitterFacts.append_assoc.
    rewrite (scanstring_escape_ascii c Hc).
    rewrite (IH Hr) by lia.
    now rewrite SplitterFacts.append_assoc.
Qed.

Lemma search_payload_eq : forall query,
  search_payload query
  = String "{" (String dquote (String "q" (String dquote (String ":" (String " "
      (String dquote (escape_from query 0 0 ++ String dquote "}"))))))).
Proof.
  intro query. unfold search_payload, encode_str. cbn.
  now rewrite SplitterFacts.append_assoc.
Qed.

Lemma parse_object_payload : forall query f,
  is_ascii query = true ->
  parse_object (S (S f))
    (String dquote (String "q" (String dquote (String ":" (String " "
      (String dquote (escape_from query 0 0 ++ String dquote "}")))))))
    []
  = POk (PyDict [("q", PyStr query)]) "".
Proof.
  intros query f H.
  cbn [parse_object].
  change (Ascii.eqb dquote dquote) with true. cbv iota.
  cbn [String.length scanstring].
  change (Ascii.eqb "q" dquote) with false.
  change (Ascii.eqb "q" backslash) with false.
  change (code "q" <? 32)%N with false. cbv iota.
  change (Ascii.eqb dquote dquote) with true. cbv iota.
  cbn [skip_ws].
  change (is_ws ":") with false. cbv iota.
  change (Ascii.eqb ":" ":") with true. cbv iota.
  cbn [skip_ws].
  change (is_ws " ") with true. cbv iota.
  change (is_ws dquote) with false. cbv iota.
  cbn [scan_once].
  change (Ascii.eqb dquote dquote) with true. cbv iota.
  rewrite (scanstring_escape_from query H).
  - cbn [skip_ws]. change (is_ws "}") with false. cbv iota.
    change (Ascii.eqb "}" "}") with true. cbv iota. reflexivity.
  - pose proof (escape_from_length query H).
    rewrite string_length_append. cbn [String.length]. lia.
Qed.

(** *** The size of the chunks *)

Lemma len_append : forall a b : string, len (a ++ b) = (len a + len b)%Z.
Proof. intros a b. unfold len. rewrite string_length_append. lia. Qed.

Lemma lstrip_length : forall s, String.length (lstrip s) <= String.length s.
Proof.
  induction s as [|c r IH]; cbn [lstrip]; [lia|].
  destruct (isspace c); cbn [String.length]; lia.
Qed.

Lemma rstrip_length : forall s, String.length (rstrip s) <= String.length s.
Proof.
  induction s as [|c r IH]; cbn [rstrip]; [cbn; lia|].
  destruct (rstrip r) as [|c' r'].
  - destruct (isspace c); cbn; lia.
  - cbn [String.length] in *. lia.
Qed.

Lemma len_strip : forall s, (len (strip s) <= len s)%Z.
Proof.
  intro s. unfold len, strip.
  pose proof (rstrip_length (lstrip s)). pose proof (lstrip_length s). lia.
Qed.

Section ChunkSize.
Import Splitter.
Variable ts : CharacterTextSplitter.

Lemma sep_if_nonneg : forall b, (0 <= sep_if ts b)%Z.
Proof. intros [|]; unfold sep_if, separator_len, len; lia. Qed.

Lemma weight_nonneg : forall cur, (0 <= weight ts cur)%Z.
Proof.
  induction cur as [|d rest IH]; cbn [weight]; [lia|].
  pose proof (sep_if_nonneg (0 <? List.length rest)%nat). unfold len in *. lia.
Qed.

(** [total] is the length of the text [_join_docs] joins. *)
Lemma len_join : forall cur, len (join (separator ts) cur) = weight ts cur.
Proof.
  induction cur as [|d rest IH]; [reflexivity|].
  destruct rest as [|d' rest'].
  - cbn. lia.
  - change (join (separator ts) (d :: d' :: rest'))
      with (d ++ separator ts ++ join (separator ts) (d' :: rest')).
    rewrite !len_append, IH. cbn [weight List.length].
    change (0 <? S (List.length rest'))%nat with true.
    unfold sep_if, separator_len. lia.
Qed.

Lemma weight_zero : forall cur,
  Forall (fun d => (0 < len d)%Z) cur -> (weight ts cur <= 0)%Z -> cur = [].
Proof.
  intros [|d rest] H Hw; [reflexivity|].
  inversion H as [|? ? Hd Hr]; subst. cbn [weight] in Hw.
  pose proof (weight_nonneg rest).
  pose proof (sep_if_nonneg (0 <? List.length rest)%nat). lia.
Qed.

(** The inner loop stops at a tail of [current_doc] on which its test fails. *)
Lemma pop_front_stops : forall (P : string -> Prop) cur _len cur' tot,
  Forall P cur ->
  pop_front ts cur (weight ts cur) _len = Some (cur', tot) ->
  tot = weight ts cur' /\ must_pop ts cur' tot _len = false /\ Forall P cur'.
Proof.
  intros P. induction cur as [|d rest IH]; intros _len cur' tot HP H.
  - cbn [pop_front] in H.
    destruct (must_pop ts [] (weight ts []) _len) eqn:E; [discriminate|].
    injection H as <- <-. auto.
  - cbn [pop_front] in H.
    destruct (must_pop ts (d :: rest) (weight ts (d :: rest)) _len) eqn:E.
    + replace (weight ts (d :: rest) - (len d + sep_if ts (1 <? List.length (d :: rest))%nat))%Z
        with (weight ts rest) in H.
      * inversion HP; subst. eapply IH; eauto.
      * cbn [weight List.length].
        change (1 <? S (List.length rest))%nat with (0 <? List.length rest)%nat. lia.
    + injection H as <- <-. auto.
Qed.

Lemma emit_fits : forall ds cur,
  Forall (fun c => (len c <= chunk_size ts)%Z) ds ->
  (weight ts cur <= chunk_size ts)%Z ->
  Forall (fun c => (len c <= chunk_size ts)%Z) (emit ts ds cur).
Proof.
  intros ds cur Hd Hw. unfold emit, join_docs.
  destruct (String.eqb _ ""); [exact Hd|].
  apply Forall_app. split; [exact Hd|]. constructor; [|constructor].
  pose proof (len_strip (join (separator ts) cur)). rewrite len_join in H. lia.
Qed.

Lemma push_fits : forall st d,
  balanced ts st ->
  Forall (fun d => (0 < len d)%Z) (current_doc st) ->
  Forall (fun c => (len c <= chunk_size ts)%Z) (docs st) ->
  (0 < len d)%Z ->
  (total st + len d + sep_if ts (0 <? List.length (current_doc st))%nat <= chunk_size ts)%Z ->
  fits ts (push ts st d).
Proof.
  intros st d Hb Hn Hd Hpos Hle.
  pose proof (SplitterFacts.push_balanced ts st d Hb) as Hb'.
  repeat split.
  - exact Hb'.
  - rewrite <- Hb'. unfold push. cbn [total current_doc].
    rewrite length_app. cbn [List.length].
    replace (1 <? List.length (current_doc st) + 1)%nat
      with (0 <? List.length (current_doc st))%nat; [exact Hle|].
    destruct (current_doc st); cbn; [reflexivity|].
    now replace (List.length l + 1)%nat with (S (List.length l)) by lia.
  - unfold push. cbn [current_doc]. apply Forall_app. split; [exact Hn|].
    constructor; [exact Hpos | constructor].
  - exact Hd.
Qed.

Lemma merge_step_fits : forall st d st',
  fits ts st -> (0 < len d <= chunk_size ts)%Z ->
  merge_step ts st d = inr st' -> fits ts st'.
Proof.
  intros st d st' (Hb & Hw & Hn & Hd) [Hpos Hle] H. unfold merge_step in H.
  destruct (chunk_size ts <? total st + len d
              + sep_if ts (0 <? List.length (current_doc st))%nat)%Z eqn:E.
  - destruct (current_doc st) as [|c cur0] eqn:Ec.
    + injection H as <-. apply push_fits; try assumption.
      * rewrite Ec. constructor.
      * rewrite Hb, Ec. cbn. lia.
    + rewrite <- Ec in *. rewrite Hb in H.
      destruct (pop_front ts (current_doc st) (weight ts (current_doc st)) (len d))
        as [[cur' tot]|] eqn:Ep; [|discriminate].
      injection H as <-.
      destruct (pop_front_stops _ _ _ _ _ Hn Ep) as (Ht & Hm & Hn').
      apply push_fits; cbn [total current_doc docs].
      * exact Ht.
      * exact Hn'.
      * now apply emit_fits.
      * exact Hpos.
      * unfold must_pop in Hm. apply orb_false_elim in Hm as [_ Hm].
        apply andb_false_elim in Hm as [Hm|Hm].
        -- apply Z.ltb_ge in Hm. exact Hm.
        -- apply Z.ltb_ge in Hm. rewrite Ht in Hm.
           rewrite (weight_zero cur' Hn' Hm) in *. cbn in Ht. subst tot. cbn. lia.
  - injection H as <-. apply Z.ltb_ge in E. now apply push_fits.
Qed.

Lemma merge_loop_fits : forall splits st st',
  fits ts st ->
  Forall (fun d => (0 < len d <= chunk_size ts)%Z) splits ->
  merge_loop ts splits st = inr st' -> fits ts st'.
Proof.
  induction splits as [|d rest IH]; intros st st' Hf Hs H; cbn [merge_loop] in H.
  - now injection H as <-.
  - inversion Hs; subst.
    destruct (merge_step ts st d) as [e|st1] eqn:E; [discriminate|].
    eapply IH; [eapply merge_step_fits; eauto | assumption | exact H].
Qed.

Lemma nonempty_len : forall s, nonempty s = true -> (0 < len s)%Z.
Proof. intros [|c r] H; [discriminate|]. unfold len. cbn. lia. Qed.

Lemma split_pieces_nonempty : forall sep text,
  Forall (fun d => (0 < len d)%Z) (split_pieces sep text).
Proof.
  intros sep text. unfold split_pieces. apply Forall_forall. intros d Hd.
  apply filter_In in Hd as [_ Hd]. now apply nonempty_len.
Qed.

(** When no piece of the text is longer than [chunk_size], no chunk is. *)
Lemma split_text_fits : forall text chunks,
  Forall (fun d => (len d <= chunk_size ts)%Z) (split_pieces (separator ts) text) ->
  split_text ts text = inr chunks ->
  Forall (fun c => (len c <= chunk_size ts)%Z) chunks.
Proof.
  intros text chunks Hp H. unfold split_text, merge_splits in H.
  destruct (merge_loop ts (split_pieces (separator ts) text)
              {| docs := []; current_doc := []; total := 0 |}) as [e|st] eqn:E;
    [discriminate|].
  injection H as <-.
  destruct (split_pieces (separator ts) text) as [|p ps] eqn:Es.
  - cbn [merge_loop] in E. injection E as <-. cbn. constructor.
  - assert (Hf : fits ts st).
    { eapply merge_loop_fits; [| |exact E].
      - inversion Hp; subst.
        repeat split; cbn [current_doc docs total]; try constructor.
        cbn. pose proof (split_pieces_nonempty (separator ts) text) as Hn.
        rewrite Es in Hn. inversion Hn; subst. lia.
      - pose proof (split_pieces_nonempty (separator ts) text) as Hn.
        rewrite Es in Hn. rewrite Forall_forall in *. intros d Hd.
        split; [now apply Hn | now apply Hp]. }
    destruct Hf as (_ & Hw & _ & Hd). now apply emit_fits.
Qed.

Lemma split_documents_fits : forall documents chunks,
  (forall doc, In doc documents ->
     Forall (fun d => (len d <= chunk_size ts)%Z)
            (split_pieces (separator ts) (page_content doc))) ->
  split_documents ts documents = inr chunks ->
  Forall (fun c => (len (page_content c) <= chunk_size ts)%Z) chunks.
Proof.
  induction documents as [|doc rest IH]; intros chunks Hp H; cbn [split_documents] in H.
  - injection H as <-. constructor.
  - destruct (split_text ts (page_content doc)) as [e|cs] eqn:E; [discriminate|].
    destruct (split_documents ts rest) as [e|more] eqn:Er; [discriminate|].
    injection H as <-. apply Forall_app. split.
    + apply Forall_forall. intros c Hc. apply in_map_iff in Hc as (s & <- & Hs).
      cbn [page_content].
      pose proof (split_text_fits _ _ (Hp doc (or_introl eq_refl)) E) as Hf.
      rewrite Forall_forall in Hf. now apply Hf.
    + apply IH; [|reflexivity]. intros d Hd. apply Hp. now right.
Qed.
End ChunkSize.

(** X11.  The body [search_for_articles] sends is JSON that carries the
    query unchanged: for a query of ASCII characters, whatever quotes,
    backslashes or control characters it holds, the one request sent has
    a body that [json.loads] reads as the dictionary with the single key
    [q] and the query as its value. *)
Theorem search_body_reads_back : forall w query tr,
  is_ascii query = true ->
  exists body,
    snd (search_for_articles w query tr)
    = (tr ++ [HttpRequest "POST" search_url (search_headers w) body])%list
    /\ loads body = Some (PyDict [("q", PyStr query)]).
Proof.
  intros w query tr H. exists (search_payload query). split.
  - rewrite search_for_articles_eq. reflexivity.
  - unfold loads, decode. rewrite search_payload_eq.
    cbn [String.length Nat.mul Nat.add skip_ws].
    change (is_ws "{") with false. cbv iota.
    rewrite Nat.add_0_r. rewrite <- plus_n_Sm.
    cbn [scan_once].
    change (Ascii.eqb "{" dquote) with false.
    change (Ascii.eqb "{" "{") with true. cbv iota.
    cbn [skip_ws]. change (is_ws dquote) with false. cbv iota.
    change (Ascii.eqb dquote "}") with false. cbv iota.
    cbn [Nat.add]. rewrite (parse_object_payload query _ H). reflexivity.
Qed.

Lemma search_body_reads_back_witness :
  is_ascii ("say " ++ String dquote (String backslash (String LF "now"))) = true
  /\ exists body,
       snd (search_for_articles Examples.w_fine
              ("say " ++ String dquote (String backslash (String LF "now"))) [])
       = [HttpRequest "POST" search_url (search_headers Examples.w_fine) body]
       /\ loads body
          = Some (PyDict [("q", PyStr ("say " ++ String dquote
                                         (String backslash (String LF "now"))))]).
Proof.
  split; [reflexivity|].
  apply (search_body_reads_back Examples.w_fine
           ("say " ++ String dquote (String backslash (String LF "now"))) []).
  reflexivity.
Defined.

(** *** What a chunk is made of *)

Section ChunkRuns.
Import Splitter.
Variable ts : CharacterTextSplitter.

Lemma pop_front_tail : forall cur tot _len cur' tot',
  pop_front ts cur tot _len = Some (cur', tot') ->
  exists dropped, cur = (dropped ++ cur')%list.
Proof.
  induction cur as [|d rest IH]; intros tot _len cur' tot' H; cbn [pop_front] in H.
  - destruct (must_pop ts [] tot _len); [discriminate|].
    injection H as <- <-. now exists [].
  - destruct (must_pop ts (d :: rest) tot _len).
    + destruct (IH _ _ _ _ H) as [dropped ->]. now exists (d :: dropped).
    + injection H as <- <-. now exists [].
Qed.

Lemma run_of_later : forall (seen : list string) d c,
  run_of ts seen c -> run_of ts (seen ++ [d]) c.
Proof.
  intros seen d c (Hc & before & run & after & E & Hj).
  split; [exact Hc|]. exists before, run, (after ++ [d])%list. split; [|exact Hj].
  rewrite E, <- !app_assoc. reflexivity.
Qed.

Lemma emit_runs : forall seen before ds cur,
  seen = (before ++ cur)%list ->
  Forall (run_of ts seen) ds ->
  Forall (run_of ts seen) (emit ts ds cur).
Proof.
  intros seen before ds cur E Hd. unfold emit, join_docs.
  destruct (String.eqb (strip (join (separator ts) cur)) "") eqn:Eb; [exact Hd|].
  apply Forall_app. split; [exact Hd|]. constructor; [|constructor]. split.
  - intro Hc. rewrite Hc in Eb. discriminate Eb.
  - exists before, cur, []. rewrite app_nil_r. auto.
Qed.

Lemma merge_step_runs : forall seen st d st',
  (exists before, seen = (before ++ current_doc st)%list) ->
  Forall (run_of ts seen) (docs st) ->
  merge_step ts st d = inr st' ->
  (exists before, (seen ++ [d])%list = (before ++ current_doc st')%list)
  /\ Forall (run_of ts (seen ++ [d])) (docs st').
Proof.
  intros seen st d st' [before E] Hd H.
  assert (Hpush : forall st0,
            (exists b, seen = (b ++ current_doc st0)%list) ->
            Forall (run_of ts seen) (docs st0) ->
            (exists b, (seen ++ [d])%list = (b ++ current_doc (push ts st0 d))%list)
            /\ Forall (run_of ts (seen ++ [d])) (docs (push ts st0 d))).
  { intros st0 [b Eb] Hd0. split.
    - exists b. unfold push. cbn [current_doc]. rewrite Eb, <- app_assoc. reflexivity.
    - unfold push. cbn [docs]. eapply Forall_impl; [|exact Hd0].
      intros c. apply run_of_later. }
  unfold merge_step in H.
  destruct (chunk_size ts <? _)%Z.
  - destruct (current_doc st) as [|c cur0] eqn:Ec.
    + injection H as <-. apply Hpush; [exists before; now rewrite Ec | exact Hd].
    + rewrite <- Ec in *.
      destruct (pop_front ts (current_doc st) (total st) (len d))
        as [[cur' tot]|] eqn:Ep; [|discriminate].
      injection H as <-.
      destruct (pop_front_tail _ _ _ _ _ Ep) as [dropped Edrop].
      apply Hpush; cbn [current_doc docs].
      * exists (before ++ dropped)%list. rewrite E, Edrop, <- app_assoc. reflexivity.
      * now apply (emit_runs seen before).
  - injection H as <-. apply Hpush; [now exists before | exact Hd].
Qed.

Lemma merge_loop_runs : forall splits seen st st',
  (exists before, seen = (before ++ current_doc st)%list) ->
  Forall (run_of ts seen) (docs st) ->
  merge_loop ts splits st = inr st' ->
  (exists before, (seen ++ splits)%list = (before ++ current_doc st')%list)
  /\ Forall (run_of ts (seen ++ splits)) (docs st').
Proof.
  induction splits as [|d rest IH]; intros seen st st' Hc Hd H; cbn [merge_loop] in H.
  - injection H as <-. rewrite app_nil_r. auto.
  - destruct (merge_step ts st d) as [e|st1] eqn:E; [discriminate|].
    destruct (merge_step_runs seen st d st1 Hc Hd E) as [Hc1 Hd1].
    replace (seen ++ d :: rest)%list with ((seen ++ [d]) ++ rest)%list
      by (rewrite <- app_assoc; reflexivity).
    now apply (IH (seen ++ [d])%list st1).
Qed.

Lemma split_text_runs : forall text chunks,
  split_text ts text = inr chunks ->
  Forall (run_of ts (split_pieces (separator ts) text)) chunks.
Proof.
  intros text chunks H. unfold split_text, merge_splits in H.
  destruct (merge_loop ts (split_pieces (separator ts) text)
              {| docs := []; current_doc := []; total := 0 |}) as [e|st] eqn:E;
    [discriminate|].
  injection H as <-.
  assert (Hc : exists before : list string,
                 [] = (before ++ current_doc {| docs := []; current_doc := [];
                                                total := 0 |})%list)
    by (now exists []).
  destruct (merge_loop_runs _ [] _ _ Hc (Forall_nil _) E) as [[before Eb] Hd].
  cbn [app] in *. now apply (emit_runs _ before).
Qed.

Lemma split_documents_runs : forall documents chunks,
  split_documents ts documents = inr chunks ->
  Forall (fun chunk =>
            exists document,
              In document documents
              /\ metadata chunk = metadata document
              /\ run_of ts (split_pieces (separator ts) (page_content document))
                        (page_content chunk)) chunks.
Proof.
  induction documents as [|doc rest IH]; intros chunks H; cbn [split_documents] in H.
  - injection H as <-. constructor.
  - destruct (split_text ts (page_content doc)) as [e|cs] eqn:E; [discriminate|].
    destruct (split_documents ts rest) as [e|more] eqn:Er; [discriminate|].
    injection H as <-. apply Forall_app. split.
    + apply Forall_forall. intros c Hc. apply in_map_iff in Hc as (s & <- & Hs).
      exists doc. cbn [page_content metadata].
      split; [now left|]. split; [reflexivity|].
      pose proof (split_text_runs _ _ E) as Hf. rewrite Forall_forall in Hf.
      now apply Hf.
    + eapply Forall_impl; [|exact (IH more eq_refl)].
      intros c (document & Hin & Hm & Hr). exists document.
      split; [now right|]. split; assumption.
Qed.
End ChunkRuns.

(** *** ASCII documents give ASCII chunks *)

Lemma is_ascii_append : forall a b,
  is_ascii (a ++ b) = is_ascii a && is_ascii b.
Proof.
  induction a as [|c r IH]; intro b; [reflexivity|].
  cbn [append is_ascii]. rewrite IH, andb_assoc. reflexivity.
Qed.

Lemma is_ascii_lstrip : forall s, is_ascii s = true -> is_ascii (lstrip s) = true.
Proof.
  induction s as [|c r IH]; intro H; [reflexivity|].
  cbn [lstrip]. destruct (isspace c); [|exact H].
  cbn [is_ascii] in H. apply andb_prop in H as [_ H]. now apply IH.
Qed.

Lemma is_ascii_rstrip : forall s, is_ascii s = true -> is_ascii (rstrip s) = true.
Proof.
  induction s as [|c r IH]; intro H; [reflexivity|].
  cbn [is_ascii] in H. apply andb_prop in H as [Hc Hr]. specialize (IH Hr).
  cbn [rstrip]. destruct (rstrip r) as [|c' r'].
  - destruct (isspace c); [reflexivity|]. cbn. now rewrite Hc.
  - cbn [is_ascii] in *. now rewrite Hc.
Qed.

Lemma is_ascii_strip : forall s, is_ascii s = true -> is_ascii (strip s) = true.
Proof. intros s H. unfold strip. now apply is_ascii_rstrip, is_ascii_lstrip. Qed.

Lemma is_ascii_join : forall sep l,
  is_ascii sep = true -> Forall (fun p => is_ascii p = true) l ->
  is_ascii (join sep l) = true.
Proof.
  intros sep l Hsep H. induction H as [|p l' Hp Hl IH]; [reflexivity|].
  destruct l' as [|p' l''].
  - exact Hp.
  - change (join sep (p :: p' :: l'')) with (p ++ sep ++ join sep (p' :: l'')).
    rewrite !is_ascii_append, Hp, Hsep, IH. reflexivity.
Qed.

Lemma is_ascii_split_from : forall sep s skip cur,
  is_ascii s = true -> is_ascii cur = true ->
  Forall (fun p => is_ascii p = true) (Splitter.split_from sep s skip cur).
Proof.
  intros sep s. induction s as [|c r IH]; intros skip cur Hs Hc.
  - repeat constructor. exact Hc.
  - cbn [is_ascii] in Hs. apply andb_prop in Hs as [Hch Hr].
    cbn [Splitter.split_from]. destruct skip as [|k].
    + destruct (prefix sep (String c r)).
      * constructor; [exact Hc|]. now apply IH.
      * apply IH; [exact Hr|]. rewrite is_ascii_append, Hc. cbn. now rewrite Hch.
    + now apply IH.
Qed.

Lemma is_ascii_chars : forall s,
  is_ascii s = true -> Forall (fun p => is_ascii p = true) (Splitter.chars s).
Proof.
  induction s as [|c r IH]; intro H; [constructor|].
  cbn [is_ascii] in H. apply andb_prop in H as [Hc Hr].
  unfold Splitter.chars. cbn [list_ascii_of_string map]. constructor.
  - cbn. now rewrite Hc.
  - now apply IH.
Qed.

Lemma is_ascii_split_pieces : forall sep text,
  is_ascii text = true ->
  Forall (fun p => is_ascii p = true) (Splitter.split_pieces sep text).
Proof.
  intros sep text H. unfold Splitter.split_pieces.
  apply Forall_forall. intros p Hp. apply filter_In in Hp as [Hp _].
  revert p Hp. apply Forall_forall.
  destruct sep; [now apply is_ascii_chars | now apply is_ascii_split_from].
Qed.

Lemma is_ascii_run_of : forall ts all c,
  is_ascii (Splitter.separator ts) = true ->
  Forall (fun p => is_ascii p = true) all ->
  run_of ts all c -> is_ascii c = true.
Proof.
  intros ts all c Hsep Hall (_ & before & run & after & -> & ->).
  apply is_ascii_strip, is_ascii_join; [exact Hsep|].
  apply Forall_app in Hall as [_ Hall]. now apply Forall_app in Hall as [Hall _].
Qed.

(** X12.  The splitter of [summarise_content] keeps its chunk size when
    the lines do.  For documents of ASCII text, where a byte is a
    character: if no line of any document is longer than [chunk_size]
    (3000 characters), the documents are split without error, every chunk
    is ASCII text again and no chunk is longer than [chunk_size]. *)
Theorem chunks_fit_when_lines_fit : forall data,
  Forall (fun document => is_ascii (page_content document) = true) data ->
  (forall document, In document data ->
     Forall (fun line => (len line <= Splitter.chunk_size text_splitter)%Z)
            (Splitter.split_pieces (Splitter.separator text_splitter)
                                   (page_content document))) ->
  exists chunks,
    Splitter.split_documents text_splitter data = inr chunks
    /\ Forall (fun chunk =>
                 is_ascii (page_content chunk) = true
                 /\ (len (page_content chunk)
                     <= Splitter.chunk_size text_splitter)%Z) chunks.
Proof.
  intros data Ha H.
  destruct (text_splitter_never_raises data) as [chunks E].
  exists chunks. split; [exact E|].
  pose proof (split_documents_fits text_splitter data chunks H E) as Hf.
  pose proof (split_documents_runs text_splitter data chunks E) as Hr.
  rewrite Forall_forall in *. intros chunk Hc. split; [|now apply Hf].
  destruct (Hr chunk Hc) as (document & Hin & _ & Hrun).
  exact (is_ascii_run_of text_splitter _ _ eq_refl
           (is_ascii_split_pieces _ _ (Ha _ Hin)) Hrun).
Qed.

Lemma chunks_fit_when_lines_fit_witness :
  exists chunks,
    Splitter.split_documents text_splitter [Examples.three_lines] = inr chunks
    /\ Forall (fun chunk =>
                 is_ascii (page_content chunk) = true
                 /\ (len (page_content chunk)
                     <= Splitter.chunk_size text_splitter)%Z) chunks.
Proof.
  apply (chunks_fit_when_lines_fit [Examples.three_lines]).
  - constructor; [vm_compute; reflexivity | constructor].
  - intros document [<-|[]].
    apply Forall_forall. intros line Hl.
    vm_compute in Hl.
    destruct Hl as [<-|[<-|[<-|[]]]]; vm_compute; discriminate.
Defined.

(** X13.  What [summarise_content] summarises: the splitter gives, for any
    documents, chunks each of which is never empty, carries the metadata
    of a document of the input and is made of consecutive lines of that
    document, joined by line feeds and stripped of the white space around
    them.  No chunk mixes two documents and none cuts a line. *)
Theorem chunks_are_runs_of_lines : forall data,
  exists chunks,
    Splitter.split_documents text_splitter data = inr chunks
    /\ Forall (fun chunk =>
                 page_content chunk <> ""
                 /\ exists document before run after,
                      In document data
                      /\ metadata chunk = metadata document
                      /\ Splitter.split_pieces (str1 LF) (page_content document)
                         = (before ++ run ++ after)%list
                      /\ page_content chunk = strip (join (str1 LF) run)) chunks.
Proof.
  intro data. destruct (text_splitter_never_raises data) as [chunks E].
  exists chunks. split; [exact E|].
  eapply Forall_impl; [|exact (split_documents_runs text_splitter data chunks E)].
  intros c (document & Hin & Hm & Hne & before & run & after & Hs & Hj).
  split; [exact Hne|]. exists document, before, run, after. auto.
Qed.
